(** * nrf24: register-level driver for the nRF24L01+ transceiver

    A shallow embedding of [nrf24.py].  Python integers are [Z] (unbounded,
    so [~mask] is [Z.lnot mask]); a failed [assert] and every other raised
    exception is a value of [exn]; the SPI object and the container
    iteration order of the interpreter are interfaces the driver is
    parameterised by.  The description strings of the register table are
    documentation only and are left out. *)

From Stdlib Require Import ZArith String Ascii List Lia.
From stdpp Require Import base list gmap strings.

Open Scope Z_scope.

(** ** Exceptions and results *)

Inductive exn : Type :=
  | AssertionError (msg : string)
  | AttributeError (attr : string)
  | NameError (name : string)
  | TypeError
  | ValueError
  | IndexError
  | KeyError
  | CancelFailedException
  | IOError.

(** [Blocked]: the thread sleeps on the condition variable and is never
    woken again; no handler and no [finally] clause runs. *)
Inductive result (A : Type) : Type :=
  | Ok (a : A)
  | Raise (e : exn)
  | Blocked.
Arguments Ok {A} a.
Arguments Raise {A} e.
Arguments Blocked {A}.

Definition assert (b : bool) (msg : string) : result unit :=
  if b then Ok tt else Raise (AssertionError msg).

Definition rbind {A B} (r : result A) (k : A -> result B) : result B :=
  match r with
  | Ok a => k a
  | Raise e => Raise e
  | Blocked => Blocked
  end.

Declare Scope result_scope.
Delimit Scope result_scope with result.
Notation "x <- r ;; k" := (rbind r (fun x => k))
  (at level 100, r at level 99, k at level 200, right associativity) : result_scope.
Notation "r ;;; k" := (rbind r (fun _ => k))
  (at level 100, k at level 200, right associativity) : result_scope.

Definition _SPI_NOP : Z := 0xFF.

(** ** The register table *)

Record _RegisterFieldInfo : Type := FieldInfo {
  fi_name : string;
  start_bit : Z;
  num_bits : Z;
  reset_value : Z;
  rw : string
}.

Record _RegisterInfo : Type := RegInfo {
  ri_name : string;
  address : Z;
  min_size : Z;
  max_size : Z;
  fields : list _RegisterFieldInfo
}.

Definition _REGISTERS : list _RegisterInfo := [
    RegInfo "CONFIG" 0x00 1 1 [
      FieldInfo "Reserved" 7 1 0 "R/W";
      FieldInfo "MASK_RX_DR" 6 1 0 "R/W";
      FieldInfo "MASK_TX_DS" 5 1 0 "R/W";
      FieldInfo "MASK_MAX_RT" 4 1 0 "R/W";
      FieldInfo "EN_CRC" 3 1 1 "R/W";
      FieldInfo "CRCO" 2 1 0 "R/W";
      FieldInfo "PWR_UP" 1 1 0 "R/W";
      FieldInfo "PRIM_RX" 0 1 0 "R/W" ];
    RegInfo "EN_AA" 0x01 1 1 [
      FieldInfo "Reserved" 6 2 0 "R/W";
      FieldInfo "ENAA_P5" 5 1 1 "R/W";
      FieldInfo "ENAA_P4" 4 1 1 "R/W";
      FieldInfo "ENAA_P3" 3 1 1 "R/W";
      FieldInfo "ENAA_P2" 2 1 1 "R/W";
      FieldInfo "ENAA_P1" 1 1 1 "R/W";
      FieldInfo "ENAA_P0" 0 1 1 "R/W" ];
    RegInfo "EN_RXADDR" 0x02 1 1 [
      FieldInfo "Reserved" 6 2 0 "R/W";
      FieldInfo "ERX_P5" 5 1 0 "R/W";
      FieldInfo "ERX_P4" 4 1 0 "R/W";
      FieldInfo "ERX_P3" 3 1 0 "R/W";
      FieldInfo "ERX_P2" 2 1 0 "R/W";
      FieldInfo "ERX_P1" 1 1 1 "R/W";
      FieldInfo "ERX_P0" 0 1 1 "R/W" ];
    RegInfo "SETUP_AW" 0x03 1 1 [
      FieldInfo "Reserved" 2 6 0 "R/W";
      FieldInfo "AW" 0 2 3 "R/W" ];
    RegInfo "SETUP_RETR" 0x04 1 1 [
      FieldInfo "ARD" 4 4 0 "R/W";
      FieldInfo "ARC" 0 4 3 "R/W" ];
    RegInfo "RF_CH" 0x05 1 1 [
      FieldInfo "Reserved" 7 1 0 "R/W";
      FieldInfo "RF_CH" 0 7 2 "R/W" ];
    RegInfo "RF_SETUP" 0x06 1 1 [
      FieldInfo "CONT_WAVE" 7 1 0 "R/W";
      FieldInfo "Reserved" 6 1 0 "R/W";
      FieldInfo "RF_DR_LOW" 5 1 0 "R/W";
      FieldInfo "PLL_LOCK" 4 1 0 "R/W";
      FieldInfo "RF_DR_HIGH" 3 1 1 "R/W";
      FieldInfo "RF_PWR" 1 2 3 "R/W";
      FieldInfo "Obsolete" 0 1 0 "R/W" ];
    RegInfo "STATUS" 0x07 1 1 [
      FieldInfo "Reserved" 7 1 0 "R/W";
      FieldInfo "RX_DR" 6 1 0 "R/W";
      FieldInfo "TX_DS" 5 1 0 "R/W";
      FieldInfo "MAX_RT" 4 1 0 "R/W";
      FieldInfo "RX_P_NO" 1 3 7 "R";
      FieldInfo "TX_FULL" 0 1 0 "R" ];
    RegInfo "OBSERVE_TX" 0x08 1 1 [
      FieldInfo "PLOS_CNT" 4 4 0 "R";
      FieldInfo "ARC_CNT" 0 4 0 "R" ];
    RegInfo "RPD" 0x09 1 1 [
      FieldInfo "Reserved" 1 7 0 "R";
      FieldInfo "RPD" 0 1 0 "R" ];
    RegInfo "RX_ADDR_P0" 0x0a 3 5 [];
    RegInfo "RX_ADDR_P1" 0x0b 3 5 [];
    RegInfo "RX_ADDR_P2" 0x0c 1 1 [
      FieldInfo "RX_ADDR_P2" 0 8 0xc3 "R/W" ];
    RegInfo "RX_ADDR_P3" 0x0d 1 1 [
      FieldInfo "RX_ADDR_P3" 0 8 0xc4 "R/W" ];
    RegInfo "RX_ADDR_P4" 0x0e 1 1 [
      FieldInfo "RX_ADDR_P4" 0 8 0xc5 "R/W" ];
    RegInfo "RX_ADDR_P5" 0x0f 1 1 [
      FieldInfo "RX_ADDR_P5" 0 8 0xc6 "R/W" ];
    RegInfo "TX_ADDR" 0x10 3 5 [];
    RegInfo "RX_PW_P0" 0x11 1 1 [
      FieldInfo "Reserved" 6 2 0 "R/W";
      FieldInfo "RX_PW_P0" 0 6 0 "R/W" ];
    RegInfo "RX_PW_P1" 0x12 1 1 [
      FieldInfo "Reserved" 6 2 0 "R/W";
      FieldInfo "RX_PW_P1" 0 6 0 "R/W" ];
    RegInfo "RX_PW_P2" 0x13 1 1 [
      FieldInfo "Reserved" 6 2 0 "R/W";
      FieldInfo "RX_PW_P2" 0 6 0 "R/W" ];
    RegInfo "RX_PW_P3" 0x14 1 1 [
      FieldInfo "Reserved" 6 2 0 "R/W";
      FieldInfo "RX_PW_P3" 0 6 0 "R/W" ];
    RegInfo "RX_PW_P4" 0x15 1 1 [
      FieldInfo "Reserved" 6 2 0 "R/W";
      FieldInfo "RX_PW_P4" 0 6 0 "R/W" ];
    RegInfo "RX_PW_P5" 0x16 1 1 [
      FieldInfo "Reserved" 6 2 0 "R/W";
      FieldInfo "RX_PW_P5" 0 6 0 "R/W" ];
    RegInfo "FIFO_STATUS" 0x17 1 1 [
      FieldInfo "Reserved" 7 1 0 "R/W";
      FieldInfo "TX_REUSE" 6 1 0 "R";
      FieldInfo "TX_FULL_" 5 1 0 "R";
      FieldInfo "TX_EMPTY" 4 1 1 "R";
      FieldInfo "Reserved" 2 2 0 "R/W";
      FieldInfo "RX_FULL" 1 1 0 "R";
      FieldInfo "RX_EMPTY" 0 1 1 "R" ];
    RegInfo "DYNPD" 0x1c 1 1 [
      FieldInfo "Reserved" 6 2 0 "R/W";
      FieldInfo "DPL_P5" 5 1 0 "R/W";
      FieldInfo "DPL_P4" 4 1 0 "R/W";
      FieldInfo "DPL_P3" 3 1 0 "R/W";
      FieldInfo "DPL_P2" 2 1 0 "R/W";
      FieldInfo "DPL_P1" 1 1 0 "R/W";
      FieldInfo "DPL_P0" 0 1 0 "R/W" ];
    RegInfo "FEATURE" 0x1d 1 1 [
      FieldInfo "Reserved" 3 5 0 "R/W";
      FieldInfo "EN_DPL" 2 1 0 "R/W";
      FieldInfo "EN_ACK_PAY" 1 1 0 "R/W";
      FieldInfo "EN_DYN_ACK" 0 1 0 "R/W" ]].

(** [range(a, b)] *)
Definition range (a b : Z) : list Z := seqZ a (b - a).

Fixpoint _verify_bits (fs : list _RegisterFieldInfo) (bits : gset Z)
  : result (gset Z) :=
  match fs with
  | [] => Ok bits
  | field :: fs' =>
      bits' <- foldl (fun acc bit =>
                 bs <- acc ;;
                 assert (bool_decide (bit ∉ bs)) "Bit overlaps" ;;;
                 Ok ({[bit]} ∪ bs))
               (Ok bits) (range (start_bit field) (start_bit field + num_bits field)) ;;
      _verify_bits fs' bits'
  end%result.

Fixpoint _verify_loop (rs : list _RegisterInfo)
    (register_addresses : gset Z) (register_names : gset string) : result unit :=
  match rs with
  | [] => Ok tt
  | register :: rs' =>
      assert (bool_decide (ri_name register ∉ register_names)) "" ;;;
      assert (bool_decide (address register ∉ register_addresses)) "" ;;;
      bits <- _verify_bits (fields register) ∅ ;;
      assert (bool_decide (bits = list_to_set (range 0 8)) || bool_decide (bits = ∅))
        "Bits is not 0:7 or empty" ;;;
      _verify_loop rs' ({[address register]} ∪ register_addresses)
                       ({[ri_name register]} ∪ register_names)
  end%result.

(** Quick check for some inconsistencies in [_REGISTERS]; run at import. *)
Definition _verify_registers : result unit := _verify_loop _REGISTERS ∅ ∅.

(** ** Field and register classes

    [_create_field_class] and [_create_register_class] build one subclass of
    [_RegisterField] per named field and one subclass of [_Register] per
    register; a class is the record of its constants. *)

Record field_class : Type := {
  REGISTER_NAME : string;
  REGISTER_ADDRESS : Z;
  FIELD_NAME : string;
  START_BIT : Z;
  NUM_BITS : Z;
  RESET_VALUE : Z;
  RW : string
}.

Record register_class : Type := {
  NAME : string;
  ADDRESS : Z;
  MIN_SIZE : Z;
  MAX_SIZE : Z;
  FIELDS : list field_class
}.

#[global] Instance field_class_eq_dec : EqDecision field_class.
Proof. solve_decision. Defined.
#[global] Instance register_class_eq_dec : EqDecision register_class.
Proof. solve_decision. Defined.

Definition _get_unshifted_mask (field : field_class) : Z :=
  Z.shiftl 1 (NUM_BITS field) - 1.

Definition _get_mask (field : field_class) : Z :=
  Z.shiftl (_get_unshifted_mask field) (START_BIT field).

(** [c in s] for a one-character string [c] *)
Fixpoint char_in (c : ascii) (s : string) : bool :=
  match s with
  | EmptyString => false
  | String c' s' => if Ascii.eqb c c' then true else char_in c s'
  end.

Definition _create_field_class (register_name : string) (register_address : Z)
    (field_name : string) (start_bit num_bits reset_value : Z) (rw : string)
  : result field_class :=
  (assert ((0 <=? start_bit) && (start_bit <=? 7)) "" ;;;
   assert ((1 <=? start_bit + num_bits) && (start_bit + num_bits <=? 8)) "" ;;;
   assert (bool_decide (rw ∈ ["R"; "W"; "R/W"])) rw ;;;
   (if bool_decide (rw = "R/W") then Ok tt else assert (bool_decide (rw = "R")) "") ;;;
   Ok {| REGISTER_NAME := register_name;
         REGISTER_ADDRESS := register_address;
         FIELD_NAME := field_name;
         START_BIT := start_bit;
         NUM_BITS := num_bits;
         RESET_VALUE := reset_value;
         RW := rw |})%result.

Definition _create_register_class (python_register_name : string) (address : Z)
    (min_size max_size : Z) (fields : list field_class) : result register_class :=
  (assert ((1 <=? min_size) && (min_size <=? max_size)) "" ;;;
   assert ((0 <=? address) && (address <=? 0x1F)) "Address must be less than 0x1F" ;;;
   Ok {| NAME := python_register_name;
         ADDRESS := address;
         MIN_SIZE := min_size;
         MAX_SIZE := max_size;
         FIELDS := fields |})%result.

(** What a module-level name of [nrf24] is bound to. *)
Inductive attr : Type :=
  | FieldAttr (c : field_class)
  | RegisterAttr (c : register_class)
  | OtherAttr.

(** The module namespace, latest binding first. *)
Definition namespace : Type := list (string * attr).

Fixpoint lookup_name (name : string) (module : namespace) : option attr :=
  match module with
  | [] => None
  | (n, a) :: module' => if String.eqb n name then Some a else lookup_name name module'
  end.

Definition hasattr (module : namespace) (name : string) : bool :=
  match lookup_name name module with Some _ => true | None => false end.

Definition setattr (module : namespace) (name : string) (a : attr) : namespace :=
  (name, a) :: module.

(** Names bound in the module before [_create_module_variables()] runs, and
    those bound by the definitions after it. *)
Definition globals_before : list string :=
  ["collections"; "copy"; "sys"; "threading"; "time"; "GPIO"; "_SPI_NOP";
   "_RegisterFieldInfo"; "_RegisterInfo"; "_REGISTERS"; "_verify_registers";
   "_get_unshifted_mask"; "_get_mask"; "_RegisterFieldSet"; "_RegisterField";
   "_Register"; "_create_field_class"; "_create_register_class";
   "_create_module_variables"].

Definition globals_after : list string :=
  ["_to_bytes"; "_tabulate"; "_assert_valid_register_and_size";
   "CancelFailedException"; "NRF24Gpio"; "_WaitInfo"; "NRF24Device"].

Definition bind_names (names : list string) (module : namespace) : namespace :=
  foldl (fun m n => setattr m n OtherAttr) module names.

Fixpoint _create_fields (register : _RegisterInfo) (fs : list _RegisterFieldInfo)
    (module : namespace) (fields : list field_class)
  : result (namespace * list field_class) :=
  match fs with
  | [] => Ok (module, fields)
  | field :: fs' =>
      assert (negb (hasattr module (fi_name field))) "already defined" ;;;
      if negb (String.eqb (fi_name field) "Reserved") then
        class_ <- _create_field_class (ri_name register) (address register)
                    (fi_name field) (start_bit field) (num_bits field)
                    (reset_value field) (rw field) ;;
        _create_fields register fs' (setattr module (fi_name field) (FieldAttr class_))
                       (fields ++ [class_])
      else _create_fields register fs' module fields
  end%result.

Fixpoint _create_registers (rs : list _RegisterInfo) (module : namespace)
  : result namespace :=
  match rs with
  | [] => Ok module
  | register :: rs' =>
      mf <- _create_fields register (fields register) module [] ;;
      let python_register_name := "REG_" +:+ ri_name register in
      assert (negb (hasattr mf.1 python_register_name)) "" ;;;
      r <- _create_register_class python_register_name (address register)
             (min_size register) (max_size register) mf.2 ;;
      _create_registers rs' (setattr mf.1 python_register_name (RegisterAttr r))
  end%result.

(** Adds all the register and field subclasses and assigns them to variables
    in the module, e.g. PWR_UP, TX_FULL, REG_STATUS. *)
Definition _create_module_variables : result namespace :=
  _create_registers _REGISTERS (bind_names globals_before []).

(** The namespace of the imported module. *)
Definition nrf24_module : namespace :=
  Eval vm_compute in
    match _create_module_variables with
    | Ok module => bind_names globals_after module
    | _ => []
    end.

Definition module_fields : list field_class :=
  Eval vm_compute in
    rev (omap (fun na => match na.2 with FieldAttr c => Some c | _ => None end)
              nrf24_module).

Definition module_registers : list register_class :=
  Eval vm_compute in
    rev (omap (fun na => match na.2 with RegisterAttr c => Some c | _ => None end)
              nrf24_module).

(** [getattr(sys.modules[__name__], name)] *)
Definition getattr_module (name : string) : result attr :=
  match lookup_name name nrf24_module with
  | Some a => Ok a
  | None => Raise (AttributeError name)
  end.


(** ** Field instances: [_RegisterField] *)

Record _RegisterField : Type := {
  field_cls : field_class;
  f_value : option Z
}.

(** [assert cond, msg] where evaluating [msg] may itself raise *)
Definition assert_msg (b : bool) (msg : result string) : result unit :=
  if b then Ok tt else (m <- msg ;; Raise (AssertionError m))%result.

Definition get_max_value (cls : field_class) : Z :=
  Z.shiftl 1 (NUM_BITS cls) - 1.

Definition is_None {A} (o : option A) : bool :=
  match o with None => true | Some _ => false end.

(** [_RegisterField.__init__].  The message of the range assertion reads
    [self.field_name], an attribute no field class or instance has (the
    constant is [FIELD_NAME]), so formatting it raises [AttributeError]. *)
Definition _RegisterField__init__ (cls : field_class) (value : option Z)
  : result _RegisterField :=
  (assert (is_None value || char_in "W" (RW cls)) "Can't write to register" ;;;
   assert_msg (match value with
               | None => true
               | Some v => (0 <=? v) && (v <=? get_max_value cls)
               end)
              (Raise (AttributeError "field_name")) ;;;
   Ok {| field_cls := cls; f_value := value |})%result.

Definition get_unshifted_value (self : _RegisterField) : result Z :=
  match f_value self with
  | None => Raise TypeError
  | Some v =>
      let value := Z.shiftl v (START_BIT (field_cls self)) in
      (assert (Z.land value (_get_mask (field_cls self)) =? value) "mask" ;;;
       Ok value)%result
  end.

(** [_RegisterField.get(cls, x)] *)
Definition field_get (cls : field_class) (x : Z) : result Z :=
  (assert ((0 <=? x) && (x <=? 255)) "" ;;;
   Ok (Z.land (Z.shiftr x (START_BIT cls)) (_get_unshifted_mask cls)))%result.

(** ** Field sets: [_RegisterFieldSet] *)

Record _RegisterFieldSet : Type := { rfs_fields : list _RegisterField }.

Inductive field_or_fieldset : Type :=
  | AField (f : _RegisterField)
  | AFieldSet (s : _RegisterFieldSet).

Definition _RegisterFieldSet__init__ (field_or_fieldset : option field_or_fieldset)
  : _RegisterFieldSet :=
  match field_or_fieldset with
  | None => {| rfs_fields := [] |}
  | Some (AField f) => {| rfs_fields := [f] |}
  | Some (AFieldSet s) => {| rfs_fields := rfs_fields s |}
  end.

Definition get_register_address (self : _RegisterFieldSet) : result Z :=
  match rfs_fields self with
  | [] => Raise (AssertionError "")
  | f :: _ => Ok (REGISTER_ADDRESS (field_cls f))
  end.

Definition get_register_name (self : _RegisterFieldSet) : result string :=
  match rfs_fields self with
  | [] => Raise (AssertionError "")
  | f :: _ => Ok (REGISTER_NAME (field_cls f))
  end.

Fixpoint get_mask_loop (fs : list _RegisterField) (mask : Z) : result Z :=
  match fs with
  | [] => Ok mask
  | f :: fs' =>
      let m := _get_mask (field_cls f) in
      (assert (Z.land mask m =? 0) "" ;;;
       get_mask_loop fs' (Z.lor mask m))%result
  end.

Definition get_mask (self : _RegisterFieldSet) : result Z :=
  (mask <- get_mask_loop (rfs_fields self) 0 ;;
   assert ((0 <=? mask) && (mask <=? 0xFF)) "" ;;;
   Ok mask)%result.

Fixpoint get_value_loop (fs : list _RegisterField) (value : Z) : result Z :=
  match fs with
  | [] => Ok value
  | f :: fs' =>
      (v <- get_unshifted_value f ;;
       assert ((0 <=? value) && (value <=? 0xFF)) "" ;;;
       get_value_loop fs' (Z.lor value v))%result
  end.

Definition get_value (self : _RegisterFieldSet) : result Z :=
  (value <- get_value_loop (rfs_fields self) 0 ;;
   mask <- get_mask self ;;
   assert (Z.land value mask =? value) "" ;;;
   Ok value)%result.

Definition get_num_fields (self : _RegisterFieldSet) : Z :=
  Z.of_nat (length (rfs_fields self)).

(** [self |= other] for a single field.  The object is updated in place
    and returned; the embedding returns the updated set. *)
Definition ior_field (self : _RegisterFieldSet) (other : _RegisterField)
  : result _RegisterFieldSet :=
  (assert_msg
     (match rfs_fields self with
      | [] => true
      | f :: _ => REGISTER_ADDRESS (field_cls other) =? REGISTER_ADDRESS (field_cls f)
      end)
     (_ <- get_register_name self ;; Ok "are in different registers") ;;;
   assert (forallb (fun f => negb (String.eqb (FIELD_NAME (field_cls other))
                                            (FIELD_NAME (field_cls f))))
                   (rfs_fields self))
          "already included" ;;;
   Ok {| rfs_fields := rfs_fields self ++ [other] |})%result.

Fixpoint ior_fields (self : _RegisterFieldSet) (others : list _RegisterField)
  : result _RegisterFieldSet :=
  match others with
  | [] => Ok self
  | f :: others' => (self' <- ior_field self f ;; ior_fields self' others')%result
  end.

(** [_RegisterFieldSet.__ior__] *)
Definition __ior__ (self : _RegisterFieldSet) (other : field_or_fieldset)
  : result _RegisterFieldSet :=
  match other with
  | AField f => ior_field self f
  | AFieldSet s => ior_fields self (rfs_fields s)
  end.

(** [_RegisterFieldSet.__or__]: works on a copy *)
Definition __or__ (self : _RegisterFieldSet) (other : field_or_fieldset)
  : result _RegisterFieldSet :=
  __ior__ (_RegisterFieldSet__init__ (Some (AFieldSet self))) other.

(** [_RegisterField.__or__] *)
Definition field__or__ (self : _RegisterField) (other : field_or_fieldset)
  : result _RegisterFieldSet :=
  __or__ (_RegisterFieldSet__init__ (Some (AField self))) other.

(** ** Register instances: [_Register] *)

Inductive regvalue : Type :=
  | RInt (z : Z)
  | RList (l : list Z).

Record _Register : Type := {
  reg_cls : register_class;
  r_value : option regvalue
}.

Definition is_byte (v : Z) : bool := (0 <=? v) && (v <=? 255).

(** [_Register.__init__].  For a one-byte register and a list value the
    chained comparison reaches [int(value)], which raises [TypeError]. *)
Definition _Register__init__ (cls : register_class) (value : option regvalue)
  : result _Register :=
  let keep := Ok {| reg_cls := cls; r_value := value |} in
  match value with
  | None => keep
  | Some (RInt v) =>
      if (MIN_SIZE cls =? MAX_SIZE cls) && (MAX_SIZE cls =? 1) && is_byte v
      then keep
      else Raise (AssertionError "Invalid value for register")
  | Some (RList l) =>
      if (MIN_SIZE cls =? MAX_SIZE cls) && (MAX_SIZE cls =? 1)
      then Raise TypeError
      else if (1 <? MIN_SIZE cls)
              && (MIN_SIZE cls <=? Z.of_nat (length l))
              && (Z.of_nat (length l) <=? MAX_SIZE cls)
              && forallb is_byte l
      then keep
      else Raise (AssertionError "Invalid value for register")
  end.

(** ** Byte conversion and address checks *)

Inductive pyvalue : Type :=
  | VNone
  | VInt (z : Z)
  | VStr (s : string)
  | VList (l : list Z).

Definition of_regvalue (v : option regvalue) : pyvalue :=
  match v with
  | None => VNone
  | Some (RInt z) => VInt z
  | Some (RList l) => VList l
  end.

Definition _to_bytes (value : pyvalue) : result (list Z) :=
  match value with
  | VInt v =>
      (assert (is_byte v) "Value must be between 0 and 255 (inclusive)" ;;;
       Ok [v])%result
  | VStr s => Ok (map (fun c => Z.of_nat (nat_of_ascii c)) (list_ascii_of_string s))
  | VList l =>
      (assert (forallb is_byte l) "Value must contain integers between 0 and 255" ;;;
       Ok l)%result
  | VNone => Raise (AssertionError "Value must be an int, a string, or a list")
  end.

Definition _assert_valid_register_and_size (address size : Z) : result unit :=
  (assert ((0 <=? address) && (address <=? 0x1D)) "Invalid address" ;;;
   assert (negb ((0x18 <=? address) && (address <=? 0x1B)))
          "Address reserved for test purposes by Nordic Semiconductor" ;;;
   assert ((1 <=? size) && (size <=? 5)) "size must be bewteen 1 and 5" ;;;
   let is_multibyte_register :=
     ((0x0A <=? address) && (address <=? 0x0B)) || (address =? 0x10) in
   assert ((is_multibyte_register && (3 <=? size) && (size <=? 5))
           || (negb is_multibyte_register && (size =? 1))) "")%result.

(** [len(value)] for the payload and register values *)
Definition py_len (value : pyvalue) : result Z :=
  match value with
  | VStr s => Ok (Z.of_nat (String.length s))
  | VList l => Ok (Z.of_nat (length l))
  | _ => Raise TypeError
  end.

(** ** The collaborators of the driver *)

(** The SPI object: [xfer2] sends a list of bytes and returns the bytes
    clocked in meanwhile, or raises. *)
Class Spi (S : Type) : Type :=
  xfer2 : S -> list Z -> S * result (list Z).

(** The order in which the interpreter iterates over the keys of a [set] or
    a [dict]; the language leaves it open. *)
Class IterOrder : Type := {
  iter_order : list Z -> list Z;
  iter_order_perm : forall l, iter_order l ≡ₚ l
}.

(** What the driver does to its collaborators, oldest first. *)
Inductive event : Type :=
  | Ev_chip_enable_high
  | Ev_chip_enable_low
  | Ev_set_falling_edge_irq
  | Ev_remove_falling_edge_irq
  | Ev_xfer2 (sent : list Z) (reply : result (list Z)).

(** The condition variable is known by a number. *)
Record _WaitInfo : Type := {
  condition_variable : nat;
  already_finished : bool;
  cancelled : bool
}.

Definition _WaitInfo__init__ (cv : nat) : _WaitInfo :=
  {| condition_variable := cv;
     already_finished := false;
     cancelled := false |}.

(** An argument of [get]: a register class or a field class. *)
Inductive request : Type :=
  | ReqRegister (r : register_class)
  | ReqField (f : field_class).

(** What [get] returns: an int or a tuple of ints. *)
Inductive pyresult : Type :=
  | PyInt (z : Z)
  | PyTuple (l : list Z).

(** An argument of [set]: a register, a field or a field set instance. *)
Inductive item : Type :=
  | IRegister (r : _Register)
  | IField (f : _RegisterField)
  | IFieldSet (s : _RegisterFieldSet).

(** The module variables used by name below. *)
Definition the_register (name : string) : register_class :=
  match lookup_name name nrf24_module with
  | Some (RegisterAttr c) => c
  | _ => {| NAME := ""; ADDRESS := 0; MIN_SIZE := 0; MAX_SIZE := 0; FIELDS := [] |}
  end.

Definition the_field (name : string) : field_class :=
  match lookup_name name nrf24_module with
  | Some (FieldAttr c) => c
  | _ => {| REGISTER_NAME := ""; REGISTER_ADDRESS := 0; FIELD_NAME := "";
            START_BIT := 0; NUM_BITS := 0; RESET_VALUE := 0; RW := "" |}
  end.

Definition REG_CONFIG : register_class := Eval vm_compute in the_register "REG_CONFIG".
Definition REG_RF_CH : register_class := Eval vm_compute in the_register "REG_RF_CH".
Definition REG_STATUS : register_class := Eval vm_compute in the_register "REG_STATUS".
Definition REG_RX_ADDR_P0 : register_class := Eval vm_compute in the_register "REG_RX_ADDR_P0".
Definition REG_RX_ADDR_P1 : register_class := Eval vm_compute in the_register "REG_RX_ADDR_P1".
Definition REG_RX_ADDR_P2 : register_class := Eval vm_compute in the_register "REG_RX_ADDR_P2".
Definition REG_RX_ADDR_P3 : register_class := Eval vm_compute in the_register "REG_RX_ADDR_P3".
Definition REG_RX_ADDR_P4 : register_class := Eval vm_compute in the_register "REG_RX_ADDR_P4".
Definition REG_RX_ADDR_P5 : register_class := Eval vm_compute in the_register "REG_RX_ADDR_P5".
Definition REG_TX_ADDR : register_class := Eval vm_compute in the_register "REG_TX_ADDR".

Definition MASK_RX_DR : field_class := Eval vm_compute in the_field "MASK_RX_DR".
Definition MASK_TX_DS : field_class := Eval vm_compute in the_field "MASK_TX_DS".
Definition MASK_MAX_RT : field_class := Eval vm_compute in the_field "MASK_MAX_RT".
Definition PWR_UP : field_class := Eval vm_compute in the_field "PWR_UP".
Definition PRIM_RX : field_class := Eval vm_compute in the_field "PRIM_RX".
Definition EN_CRC : field_class := Eval vm_compute in the_field "EN_CRC".
Definition AW : field_class := Eval vm_compute in the_field "AW".
Definition RF_CH : field_class := Eval vm_compute in the_field "RF_CH".
Definition RX_DR : field_class := Eval vm_compute in the_field "RX_DR".
Definition TX_DS : field_class := Eval vm_compute in the_field "TX_DS".
Definition MAX_RT : field_class := Eval vm_compute in the_field "MAX_RT".
Definition RX_P_NO : field_class := Eval vm_compute in the_field "RX_P_NO".
Definition TX_FULL : field_class := Eval vm_compute in the_field "TX_FULL".
Definition RX_EMPTY : field_class := Eval vm_compute in the_field "RX_EMPTY".

(** ** The device: [NRF24Device] *)

Declare Scope dev_scope.
Delimit Scope dev_scope with dev.

Section NRF24Device.

Context {S : Type} {spi : Spi S} {order : IterOrder}.

(** The object together with what it shares with its collaborators: the
    state behind the SPI object, the callback held by the gpio object, the
    [_WaitInfo] objects (referred to by position, since the waiting thread
    and [cancel_wait_for_irq] share one), the clock and the log. *)
Record device : Type := Device {
  _spi : S;
  _wait_info_cancellable : option nat;
  wait_infos : list _WaitInfo;
  irq_callback : option nat;
  clock : Z;
  log : list event
}.

(** A method: it changes the device and returns, raises or blocks. *)
Definition M (A : Type) : Type := device -> device * result A.

Definition ret {A} (a : A) : M A := fun d => (d, Ok a).
Definition raise {A} (e : exn) : M A := fun d => (d, Raise e).
Definition lift {A} (r : result A) : M A := fun d => (d, r).

Definition bind {A B} (m : M A) (k : A -> M B) : M B := fun d =>
  match m d with
  | (d', Ok a) => k a d'
  | (d', Raise e) => (d', Raise e)
  | (d', Blocked) => (d', Blocked)
  end.

(** [try: body finally: cleanup] *)
Definition try_finally {A} (body : M A) (cleanup : M unit) : M A := fun d =>
  match body d with
  | (d', Blocked) => (d', Blocked)
  | (d', r) =>
      match cleanup d' with
      | (d'', Ok _) => (d'', r)
      | (d'', Raise e) => (d'', Raise e)
      | (d'', Blocked) => (d'', Blocked)
      end
  end.

Notation "x <- m ;; k" := (bind m (fun x => k))
  (at level 100, m at level 99, k at level 200, right associativity) : dev_scope.
Notation "m ;;; k" := (bind m (fun _ => k))
  (at level 100, k at level 200, right associativity) : dev_scope.

Definition emit (e : event) : M unit := fun d =>
  (Device (_spi d) (_wait_info_cancellable d) (wait_infos d) (irq_callback d)
          (clock d) (log d ++ [e]), Ok tt).

(** [self._spi.xfer2(msg)] *)
Definition spi_xfer2 (msg : list Z) : M (list Z) := fun d =>
  let sr := xfer2 (_spi d) msg in
  (Device sr.1 (_wait_info_cancellable d) (wait_infos d) (irq_callback d)
          (clock d) (log d ++ [Ev_xfer2 msg sr.2]), sr.2).

(** [l[i]] *)
Definition index (l : list Z) (i : nat) : result Z :=
  match l !! i with
  | Some x => Ok x
  | None => Raise IndexError
  end.

Definition chip_enable_high : M unit := emit Ev_chip_enable_high.
Definition chip_enable_low : M unit := emit Ev_chip_enable_low.

(** Clear the TX FIFO and return the STATUS register. *)
Definition flush_tx_fifo : M Z :=
  (status <- spi_xfer2 [0xE1] ;;        (* 0b11100001 *)
   lift (index status 0))%dev.

(** Clear the RX FIFO and return the STATUS register. *)
Definition flush_rx_fifo : M Z :=
  (status <- spi_xfer2 [0xE2] ;;        (* 0b11100010 *)
   lift (index status 0))%dev.

Definition _write_payload (command : Z) (data : pyvalue) : M Z :=
  (n <- lift (py_len data) ;;
   lift (assert ((1 <=? n) && (n <=? 32)) "Invalid length of payload") ;;;
   bytes <- lift (_to_bytes data) ;;
   status_and_junk <- spi_xfer2 (command :: bytes) ;;
   lift (index status_and_junk 0))%dev.

Definition write_tx_payload (data : pyvalue) : M Z :=
  _write_payload 0xA0 data.             (* 0b10100000 *)

Definition write_ack_payload (pipe : Z) (data : pyvalue) : M Z :=
  (lift (assert ((0 <=? pipe) && (pipe <=? 5)) "Invalid pipe") ;;;
   _write_payload (Z.lor 0xA8 pipe) data)%dev.   (* 0b10101000 | pipe *)

Definition write_tx_payload_no_ack (data : pyvalue) : M Z :=
  _write_payload 0xB0 data.             (* 0b10110000 *)

(** Returns STATUS register and [num_bytes] of data. *)
Definition read_rx_payload (num_bytes : Z) : M (Z * list Z) :=
  (lift (assert ((1 <=? num_bytes) && (num_bytes <=? 32)) "Invalid num_bytes") ;;;
   data <- spi_xfer2 (0x61 :: repeat 0 (Z.to_nat num_bytes)) ;;   (* 0b01100001 *)
   status <- lift (index data 0) ;;
   ret (status, tail data))%dev.

(** Loading the global name [name] inside a method of the module: the
    module namespace, then the builtins, which have no such name. *)
Definition load_global (name : string) : M attr :=
  match lookup_name name nrf24_module with
  | Some a => ret a
  | None => raise (NameError name)
  end.

(** [a.xfer2(msg)] for a module-level object [a]: none has that attribute. *)
Definition attr_xfer2 (a : attr) (msg : list Z) : M (list Z) :=
  raise (AttributeError "xfer2").

(** [get_rx_payload_size] and [reuse_tx_payload] call [spi.xfer2], not
    [self._spi.xfer2]. *)
Definition get_rx_payload_size : M (Z * Z) :=
  (spi <- load_global "spi" ;;
   data <- attr_xfer2 spi [0x60; _SPI_NOP] ;;      (* 0b01100000 *)
   status <- lift (index data 0) ;;
   size <- lift (index data 1) ;;
   ret (status, size))%dev.

Definition reuse_tx_payload : M Z :=
  (spi <- load_global "spi" ;;
   status_in_list <- attr_xfer2 spi [0xE3] ;;      (* 0b11100011 *)
   lift (index status_in_list 0))%dev.

(** *** Reading: [get] *)

Definition is_one_byte (r : register_class) : bool :=
  (MIN_SIZE r =? MAX_SIZE r) && (MAX_SIZE r =? 1).

Fixpoint get_needed (rs : list request) (need_to_fetch_registers : gset Z)
  : result (gset Z) :=
  match rs with
  | [] => Ok need_to_fetch_registers
  | ReqRegister r :: rs' =>
      (assert (is_one_byte r) "Use get_register() to read variable size registers" ;;;
       get_needed rs' ({[ADDRESS r]} ∪ need_to_fetch_registers))%result
  | ReqField r :: rs' =>
      get_needed rs' ({[REGISTER_ADDRESS r]} ∪ need_to_fetch_registers)
  end.

Definition set_iter (X : gset Z) : list Z := iter_order (elements X).

Fixpoint get_fetch (addresses : list Z) (values : gmap Z Z) : M (gmap Z Z) :=
  match addresses with
  | [] => ret values
  | address :: addresses' =>
      (data <- spi_xfer2 [address; _SPI_NOP] ;;
       match data with
       | [status; register_value] =>
           get_fetch addresses'
             (<[address := register_value]> (<[ADDRESS REG_STATUS := status]> values))
       | _ => raise ValueError
       end)%dev
  end.

Definition dict_get {A} (values : gmap Z A) (key : Z) : result A :=
  match values !! key with
  | Some v => Ok v
  | None => Raise KeyError
  end.

Definition get_one (values : gmap Z Z) (r : request) : result Z :=
  match r with
  | ReqRegister r => dict_get values (ADDRESS r)
  | ReqField r => (x <- dict_get values (REGISTER_ADDRESS r) ;; field_get r x)%result
  end.

Fixpoint get_project (rs : list request) (values : gmap Z Z) : result (list Z) :=
  match rs with
  | [] => Ok []
  | r :: rs' =>
      (x <- get_one values r ;;
       result <- get_project rs' values ;;
       Ok (x :: result))%result
  end.

(** [result[0]] if [len(result) == 1], else [tuple(result)] *)
Definition scalar_or_tuple (result : list Z) : pyresult :=
  match result with
  | [x] => PyInt x
  | _ => PyTuple result
  end.

(** Get register fields and 1 byte registers. *)
Definition get (fields_or_registers : list request) : M pyresult :=
  (need <- lift (get_needed fields_or_registers {[ADDRESS REG_STATUS]}) ;;
   let need_to_fetch_registers :=
     if bool_decide (need ≠ {[ADDRESS REG_STATUS]})
     then need ∖ {[ADDRESS REG_STATUS]}      (* fetched implicitly *)
     else need in
   values <- get_fetch (set_iter need_to_fetch_registers) ∅ ;;
   result <- lift (get_project fields_or_registers values) ;;
   ret (scalar_or_tuple result))%dev.

Definition get_register (address size : Z) : M (Z * regvalue) :=
  (lift (_assert_valid_register_and_size address size) ;;;
   if negb (address =? ADDRESS REG_STATUS) then
     data <- spi_xfer2 (address :: repeat _SPI_NOP (Z.to_nat size)) ;;
     status <- lift (index data 0) ;;
     if size =? 1 then
       v <- lift (index data 1) ;; ret (status, RInt v)
     else ret (status, RList (tail data))
   else
     data <- spi_xfer2 [_SPI_NOP] ;;
     status <- lift (index data 0) ;;
     ret (status, RInt status))%dev.

(** *** Writing: [set] *)

(** Set register at a specified address to value. Return STATUS register. *)
Definition _set_register (address : Z) (value : pyvalue) : M Z :=
  (size <- lift (match value with VList l => Ok (Z.of_nat (length l)) | _ => Ok 1 end) ;;
   lift (_assert_valid_register_and_size address size) ;;;
   bytes <- lift (_to_bytes value) ;;
   data <- spi_xfer2 (Z.lor 0x20 address :: bytes) ;;   (* 0b00100000 | address *)
   lift (index data 0))%dev.

Fixpoint _set_registers_loop (registers : list _Register) (status : option Z)
  : M (option Z) :=
  match registers with
  | [] => ret status
  | r :: registers' =>
      (status' <- _set_register (ADDRESS (reg_cls r)) (of_regvalue (r_value r)) ;;
       _set_registers_loop registers' (Some status'))%dev
  end.

(** Write to registers. Return STATUS register if at least one was given. *)
Definition _set_registers (registers : list _Register) : M (option Z) :=
  (lift (assert (bool_decide
                   (size (list_to_set (map (fun r => ADDRESS (reg_cls r)) registers)
                          : gset Z)
                    = length registers))
                "One or more registers included multiple times") ;;;
   _set_registers_loop registers None)%dev.

(** The body of the loop of [_set_fields]. *)
Definition _set_fields_step (rfs : field_or_fieldset) : M Z :=
  (let r := match rfs with
            | AFieldSet s => s
            | AField f => _RegisterFieldSet__init__ (Some (AField f))
            end in
   register_address <- lift (get_register_address r) ;;
   mask <- lift (get_mask r) ;;
   value_to_write <- lift (get_value r) ;;
   value_to_write' <-
     (if negb (mask =? 0xFF) then
        so <- get_register register_address 1 ;;
        match so.2 with
        | RInt old_value => ret (Z.lor value_to_write (Z.land old_value (Z.lnot mask)))
        | RList _ => raise TypeError
        end
      else ret value_to_write) ;;
   _set_register register_address (VInt value_to_write'))%dev.

Fixpoint _set_fields_loop (register_fields : list field_or_fieldset) (status : option Z)
  : M (option Z) :=
  match register_fields with
  | [] => ret status
  | rfs :: register_fields' =>
      (status' <- _set_fields_step rfs ;;
       _set_fields_loop register_fields' (Some status'))%dev
  end.

(** Set register fields and return STATUS if at least one was given. *)
Definition _set_fields (register_fields : list field_or_fieldset) : M (option Z) :=
  _set_fields_loop register_fields None.

(** [d.values()] *)
Definition dict_values {A} (d : gmap Z A) : list A :=
  omap (fun k => d !! k) (iter_order (elements (dom d))).

(** First loop of [set]: the whole-register writes, keyed by address. *)
Fixpoint set_registers_dict (items : list item) (registers : gmap Z _Register)
  : result (gmap Z _Register) :=
  match items with
  | [] => Ok registers
  | IRegister r :: items' =>
      (assert (is_None (registers !! ADDRESS (reg_cls r))) "Register specified twice" ;;;
       set_registers_dict items' (<[ADDRESS (reg_cls r) := r]> registers))%result
  | _ :: items' => set_registers_dict items' registers
  end.

Definition first_field (s : _RegisterFieldSet) : result _RegisterField :=
  match rfs_fields s with
  | f :: _ => Ok f
  | [] => Raise IndexError
  end.

(** One round of the second loop of [set], for the item [r] whose (first)
    field is [register_field]. *)
Definition set_merge (r : field_or_fieldset) (register_field : _RegisterField)
    (registers : gmap Z _Register) (register_field_sets : gmap Z _RegisterFieldSet)
  : result (gmap Z _RegisterFieldSet) :=
  (let a := REGISTER_ADDRESS (field_cls register_field) in
   assert (is_None (registers !! a))
          "Register and RegisterField can't be written simultaneously" ;;;
   (* register_field_sets.setdefault(a, _RegisterFieldSet()) *)
   let rfs := default (_RegisterFieldSet__init__ None) (register_field_sets !! a) in
   rfs' <- __ior__ rfs r ;;
   Ok (<[a := rfs']> register_field_sets))%result.

(** Second loop of [set]: the field writes, merged per register address. *)
Fixpoint set_field_sets_dict (items : list item) (registers : gmap Z _Register)
    (register_field_sets : gmap Z _RegisterFieldSet)
  : result (gmap Z _RegisterFieldSet) :=
  match items with
  | [] => Ok register_field_sets
  | IRegister _ :: items' => set_field_sets_dict items' registers register_field_sets
  | IField f :: items' =>
      (sets' <- set_merge (AField f) f registers register_field_sets ;;
       set_field_sets_dict items' registers sets')%result
  | IFieldSet s :: items' =>
      (register_field <- first_field s ;;
       sets' <- set_merge (AFieldSet s) register_field registers register_field_sets ;;
       set_field_sets_dict items' registers sets')%result
  end.

(** Set register(s) and/or field(s) to specified values. Return the
    contents of the STATUS register. *)
Definition set (registers_and_register_fields : list item) : M (option Z) :=
  (lift (assert (1 <=? Z.of_nat (length registers_and_register_fields)) "") ;;;
   registers <- lift (set_registers_dict registers_and_register_fields ∅) ;;
   register_field_sets <-
     lift (set_field_sets_dict registers_and_register_fields registers ∅) ;;
   maybe_status_1 <- _set_registers (dict_values registers) ;;
   maybe_status_2 <- _set_fields (map AFieldSet (dict_values register_field_sets)) ;;
   match maybe_status_2 with
   | Some _ => ret maybe_status_2
   | None => ret maybe_status_1
   end)%dev.

(** *** Reset: [reset_to_default] *)

(** [cls(value)] for the module attribute [a] *)
Definition call_attr (a : attr) (value : Z) : result _RegisterField :=
  match a with
  | FieldAttr cls => _RegisterField__init__ cls (Some value)
  | _ => Raise TypeError
  end.

Fixpoint reset_fields (fs : list _RegisterFieldInfo) (rfs : _RegisterFieldSet)
  : result _RegisterFieldSet :=
  match fs with
  | [] => Ok rfs
  | f :: fs' =>
      if char_in "W" (rw f)
         && negb (bool_decide (fi_name f ∈ ["Reserved"; "Obsolete"]))
      then
        (cls <- getattr_module (fi_name f) ;;
         fv <- call_attr cls (reset_value f) ;;
         rfs' <- __ior__ rfs (AField fv) ;;
         reset_fields fs' rfs')%result
      else reset_fields fs' rfs
  end.

Fixpoint reset_registers (rs : list _RegisterInfo) : M unit :=
  match rs with
  | [] => ret tt
  | r :: rs' =>
      (rfs <- lift (reset_fields (fields r) (_RegisterFieldSet__init__ None)) ;;
       (if negb (get_num_fields rfs =? 0) then
          _ <- set [IFieldSet rfs] ;; ret tt
        else ret tt) ;;;
       reset_registers rs')%dev
  end.

Definition set_register_value (cls : register_class) (value : regvalue) : M unit :=
  (r <- lift (_Register__init__ cls (Some value)) ;;
   _ <- set [IRegister r] ;;
   ret tt)%dev.

(** Set CE to low, flush all FIFOs and reset all registers to their reset
    values. *)
Definition reset_to_default : M unit :=
  (chip_enable_low ;;;
   flush_tx_fifo ;;;
   flush_rx_fifo ;;;
   reset_registers _REGISTERS ;;;
   (* These have a reset value of 0 but are reset by writing 1 to them. *)
   rx_dr <- lift (_RegisterField__init__ RX_DR (Some 1)) ;;
   tx_ds <- lift (_RegisterField__init__ TX_DS (Some 1)) ;;
   s1 <- lift (field__or__ rx_dr (AField tx_ds)) ;;
   max_rt <- lift (_RegisterField__init__ MAX_RT (Some 1)) ;;
   s2 <- lift (__or__ s1 (AField max_rt)) ;;
   set [IFieldSet s2] ;;;
   set_register_value REG_RX_ADDR_P0 (RList [0xE7; 0xE7; 0xE7; 0xE7; 0xE7]) ;;;
   set_register_value REG_RX_ADDR_P1 (RList [0xC2; 0xC2; 0xC2; 0xC2; 0xC2]) ;;;
   set_register_value REG_RX_ADDR_P2 (RInt 0xC3) ;;;
   set_register_value REG_RX_ADDR_P3 (RInt 0xC4) ;;;
   set_register_value REG_RX_ADDR_P4 (RInt 0xC5) ;;;
   set_register_value REG_RX_ADDR_P5 (RInt 0xC6) ;;;
   set_register_value REG_TX_ADDR (RList [0xE7; 0xE7; 0xE7; 0xE7; 0xE7]))%dev.

(** *** Waiting for the interrupt line *)

Definition get_wait_info (wait_info : nat) : M _WaitInfo := fun d =>
  match wait_infos d !! wait_info with
  | Some w => (d, Ok w)
  | None => (d, Raise (AttributeError "condition_variable"))
  end.

Definition update_wait_info (wait_info : nat) (f : _WaitInfo -> _WaitInfo) : M unit :=
  fun d =>
    (Device (_spi d) (_wait_info_cancellable d)
            (alter f wait_info (wait_infos d)) (irq_callback d) (clock d) (log d),
     Ok tt).

(** [_WaitInfo(condition_variable)]: a new object *)
Definition new_wait_info (cv : nat) : M nat := fun d =>
  (Device (_spi d) (_wait_info_cancellable d)
          (wait_infos d ++ [_WaitInfo__init__ cv])
          (irq_callback d) (clock d) (log d),
   Ok (length (wait_infos d))).

Definition set__wait_info_cancellable (w : option nat) : M unit := fun d =>
  (Device (_spi d) w (wait_infos d) (irq_callback d) (clock d) (log d), Ok tt).

Definition set_falling_edge_irq (wait_info : nat) : M unit := fun d =>
  (Device (_spi d) (_wait_info_cancellable d) (wait_infos d) (Some wait_info)
          (clock d) (log d ++ [Ev_set_falling_edge_irq]), Ok tt).

Definition remove_falling_edge_irq : M unit := fun d =>
  (Device (_spi d) (_wait_info_cancellable d) (wait_infos d) None
          (clock d) (log d ++ [Ev_remove_falling_edge_irq]), Ok tt).

(** [time.time()] *)
Definition time_time : M Z := fun d => (d, Ok (clock d)).

(** Call this to wake up the thread inside [wait_for_irq_low_cancellable]. *)
Definition cancel_wait_for_irq (cv : nat) : M unit :=
  fun d =>
    match _wait_info_cancellable d with
    | None => (d, Raise CancelFailedException)
    | Some w =>
        (wi <- get_wait_info w ;;
         lift (assert (bool_decide (cv = condition_variable wi)) "") ;;;
         update_wait_info w (fun wi =>
           {| condition_variable := condition_variable wi;
              already_finished := already_finished wi;
              cancelled := true |}))%dev d
    end.

(** What happens while the waiting thread sleeps in
    [condition_variable.wait], until it wakes up again: time passes, the
    chip changes state, another thread may call [cancel_wait_for_irq]. *)
Record wake : Type := {
  w_elapsed : Z;
  w_chip : S -> S;
  w_cancel : option nat
}.

Definition sleep (w : wake) : M unit := fun d =>
  let d1 := Device (w_chip w (_spi d)) (_wait_info_cancellable d) (wait_infos d)
                   (irq_callback d) (clock d + w_elapsed w) (log d) in
  match w_cancel w with
  | Some cv => ((cancel_wait_for_irq cv d1).1, Ok tt)
  | None => (d1, Ok tt)
  end.

Definition truthy (x : Z) : bool := negb (x =? 0).

(** One round of the [while True] loop up to the test; [true] means
    [break]. *)
Definition poll (wait_info : nat) (timeout : option Z) (start_time : Z) : M (bool * Z) :=
  (r <- get [ReqField MASK_RX_DR; ReqField MASK_TX_DS; ReqField MASK_MAX_RT;
             ReqField RX_DR; ReqField TX_DS; ReqField MAX_RT] ;;
   match r with
   | PyTuple [mask_rx_dr; mask_tx_ds; mask_max_rt; rx_dr; tx_ds; max_rt] =>
       now <- time_time ;;
       let elapsed_time := now - start_time in
       wi <- get_wait_info wait_info ;;
       ret ((truthy rx_dr && negb (truthy mask_rx_dr))
            || (truthy tx_ds && negb (truthy mask_tx_ds))
            || (truthy max_rt && negb (truthy mask_max_rt))
            || match timeout with
               | Some t => t <=? elapsed_time
               | None => false
               end
            || cancelled wi,
            elapsed_time)
   | _ => raise ValueError
   end)%dev.

(** The loop, one [wake] of the script per sleep.  When the script is
    used up nobody wakes the thread: without a timeout it sleeps for
    ever, with one it sleeps the remaining time and polls again. *)
Fixpoint wait_loop (wait_info : nat) (timeout : option Z) (start_time : Z)
    (script : list wake) : M unit :=
  (be <- poll wait_info timeout start_time ;;
   if be.1 then ret tt
   else match script with
        | w :: script' =>
            sleep w ;;; wait_loop wait_info timeout start_time script'
        | [] =>
            match timeout with
            | None => fun d => (d, Blocked)
            | Some t =>
                sleep {| w_elapsed := t - be.2; w_chip := fun s => s; w_cancel := None |} ;;;
                be' <- poll wait_info timeout start_time ;;
                if be'.1 then ret tt else fun d => (d, Blocked)
            end
        end)%dev.

Definition _internal_wait_for_irq_low (wait_info : nat) (timeout : option Z)
    (script : list wake) : M unit :=
  (start_time <- time_time ;;
   set_falling_edge_irq wait_info ;;;
   try_finally
     (wait_loop wait_info timeout start_time script)
     (update_wait_info wait_info (fun wi =>
        {| condition_variable := condition_variable wi;
           already_finished := true;
           cancelled := cancelled wi |}) ;;;
      remove_falling_edge_irq))%dev.

(** Wait until the IRQ gets low or until [timeout] has passed; not
    cancellable.  [fresh] is the new [threading.Condition()]. *)
Definition wait_for_irq_low (fresh : nat) (timeout : option Z) (script : list wake)
  : M unit :=
  (d0 <- (fun d => (d, Ok d)) ;;
   lift (assert (is_None (_wait_info_cancellable d0)) "") ;;;
   wait_info <- new_wait_info fresh ;;
   _internal_wait_for_irq_low wait_info timeout script)%dev.

(** Wait until the IRQ gets low or until [timeout] has passed; can be
    cancelled from another thread with [cancel_wait_for_irq]. *)
Definition wait_for_irq_low_cancellable (cv : nat)
    (timeout : option Z) (script : list wake) : M unit :=
  (d0 <- (fun d => (d, Ok d)) ;;
   lift (assert (is_None (_wait_info_cancellable d0)) "") ;;;
   wait_info <- new_wait_info cv ;;
   set__wait_info_cancellable (Some wait_info) ;;;
   _internal_wait_for_irq_low wait_info timeout script ;;;
   set__wait_info_cancellable None)%dev.

End NRF24Device.

Arguments device S : clear implicits.
Arguments M S A : clear implicits.

Notation "x <- m ;; k" := (bind m (fun x => k))
  (at level 100, m at level 99, k at level 200, right associativity) : dev_scope.
Notation "m ;;; k" := (bind m (fun _ => k))
  (at level 100, k at level 200, right associativity) : dev_scope.

(** ** A simulated chip

    A stand-in for the SPI object, used to run the driver on concrete
    inputs: single-byte registers only, R_REGISTER answers with STATUS and
    the register, W_REGISTER stores the byte, every other command answers
    with STATUS and zeros. *)

Definition sim_reg (s : gmap Z Z) (a : Z) : Z := default 0 (s !! a) mod 256.

Definition sim_xfer2 (s : gmap Z Z) (msg : list Z) : gmap Z Z * result (list Z) :=
  match msg with
  | [] => (s, Ok [])
  | cmd :: payload =>
      if (0 <=? cmd) && (cmd <? 0x20) then
        (s, Ok (sim_reg s 7 :: map (fun _ => sim_reg s cmd) payload))
      else if (0x20 <=? cmd) && (cmd <? 0x40) then
        (match payload with
         | [v] => <[cmd - 0x20 := v]> s
         | _ => s
         end, Ok (sim_reg s 7 :: map (fun _ => 0) payload))
      else (s, Ok (sim_reg s 7 :: map (fun _ => 0) payload))
  end.

#[global] Instance sim_spi : Spi (gmap Z Z) := sim_xfer2.

(** A transport that raises on every exchange. *)
Definition broken_spi : Spi unit := fun s _ => (s, Raise IOError).

(** Two iteration orders: as given, and reversed. *)
#[global] Program Instance given_order : IterOrder := {| iter_order := fun l => l |}.
Next Obligation. reflexivity. Qed.

Program Definition reverse_order : IterOrder := {| iter_order := @rev Z |}.
Next Obligation. intros l. symmetry. apply Permutation_rev. Qed.

Definition new_device {S} (s : S) : device S :=
  {| _spi := s; _wait_info_cancellable := None; wait_infos := [];
     irq_callback := None; clock := 0; log := [] |}.

(** ** Vocabulary of the properties *)

(** *** Requests and transports *)

(** The register a request reads. *)
Definition req_address (r : request) : Z :=
  match r with
  | ReqRegister c => ADDRESS c
  | ReqField f => REGISTER_ADDRESS f
  end.

(** The request passes the size assertion of [get]. *)
Definition req_ok (r : request) : bool :=
  match r with
  | ReqRegister c => is_one_byte c
  | ReqField _ => true
  end.

(** The messages handed to the transport, oldest first. *)
Definition transactions (l : list event) : list (list Z) :=
  omap (fun e => match e with Ev_xfer2 sent _ => Some sent | _ => None end) l.

(** The contract of the transport: an exchange answers with as many
    bytes as it was given. *)
Definition well_behaved {S : Type} {spi : Spi S} : Prop :=
  forall (s : S) (msg : list Z), exists s' reply,
    xfer2 s msg = (s', Ok reply)
    /\ length reply = length msg
    /\ Forall (fun b => 0 <= b <= 255) reply.

(** The registers [get] reads for the requests [rs]. *)
Definition fetched (rs : list request) : gset Z :=
  let need : gset Z := list_to_set (map req_address rs) ∪ {[ADDRESS REG_STATUS]} in
  if bool_decide (need ≠ {[ADDRESS REG_STATUS]})
  then need ∖ {[ADDRESS REG_STATUS]} else need.

(** STATUS is the only register the requests touch. *)
Definition only_status (rs : list request) : Prop :=
  forall r, r ∈ rs -> req_address r = ADDRESS REG_STATUS.

(** Byte 0 of the reply of an exchange. *)
Definition reply_byte0 (e : event) : option Z :=
  match e with
  | Ev_xfer2 _ (Ok (st :: _)) => Some st
  | _ => None
  end.

(** The event is a read of register [a] answered by two bytes. *)
Definition is_read_of (a : Z) (e : event) : Prop :=
  exists st rv, e = Ev_xfer2 [a; _SPI_NOP] (Ok [st; rv]).

(** The contract of the chip for R_REGISTER: the reply is STATUS followed
    by the register, and reading changes no register. *)
Definition read_contract {S : Type} {spi : Spi S} (regs : S -> Z -> Z) : Prop :=
  (forall (s : S) (a : Z), 0 <= a < 0x20 ->
     exists s', xfer2 s [a; _SPI_NOP]
                = (s', Ok [regs s (ADDRESS REG_STATUS); regs s a])
                /\ forall b, regs s' b = regs s b)
  /\ forall (s : S) (a : Z), 0 <= regs s a <= 255.

(** What a request yields for the register contents [mem]. *)
Definition project (mem : Z -> Z) (r : request) : Z :=
  match r with
  | ReqRegister c => mem (ADDRESS c)
  | ReqField f =>
      Z.land (Z.shiftr (mem (REGISTER_ADDRESS f)) (START_BIT f))
             (Z.shiftl 1 (NUM_BITS f) - 1)
  end.

(** The request names a class of the module. *)
Definition in_module (r : request) : Prop :=
  match r with
  | ReqRegister c => c ∈ module_registers
  | ReqField f => f ∈ module_fields
  end.

(** *** Bytes and masks *)

(** [x] has no bit outside [m]. *)
Definition within (x m : Z) : Prop := Z.land x m = x.

(** The equation [H] read at bit [i]. *)
Ltac bit_of H i :=
  let Hi := fresh "Hbit" in
  pose proof (f_equal (fun z => Z.testbit z i) H) as Hi;
  cbn beta in Hi; rewrite ?Z.land_spec, ?Z.lor_spec in Hi.

(** Closes a goal on the bits of variables by cases. *)
Ltac by_bits :=
  repeat match goal with
         | |- context [Z.testbit ?x ?i] =>
             is_var x; destruct (Z.testbit x i)
         end;
  cbn in *; congruence.

(** *** Field values and field sets *)

Definition is_Ok {A} (r : result A) : bool :=
  match r with Ok _ => true | _ => false end.

(** What the table guarantees for each field class of the module. *)
Definition class_checks (c : field_class) : bool :=
  (0 <=? START_BIT c) && (1 <=? NUM_BITS c) && (START_BIT c + NUM_BITS c <=? 8)
  && (Z.land (_get_mask c) 0xFF =? _get_mask c)
  && is_Ok (_assert_valid_register_and_size (REGISTER_ADDRESS c) 1).

(** Two classes of one register either are the same field or share no bit. *)
Definition pair_checks (c1 c2 : field_class) : bool :=
  negb (REGISTER_ADDRESS c1 =? REGISTER_ADDRESS c2)
  || String.eqb (FIELD_NAME c1) (FIELD_NAME c2)
  || (Z.land (_get_mask c1) (_get_mask c2) =? 0).

(** A field value: an instance of a class of the module, constructed with
    a value. *)
Definition is_field_value (f : _RegisterField) : Prop :=
  field_cls f ∈ module_fields
  /\ exists v, _RegisterField__init__ (field_cls f) (Some v) = Ok f.

(** The value of a field at its place in the register. *)
Definition shifted (f : _RegisterField) : Z :=
  Z.shiftl (default 0 (f_value f)) (START_BIT (field_cls f)).

(** The combined mask and the combined value of a list of fields. *)
Definition mask_union (l : list _RegisterField) : Z :=
  foldr (fun f m => Z.lor (_get_mask (field_cls f)) m) 0 l.

Definition value_union (l : list _RegisterField) : Z :=
  foldr (fun f x => Z.lor (shifted f) x) 0 l.

(** The invariant of a field set: field values of one register with
    different names. *)
Definition fs_inv (l : list _RegisterField) : Prop :=
  Forall is_field_value l
  /\ (forall f g, f ∈ l -> g ∈ l ->
        REGISTER_ADDRESS (field_cls f) = REGISTER_ADDRESS (field_cls g))
  /\ NoDup (map (fun f => FIELD_NAME (field_cls f)) l).

(** Boolean forms, to check concrete field sets by evaluation. *)
Definition is_field_value_b (f : _RegisterField) : bool :=
  bool_decide (field_cls f ∈ module_fields)
  && match f_value f with
     | Some v => char_in "W" (RW (field_cls f))
                 && (0 <=? v) && (v <=? get_max_value (field_cls f))
     | None => false
     end.

Definition fs_inv_b (l : list _RegisterField) : bool :=
  forallb is_field_value_b l
  && match l with
     | [] => true
     | f :: _ => forallb (fun g => REGISTER_ADDRESS (field_cls g)
                                  =? REGISTER_ADDRESS (field_cls f)) l
     end
  && bool_decide (NoDup (map (fun f => FIELD_NAME (field_cls f)) l)).

(** The errors the driver raises for conflicting writes. *)
Definition ConflictError (e : exn) : Prop :=
  e = AssertionError "are in different registers"
  \/ e = AssertionError "already included"
  \/ e = AssertionError "Register specified twice"
  \/ e = AssertionError "Register and RegisterField can't be written simultaneously".

(** [cls(v)], once it has passed the assertions of the constructor *)
Definition field_value (cls : field_class) (v : Z) : _RegisterField :=
  {| field_cls := cls; f_value := Some v |}.

(** *** Writes *)

(** The message [get_register(a, 1)] sends, and where the register byte is
    in the reply: STATUS is read with a lone NOP. *)
Definition read_msg (a : Z) : list Z :=
  if a =? ADDRESS REG_STATUS then [_SPI_NOP] else [a; _SPI_NOP].

Definition old_of (a : Z) (reply : list Z) : option Z :=
  if a =? ADDRESS REG_STATUS then reply !! 0%nat else reply !! 1%nat.

(** The exchanges of one round of [_set_fields] for the register [a], the
    combined mask [m] and the combined value [v]. *)
Definition step_events (a m v : Z) (evs : list event) : Prop :=
  if decide (m = 0xFF) then
    exists reply, evs = [Ev_xfer2 [Z.lor 0x20 a; v] (Ok reply)]
  else
    exists reply_r old reply_w,
      evs = [Ev_xfer2 (read_msg a) (Ok reply_r);
             Ev_xfer2 [Z.lor 0x20 a; Z.lor v (Z.land old (Z.lnot m))] (Ok reply_w)]
      /\ old_of a reply_r = Some old.

(** What [_set_fields] needs of a field set: an address, a mask and a
    value, for a one-byte register. *)
Definition ready (s : _RegisterFieldSet) (a m v : Z) : Prop :=
  get_register_address s = Ok a /\ get_mask s = Ok m /\ get_value s = Ok v
  /\ _assert_valid_register_and_size a 1 = Ok tt.

(** A register value: an instance of a register class of the module,
    constructed with a value. *)
Definition is_register_value (r : _Register) : Prop :=
  reg_cls r ∈ module_registers
  /\ exists v, _Register__init__ (reg_cls r) (Some v) = Ok r.

(** What the table guarantees for each register class of the module. *)
Definition register_checks (c : register_class) : bool :=
  if is_one_byte c then is_Ok (_assert_valid_register_and_size (ADDRESS c) 1)
  else (3 <=? MIN_SIZE c) && (MAX_SIZE c <=? 5)
       && is_Ok (_assert_valid_register_and_size (ADDRESS c) 3)
       && is_Ok (_assert_valid_register_and_size (ADDRESS c) 4)
       && is_Ok (_assert_valid_register_and_size (ADDRESS c) 5).

(** The bytes written for a register value. *)
Definition register_bytes (r : _Register) : list Z :=
  match r_value r with
  | Some (RInt z) => [z]
  | Some (RList l) => l
  | None => []
  end.

(** The event is the W_REGISTER exchange for the register value [r]. *)
Definition is_register_write (r : _Register) (e : event) : Prop :=
  exists reply,
    e = Ev_xfer2 (Z.lor 0x20 (ADDRESS (reg_cls r)) :: register_bytes r) (Ok reply).

(** What [set] builds before it touches the bus. *)
Definition set_plan (items : list item)
  : result (gmap Z _Register * gmap Z _RegisterFieldSet) :=
  (assert (1 <=? Z.of_nat (length items)) "" ;;;
   registers <- set_registers_dict items ∅ ;;
   register_field_sets <- set_field_sets_dict items registers ∅ ;;
   Ok (registers, register_field_sets))%result.

(** A well-formed argument of [set]. *)
Definition is_item_value (it : item) : Prop :=
  match it with
  | IRegister r => is_register_value r
  | IField f => is_field_value f
  | IFieldSet s => rfs_fields s <> [] /\ fs_inv (rfs_fields s)
  end.

(** The register a field argument is filed under. *)
Definition item_address (it : item) : option Z :=
  match it with
  | IRegister _ => None
  | IField f => Some (REGISTER_ADDRESS (field_cls f))
  | IFieldSet s => (fun f => REGISTER_ADDRESS (field_cls f)) <$> head (rfs_fields s)
  end.

(** The dictionaries of [set]: register values under their address, and
    non-empty field sets of the register they are filed under. *)
Definition registers_inv (registers : gmap Z _Register) : Prop :=
  forall a r, registers !! a = Some r ->
              is_register_value r /\ ADDRESS (reg_cls r) = a.

Definition set_inv (a : Z) (s : _RegisterFieldSet) : Prop :=
  fs_inv (rfs_fields s)
  /\ forall g, g ∈ rfs_fields s -> REGISTER_ADDRESS (field_cls g) = a.

Definition sets_inv (sets : gmap Z _RegisterFieldSet) : Prop :=
  forall a s, sets !! a = Some s -> rfs_fields s <> [] /\ set_inv a s.

(** A round of [_set_fields]: a plain write when the mask covers the
    register, else a read followed by a write that merges the old byte. *)
Definition field_write (s : _RegisterFieldSet) (evs : list event) : Prop :=
  exists a m v,
    ready s a m v
    /\ (m = 0xFF -> exists reply, evs = [Ev_xfer2 [Z.lor 0x20 a; v] (Ok reply)])
    /\ (m <> 0xFF ->
        exists reply_r old reply_w written,
          evs = [Ev_xfer2 (read_msg a) (Ok reply_r);
                 Ev_xfer2 [Z.lor 0x20 a; written] (Ok reply_w)]
          /\ old_of a reply_r = Some old
          /\ written = Z.lor v (Z.land old (Z.lnot m))
          /\ Z.land written (Z.lnot m) = Z.land old (Z.lnot m)
          /\ Z.land written m = v).

(** [cls(v)] for a register class, likewise *)
Definition register_value (cls : register_class) (v : regvalue) : _Register :=
  {| reg_cls := cls; r_value := Some v |}.

(** *** The reset sequence *)

(** The steps of the reset as the documentation lists them. *)
Inductive step : Type :=
  | SChipEnableLow
  | SExchange (msg : list Z)
  | SRead (a : Z)
  | SWriteMasked (a mask value : Z).

(** An event carries out a step: the messages of [SExchange] and [SRead]
    are fixed; the byte of a masked write has [value] under [mask] (its
    other bits are those just read). *)
Definition matches (st : step) (e : event) : Prop :=
  match st with
  | SChipEnableLow => e = Ev_chip_enable_low
  | SExchange msg => exists reply, e = Ev_xfer2 msg (Ok reply)
  | SRead a => exists reply, e = Ev_xfer2 (read_msg a) (Ok reply)
  | SWriteMasked a mask value =>
      exists b reply, e = Ev_xfer2 [Z.lor 0x20 a; b] (Ok reply)
                      /\ Z.land b mask = value
  end.

(** A field is reset when it is writable and neither reserved nor
    obsolete. *)
Definition resettable (f : _RegisterFieldInfo) : bool :=
  char_in "W" (rw f) && negb (bool_decide (fi_name f ∈ ["Reserved"; "Obsolete"])).

(** The bits and the reset values of the resettable fields of a register. *)
Definition bulk_mask (r : _RegisterInfo) : Z :=
  foldr (fun f m => Z.lor (Z.shiftl (2 ^ num_bits f - 1) (start_bit f)) m) 0
        (filter (fun f => resettable f = true) (fields r)).

Definition bulk_value (r : _RegisterInfo) : Z :=
  foldr (fun f v => Z.lor (Z.shiftl (reset_value f) (start_bit f)) v) 0
        (filter (fun f => resettable f = true) (fields r)).

(** Writing the fields under [m] of register [a] to [v]: one write when
    [m] covers the register, else a read and a write. *)
Definition steps_for (a m v : Z) : list step :=
  if m =? 0xFF then [SExchange [Z.lor 0x20 a; v]]
  else [SRead a; SWriteMasked a m v].

(** The reset of one register of the table: nothing when it has no
    resettable field. *)
Definition bulk_steps (r : _RegisterInfo) : list step :=
  match filter (fun f => resettable f = true) (fields r) with
  | [] => []
  | _ => steps_for (address r) (bulk_mask r) (bulk_value r)
  end.

(** The whole reset: CE low and the two flushes, the registers of the table in
    turn, the three flags written to 1, the default addresses. *)
Definition reset_sequence : list step :=
  [SChipEnableLow; SExchange [0xE1]; SExchange [0xE2]]
  ++ flat_map bulk_steps _REGISTERS
  ++ [SRead 0x07; SWriteMasked 0x07 0x70 0x70]
  ++ [SExchange [0x2A; 0xE7; 0xE7; 0xE7; 0xE7; 0xE7];
      SExchange [0x2B; 0xC2; 0xC2; 0xC2; 0xC2; 0xC2];
      SExchange [0x2C; 0xC3];
      SExchange [0x2D; 0xC4];
      SExchange [0x2E; 0xC5];
      SExchange [0x2F; 0xC6];
      SExchange [0x30; 0xE7; 0xE7; 0xE7; 0xE7; 0xE7]].

(** The field set [reset_to_default] builds for a register. *)
Definition reset_set (r : _RegisterInfo) : _RegisterFieldSet :=
  match reset_fields (fields r) (_RegisterFieldSet__init__ None) with
  | Ok rfs => rfs
  | _ => _RegisterFieldSet__init__ None
  end.

(** The field set built for [r] is accepted by [set] as it is and asks for
    the steps of [bulk_steps r]. *)
Definition reset_ok (r : _RegisterInfo) : Prop :=
  reset_fields (fields r) (_RegisterFieldSet__init__ None) = Ok (reset_set r)
  /\ ((get_num_fields (reset_set r) =? 0) = true /\ bulk_steps r = []
      \/ (get_num_fields (reset_set r) =? 0) = false
         /\ set_plan [IFieldSet (reset_set r)] = Ok (∅, {[address r := reset_set r]})
         /\ ready (reset_set r) (address r) (bulk_mask r) (bulk_value r)
         /\ bulk_steps r = steps_for (address r) (bulk_mask r) (bulk_value r)).

(** [m] completes from every state, carrying out [steps]. *)
Definition runs {S A : Type} (m : M S A) (steps : list step) : Prop :=
  forall d, exists d' x new,
    m d = (d', Ok x) /\ log d' = log d ++ new /\ Forall2 matches steps new.

(** The set of the three flags that are cleared by writing 1. *)
Definition clear_flags : _RegisterFieldSet :=
  {| rfs_fields := [field_value RX_DR 1; field_value TX_DS 1; field_value MAX_RT 1] |}.

(** *** Addresses, sizes and exchanges *)

(** The pairs of address and size the driver accepts: the two long
    receive addresses and the transmit address take three to five bytes,
    every other register outside the test range one. *)
Definition valid_register_and_size (a size : Z) : Prop :=
  0 <= a <= 0x1D /\ ~ (0x18 <= a <= 0x1B)
  /\ ((a = 0x0A \/ a = 0x0B \/ a = 0x10) /\ 3 <= size <= 5
      \/ a <> 0x0A /\ a <> 0x0B /\ a <> 0x10 /\ size = 1).

(** What the table gives for the registers of more than one byte. *)
Definition long_register_checks (c : register_class) : bool :=
  is_one_byte c || ((MIN_SIZE c =? 3) && (MAX_SIZE c =? 5)).

(** The run [run] of a command from [d] made the one exchange [msg] and
    returned byte 0 of its reply. *)
Definition exchanged_once {S : Type} (run : device S * result Z) (d : device S)
    (msg : list Z) : Prop :=
  exists status reply,
    run.2 = Ok status /\ reply !! 0%nat = Some status
    /\ log run.1 = log d ++ [Ev_xfer2 msg (Ok reply)].

(** *** What the bus commands leave alone *)

Definition is_exchange (e : event) : Prop :=
  match e with Ev_xfer2 _ _ => True | _ => False end.

(** [m] uses the SPI object and nothing else: the wait in progress, the
    interrupt callback and the clock stay as they are, and every event it
    adds is an exchange. *)
Definition bus_only {S A : Type} (m : M S A) : Prop :=
  forall d,
    _wait_info_cancellable (m d).1 = _wait_info_cancellable d
    /\ wait_infos (m d).1 = wait_infos d
    /\ irq_callback (m d).1 = irq_callback d
    /\ clock (m d).1 = clock d
    /\ exists new, log (m d).1 = log d ++ new /\ Forall is_exchange new.

(** The largest value a request can yield. *)
Definition req_max (r : request) : Z :=
  match r with
  | ReqRegister _ => 255
  | ReqField f => get_max_value f
  end.

(** *** Writing and reading back *)

(** The contract of the chip for W_REGISTER on a one-byte register other
    than STATUS: the exchange is answered, the byte is stored, and no
    other register changes, except possibly STATUS. *)
Definition write_contract {S : Type} {spi : Spi S} (regs : S -> Z -> Z) : Prop :=
  forall (s : S) (a v : Z),
    0 <= a < 0x20 -> a <> ADDRESS REG_STATUS -> 0 <= v <= 255 ->
    exists s' reply,
      xfer2 s [Z.lor 0x20 a; v] = (s', Ok reply)
      /\ reply <> []
      /\ regs s' a = v
      /\ forall b, b <> a -> b <> ADDRESS REG_STATUS -> regs s' b = regs s b.

(** The fields a field argument of [set] carries. *)
Definition item_fields (it : item) : list _RegisterField :=
  match it with
  | IRegister _ => []
  | IField f => [f]
  | IFieldSet s => rfs_fields s
  end.

(** Byte 0 of the reply of the last event of the log. *)
Definition last_status {S : Type} (d : device S) : option Z :=
  last (log d) ≫= reply_byte0.

(** *** Partial writes *)

(** The bits of a field in its register, from its start bit and width. *)
Definition field_bits (c : field_class) : Z :=
  Z.shiftl (2 ^ NUM_BITS c - 1) (START_BIT c).

(** The combined mask of a list of field values, the bits of any of them,
    and their combined value, each value at the place of its field. *)
Definition combined_mask (l : list _RegisterField) : Z :=
  foldr (fun f m => Z.lor (field_bits (field_cls f)) m) 0 l.

Definition combined_value (l : list _RegisterField) : Z :=
  foldr (fun f v => Z.lor (Z.shiftl (default 0 (f_value f)) (START_BIT (field_cls f))) v)
        0 l.

(** The field values the arguments [items] give for the register [a], in
    the order of the arguments. *)
Definition fields_for (a : Z) (items : list item) : list _RegisterField :=
  flat_map (fun it => if decide (item_address it = Some a) then item_fields it else [])
           items.

(** The field values filed under [a] in the dictionary of [set], and those
    of one argument of [|=]. *)
Definition fields_at (sets : gmap Z _RegisterFieldSet) (a : Z) : list _RegisterField :=
  match sets !! a with
  | Some s => rfs_fields s
  | None => []
  end.

Definition fields_of (r : field_or_fieldset) : list _RegisterField :=
  match r with
  | AField f => [f]
  | AFieldSet s => rfs_fields s
  end.

(** The exchanges that write the field values [l] of the register [a]:
    one write of the combined value when the combined mask covers the
    register; otherwise a read of the register followed by a write of
    [value | (old & ~mask)], which has the bits of [old] outside the mask
    and those of the combined value under it. *)
Definition read_modify_write (a : Z) (l : list _RegisterField) (evs : list event)
  : Prop :=
  if decide (combined_mask l = 0xFF) then
    exists reply, evs = [Ev_xfer2 [Z.lor 0x20 a; combined_value l] (Ok reply)]
  else
    exists reply_r old reply_w written,
      evs = [Ev_xfer2 (read_msg a) (Ok reply_r);
             Ev_xfer2 [Z.lor 0x20 a; written] (Ok reply_w)]
      /\ old_of a reply_r = Some old
      /\ written = Z.lor (combined_value l) (Z.land old (Z.lnot (combined_mask l)))
      /\ (forall i, 0 <= i -> Z.testbit (combined_mask l) i = false ->
                    Z.testbit written i = Z.testbit old i)
      /\ (forall i, 0 <= i -> Z.testbit (combined_mask l) i = true ->
                    Z.testbit written i = Z.testbit (combined_value l) i).

(** *** Waiting *)

(** What a round of the wait loop asks of [get]. *)
Definition poll_requests : list request :=
  [ReqField MASK_RX_DR; ReqField MASK_TX_DS; ReqField MASK_MAX_RT;
   ReqField RX_DR; ReqField TX_DS; ReqField MAX_RT].

(** An interrupt is pending for the STATUS byte [status] and the CONFIG
    byte [config]: one of the flags RX_DR, TX_DS, MAX_RT (bits 6, 5, 4 of
    STATUS) is set and its mask bit in CONFIG is clear. *)
Definition irq_asserted (status config : Z) : bool :=
  (Z.testbit status 6 && negb (Z.testbit config 6))
  || (Z.testbit status 5 && negb (Z.testbit config 5))
  || (Z.testbit status 4 && negb (Z.testbit config 4)).

(** The wake [w] without its call of [cancel_wait_for_irq]. *)
Definition no_cancel {S : Type} (w : wake (S := S)) : wake (S := S) :=
  {| w_elapsed := w_elapsed w; w_chip := w_chip w; w_cancel := None |}.

(** The wait object at [wi] is finished. *)
Definition finished_at {S : Type} (d : device S) (wi : nat) : Prop :=
  exists w, wait_infos d !! wi = Some w /\ already_finished w = true.

(** What [cancel_wait_for_irq] and the [finally] clause of the wait do to
    a wait object. *)
Definition mark_cancelled (wi : _WaitInfo) : _WaitInfo :=
  {| condition_variable := condition_variable wi;
     already_finished := already_finished wi;
     cancelled := true |}.

Definition mark_finished (wi : _WaitInfo) : _WaitInfo :=
  {| condition_variable := condition_variable wi;
     already_finished := true;
     cancelled := cancelled wi |}.

(** The wait returned and tidied up: nothing is registered with the gpio
    object, no cancellable wait is recorded, and the wait object [wi] is
    marked as finished. *)
Definition returned_clean {S : Type} (run : device S * result unit) (wi : nat) : Prop :=
  run.2 = Ok tt
  /\ irq_callback run.1 = None
  /\ _wait_info_cancellable run.1 = None
  /\ finished_at run.1 wi.

(** *** Combining fields *)

(** Field values that can share a set: of one register, under different
    names. *)
Definition compatible (l : list _RegisterField) : Prop :=
  (forall f g, f ∈ l -> g ∈ l ->
     REGISTER_ADDRESS (field_cls f) = REGISTER_ADDRESS (field_cls g))
  /\ NoDup (map (fun f => FIELD_NAME (field_cls f)) l).

(** *** The table *)

(** The bits of a field of the table. *)
Definition info_bits (f : _RegisterFieldInfo) : gset Z :=
  list_to_set (range (start_bit f) (start_bit f + num_bits f)).

(** No two fields of [fs] share a bit. *)
Definition bits_disjoint (fs : list _RegisterFieldInfo) : Prop :=
  forall (i j : nat) fi fj,
    i <> j -> fs !! i = Some fi -> fs !! j = Some fj -> info_bits fi ## info_bits fj.

(** A consistent table: no name and no address twice, and the fields of
    each register share no bit and together cover bits 0 to 7, or none. *)
Definition table_ok (rs : list _RegisterInfo) : Prop :=
  NoDup (map ri_name rs)
  /\ NoDup (map address rs)
  /\ Forall (fun r => bits_disjoint (fields r)
                      /\ (⋃ (map info_bits (fields r)) = list_to_set (range 0 8)
                          \/ ⋃ (map info_bits (fields r)) = ∅))
            rs.

(** ** Properties *)

(** *** The module loads *)

(** The checks run at import pass on the register table. *)
Lemma _verify_registers_passes : _verify_registers = Ok tt.
Proof. vm_compute. reflexivity. Qed.

Lemma _create_module_variables_passes :
  exists module, _create_module_variables = Ok module
                 /\ nrf24_module = bind_names globals_after module.
Proof. eexists. split; vm_compute; reflexivity. Qed.

(** *** Field values *)

Lemma get_max_value_pow (cls : field_class) :
  get_max_value cls = 2 ^ NUM_BITS cls - 1.
Proof. unfold get_max_value. now rewrite Z.shiftl_1_l. Qed.

Lemma field_init_max (cls : field_class) :
  char_in "W" (RW cls) = true -> 0 <= NUM_BITS cls ->
  _RegisterField__init__ cls (Some (get_max_value cls))
  = Ok {| field_cls := cls; f_value := Some (get_max_value cls) |}.
Proof.
  intros HW Hn. unfold _RegisterField__init__. rewrite HW. cbn.
  assert (0 <= get_max_value cls).
  { rewrite get_max_value_pow. pose proof (Z.pow_pos_nonneg 2 (NUM_BITS cls)). lia. }
  replace (0 <=? get_max_value cls) with true by (symmetry; apply Z.leb_le; lia).
  rewrite Z.leb_refl. reflexivity.
Qed.

Lemma field_init_too_large (cls : field_class) (v : Z) :
  char_in "W" (RW cls) = true -> get_max_value cls < v ->
  _RegisterField__init__ cls (Some v) = Raise (AttributeError "field_name").
Proof.
  intros HW Hv. unfold _RegisterField__init__. rewrite HW. cbn.
  replace (v <=? get_max_value cls) with false by (symmetry; apply Z.leb_gt; lia).
  rewrite andb_false_r. reflexivity.
Qed.

Lemma field_init_read_only (cls : field_class) (v : Z) :
  char_in "W" (RW cls) = false ->
  _RegisterField__init__ cls (Some v) = Raise (AssertionError "Can't write to register").
Proof. intros HW. unfold _RegisterField__init__. rewrite HW. reflexivity. Qed.

(** C6.  A field of width [w] has maximum [2^w - 1], the maximum is
    accepted and a read-only field refuses every value; but a value above
    the maximum does not end in the range assertion's error: formatting
    its message reads the missing attribute [field_name], so PWR_UP(2) and
    RF_CH(128) raise [AttributeError]. *)
Theorem field_value_out_of_range_error :
  get_max_value PWR_UP = 2 ^ 1 - 1
  /\ _RegisterField__init__ PWR_UP (Some 1)
     = Ok {| field_cls := PWR_UP; f_value := Some 1 |}
  /\ _RegisterField__init__ PWR_UP (Some 2) = Raise (AttributeError "field_name")
  /\ _RegisterField__init__ RF_CH (Some 128) = Raise (AttributeError "field_name")
  /\ _RegisterField__init__ RX_P_NO (Some 3)
     = Raise (AssertionError "Can't write to register").
Proof. repeat split; reflexivity. Qed.

(** *** Commands that never reach the transport *)

(** C9.  [reuse_tx_payload] and [get_rx_payload_size] look up the global
    name [spi], which the module never binds: they raise [NameError] and
    exchange nothing with the device's transport. *)
Theorem reuse_and_payload_size_raise_NameError
    {S : Type} {spi : Spi S} {order : IterOrder} (d : device S) :
  reuse_tx_payload d = (d, Raise (NameError "spi"))
  /\ get_rx_payload_size d = (d, Raise (NameError "spi")).
Proof. split; reflexivity. Qed.

(** *** Reading registers and fields *)

Section Reading.

Context {S : Type} {spi : Spi S} {order : IterOrder}.

Lemma iter_order_singleton (a : Z) : iter_order [a] = [a].
Proof. apply Permutation_singleton_r, iter_order_perm. Qed.

Lemma iter_order_nil : iter_order [] = [].
Proof. apply Permutation_nil_r, iter_order_perm. Qed.

Lemma set_iter_singleton (a : Z) : set_iter {[a]} = [a].
Proof. unfold set_iter. rewrite elements_singleton. apply iter_order_singleton. Qed.

Lemma set_iter_NoDup (X : gset Z) : NoDup (set_iter X).
Proof.
  unfold set_iter. rewrite (iter_order_perm (elements X)). apply NoDup_elements.
Qed.

Lemma elem_of_set_iter (X : gset Z) (a : Z) : a ∈ set_iter X <-> a ∈ X.
Proof.
  unfold set_iter. rewrite (iter_order_perm (elements X)). apply elem_of_elements.
Qed.

(** C10.  [get()] without requests: STATUS is the only register needed,
    so one read of STATUS is exchanged, and the result is the empty
    tuple. *)
Theorem get_no_requests (d : device S) (s' : S) (status value : Z) :
  xfer2 (_spi d) [ADDRESS REG_STATUS; _SPI_NOP] = (s', Ok [status; value]) ->
  get [] d
  = ({| _spi := s';
        _wait_info_cancellable := _wait_info_cancellable d;
        wait_infos := wait_infos d;
        irq_callback := irq_callback d;
        clock := clock d;
        log := log d ++ [Ev_xfer2 [0x07; 0xFF] (Ok [status; value])] |},
     Ok (PyTuple [])).
Proof.
  intros Hx. unfold get, bind, lift. cbn [get_needed].
  rewrite bool_decide_false by (intros H; now apply H).
  rewrite set_iter_singleton. cbn [get_fetch]. unfold bind, spi_xfer2.
  cbn [_spi log]. rewrite Hx. reflexivity.
Qed.

Lemma well_behaved_read (Hwb : well_behaved) (s : S) (a : Z) :
  exists s' st rv, xfer2 s [a; _SPI_NOP] = (s', Ok [st; rv])
                   /\ 0 <= st <= 255 /\ 0 <= rv <= 255.
Proof.
  destruct (Hwb s [a; _SPI_NOP]) as (s' & reply & Hx & Hlen & Hb).
  destruct reply as [|st [|rv [|? ?]]]; try discriminate.
  exists s', st, rv. split; [exact Hx|].
  inversion Hb as [|? ? ? Hb']; subst. inversion Hb'; subst. tauto.
Qed.

Lemma get_needed_ok (rs : list request) (X : gset Z) :
  forallb req_ok rs = true ->
  get_needed rs X = Ok (list_to_set (map req_address rs) ∪ X).
Proof.
  revert X. induction rs as [|r rs IH]; intros X Hok; cbn in *.
  - f_equal. now rewrite (left_id_L ∅ (∪)).
  - apply andb_true_iff in Hok as [Hr Hrs].
    assert (Hstep : get_needed rs ({[req_address r]} ∪ X)
                    = Ok ({[req_address r]} ∪ list_to_set (map req_address rs) ∪ X)).
    { rewrite IH by exact Hrs. f_equal.
      rewrite (comm_L (∪) {[req_address r]} (list_to_set _)).
      now rewrite (assoc_L (∪)). }
    destruct r as [c|f]; cbn in *; [rewrite Hr; cbn|]; exact Hstep.
Qed.

Lemma get_needed_raises (rs : list request) (X : gset Z) :
  forallb req_ok rs = false ->
  get_needed rs X
  = Raise (AssertionError "Use get_register() to read variable size registers").
Proof.
  revert X. induction rs as [|r rs IH]; intros X Hok; cbn in *; [discriminate|].
  destruct r as [c|f]; cbn in *.
  - destruct (is_one_byte c); cbn in *; [now apply IH | reflexivity].
  - now apply IH.
Qed.

(** A request for a register of several bytes is refused before anything
    is read. *)
Lemma get_refuses_long_register (rs : list request) (d : device S) :
  forallb req_ok rs = false ->
  get rs d
  = (d, Raise (AssertionError "Use get_register() to read variable size registers")).
Proof.
  intros H. unfold get. unfold bind at 1. unfold lift at 1.
  now rewrite (get_needed_raises rs _ H).
Qed.

Lemma fetched_spec (rs : list request) (a : Z) :
  a ∈ fetched rs <->
  (only_status rs /\ a = ADDRESS REG_STATUS)
  \/ (a <> ADDRESS REG_STATUS /\ exists r, r ∈ rs /\ req_address r = a).
Proof.
  unfold fetched, only_status. set (st := ADDRESS REG_STATUS).
  case_bool_decide as Hne.
  - rewrite elem_of_difference, elem_of_union, elem_of_list_to_set,
      list_elem_of_fmap, !elem_of_singleton.
    split.
    + intros [[(r & -> & Hr)| ->] Ha]; [|contradiction].
      right. split; [exact Ha|]. now exists r.
    + intros [[Hall ->]|[Ha (r & Hr & <-)]].
      * exfalso. apply Hne. apply set_eq. intros x.
        rewrite elem_of_union, elem_of_list_to_set, list_elem_of_fmap,
          !elem_of_singleton.
        split; [|tauto]. intros [(r & -> & Hr)|]; [now apply Hall | assumption].
      * split; [|exact Ha]. left. now exists r.
  - rewrite Hne, elem_of_singleton. split.
    + intros ->. left. split; [|reflexivity]. intros r Hr.
      assert (Hin : req_address r ∈ ({[st]} : gset Z)).
      { rewrite <- Hne. apply elem_of_union. left.
        apply elem_of_list_to_set, list_elem_of_fmap. now exists r. }
      now apply elem_of_singleton in Hin.
    + intros [[_ ->]|[Ha (r & Hr & <-)]]; [reflexivity|].
      exfalso. apply Ha.
      assert (Hin : req_address r ∈ ({[st]} : gset Z)).
      { rewrite <- Hne. apply elem_of_union. left.
        apply elem_of_list_to_set, list_elem_of_fmap. now exists r. }
      now apply elem_of_singleton in Hin.
Qed.

(** [get] always reads at least one register. *)
Lemma fetched_nonempty (rs : list request) : set_iter (fetched rs) <> [].
Proof.
  intros Hnil. assert (Hin : forall a, a ∉ fetched rs).
  { intros a Ha. apply elem_of_set_iter in Ha. rewrite Hnil in Ha.
    now apply not_elem_of_nil in Ha. }
  unfold fetched in Hin. case_bool_decide as Hne.
  - apply Hne. apply set_eq. intros a.
    specialize (Hin a). rewrite elem_of_difference in Hin. split.
    + intros Ha. destruct (decide (a ∈ ({[ADDRESS REG_STATUS]} : gset Z))); [assumption|].
      exfalso. apply Hin. now split.
    + intros Ha. apply elem_of_union. now right.
  - apply (Hin (ADDRESS REG_STATUS)). apply elem_of_union. right.
    now apply elem_of_singleton.
Qed.

(** The fetch loop on a well-behaved transport: one read per address in
    turn, and STATUS in [values] comes from byte 0 of the last reply unless
    STATUS itself was read. *)
Lemma get_fetch_reads (Hwb : well_behaved) (L : list Z) :
  forall (values : gmap Z Z) (d : device S),
  exists d' values' new,
    get_fetch L values d = (d', Ok values')
    /\ log d' = log d ++ new
    /\ Forall2 is_read_of L new
    /\ (ADDRESS REG_STATUS ∉ L -> L <> [] ->
        values' !! ADDRESS REG_STATUS = last new ≫= reply_byte0).
Proof.
  induction L as [|a L IH]; intros values d.
  - exists d, values, []. cbn. rewrite app_nil_r. repeat split; try constructor.
    intros _ H. now destruct H.
  - destruct (well_behaved_read Hwb (_spi d) a) as (s' & st & rv & Hx & _).
    cbn [get_fetch]. unfold bind at 1. unfold spi_xfer2 at 1. rewrite Hx. cbn [fst snd].
    match goal with |- context [get_fetch L ?v ?d1] =>
      destruct (IH v d1) as (d' & values' & new & Hf & Hlog & Hall & Hst) end.
    exists d', values', (Ev_xfer2 [a; _SPI_NOP] (Ok [st; rv]) :: new).
    split; [exact Hf|]. split; [|split].
    + rewrite Hlog. cbn [log]. now rewrite <- app_assoc.
    + constructor; [now exists st, rv | exact Hall].
    + intros Hnot _. apply not_elem_of_cons in Hnot as [Hane HnL].
      destruct L as [|b L'].
      * inversion Hall; subst. cbn in Hf. injection Hf as <- <-. cbn.
        rewrite lookup_insert_ne by (intros ->; now apply Hane).
        apply lookup_insert_eq.
      * rewrite Hst by (auto; discriminate).
        inversion Hall; subst. reflexivity.
Qed.

Lemma get_unfold (rs : list request) (d : device S) (X : gset Z) :
  get_needed rs {[ADDRESS REG_STATUS]} = Ok X ->
  get rs d
  = (values <- get_fetch
                 (set_iter (if bool_decide (X ≠ {[ADDRESS REG_STATUS]})
                            then X ∖ {[ADDRESS REG_STATUS]} else X)) ∅ ;;
     result <- lift (get_project rs values) ;;
     ret (scalar_or_tuple result))%dev d.
Proof. intros H. unfold get. unfold bind at 1. unfold lift at 1. now rewrite H. Qed.

(** C2.  On a well-behaved transport [get] exchanges exactly one read per
    register it needs and nothing else: the registers of the requests,
    each once whatever the number of requests naming it, without STATUS
    unless STATUS is the only one; when STATUS is not read, the value
    used for it is byte 0 of the reply to the last read. *)
Theorem get_reads_each_register_once (Hwb : well_behaved)
    (rs : list request) (d : device S) :
  forallb req_ok rs = true ->
  exists (L : list Z) (new : list event),
    log (get rs d).1 = log d ++ new
    /\ Forall2 is_read_of L new
    /\ NoDup L
    /\ (forall a, a ∈ L <->
          (only_status rs /\ a = ADDRESS REG_STATUS)
          \/ (a <> ADDRESS REG_STATUS /\ exists r, r ∈ rs /\ req_address r = a))
    /\ (ADDRESS REG_STATUS ∉ L ->
        exists values : gmap Z Z,
          values !! ADDRESS REG_STATUS = last new ≫= reply_byte0
          /\ (get rs d).2
             = (result <- get_project rs values ;; Ok (scalar_or_tuple result))%result).
Proof.
  intros Hok.
  rewrite (get_unfold rs d _ (get_needed_ok rs _ Hok)).
  fold (fetched rs).
  destruct (get_fetch_reads Hwb (set_iter (fetched rs)) ∅ d)
    as (d' & values & new & Hf & Hlog & Hall & Hst).
  exists (set_iter (fetched rs)), new.
  assert (Hget : (values <- get_fetch (set_iter (fetched rs)) ∅ ;;
                  result <- lift (get_project rs values) ;;
                  ret (scalar_or_tuple result))%dev d
                 = (d', (result <- get_project rs values ;;
                         Ok (scalar_or_tuple result))%result)).
  { unfold bind at 1. rewrite Hf. unfold bind, lift, ret.
    destruct (get_project rs values); reflexivity. }
  rewrite Hget. cbn [fst snd].
  split; [exact Hlog|]. split; [exact Hall|]. split; [apply set_iter_NoDup|].
  split.
  - intros a. rewrite elem_of_set_iter. apply fetched_spec.
  - intros Hnot. exists values. split; [|reflexivity].
    apply Hst; [exact Hnot | apply fetched_nonempty].
Qed.

Lemma in_module_address (r : request) :
  in_module r -> 0 <= req_address r < 0x20.
Proof.
  assert (Hr : forallb (fun c => (0 <=? ADDRESS c) && (ADDRESS c <? 0x20))
                 module_registers = true) by (vm_compute; reflexivity).
  assert (Hf : forallb (fun c => (0 <=? REGISTER_ADDRESS c) && (REGISTER_ADDRESS c <? 0x20))
                 module_fields = true) by (vm_compute; reflexivity).
  rewrite forallb_forall in Hr, Hf.
  destruct r as [c|f]; cbn; intros Hin; apply list_elem_of_In in Hin.
  - specialize (Hr c Hin). lia.
  - specialize (Hf f Hin). lia.
Qed.

Lemma get_fetch_contract (regs : S -> Z -> Z) (Hc : read_contract regs) (L : list Z) :
  (forall a, a ∈ L -> 0 <= a < 0x20) ->
  forall (values : gmap Z Z) (d : device S),
  exists d' values',
    get_fetch L values d = (d', Ok values')
    /\ (forall b, regs (_spi d') b = regs (_spi d) b)
    /\ (forall b, values' !! b
                  = if decide (b ∈ L \/ (b = ADDRESS REG_STATUS /\ L <> []))
                    then Some (regs (_spi d) b) else values !! b).
Proof.
  induction L as [|a L IH]; intros HL values d.
  - exists d, values. cbn. repeat split; try reflexivity.
    intros b. case_decide as Hb; [|reflexivity].
    destruct Hb as [Hb|[_ Hb]]; [now apply not_elem_of_nil in Hb | now destruct Hb].
  - destruct Hc as [Hread Hbytes].
    destruct (Hread (_spi d) a) as (s' & Hx & Hsame).
    { apply HL. now left. }
    cbn [get_fetch]. unfold bind at 1. unfold spi_xfer2 at 1. rewrite Hx. cbn [fst snd].
    match goal with |- context [get_fetch L ?v ?d1] =>
      destruct (IH (fun a Ha => HL a (list_elem_of_further _ _ _ Ha)) v d1)
        as (d' & values' & Hf & Hregs & Hval) end.
    cbn [_spi] in Hregs, Hval.
    exists d', values'. split; [exact Hf|]. split.
    + intros b. now rewrite Hregs, Hsame.
    + intros b. rewrite (Hval b). clear Hval Hf.
      destruct (decide (b ∈ L \/ (b = ADDRESS REG_STATUS /\ L <> []))) as [Hin|Hout].
      * rewrite decide_True; [now rewrite Hsame|].
        destruct Hin as [Hin|[-> _]]; [left; now right | right; split; [reflexivity|discriminate]].
      * destruct (decide (b = a)) as [->|Hba].
        -- rewrite lookup_insert_eq. rewrite decide_True; [reflexivity | left; now left].
        -- rewrite lookup_insert_ne by congruence.
           destruct (decide (b = ADDRESS REG_STATUS)) as [->|Hb7].
           ++ rewrite lookup_insert_eq.
              rewrite decide_True; [reflexivity | right; split; [reflexivity|discriminate]].
           ++ rewrite lookup_insert_ne by congruence.
              rewrite decide_False; [reflexivity|].
              intros [Hin|[Hb _]]; [|contradiction].
              apply elem_of_cons in Hin as [?|Hin]; [contradiction|].
              apply Hout. now left.
Qed.

Lemma get_project_contract (mem : Z -> Z) (values : gmap Z Z) (rs : list request) :
  (forall a, 0 <= mem a <= 255) ->
  (forall r, r ∈ rs -> values !! req_address r = Some (mem (req_address r))) ->
  get_project rs values = Ok (map (project mem) rs).
Proof.
  intros Hbytes. induction rs as [|r rs IH]; intros Hval; [reflexivity|].
  cbn [get_project map].
  assert (Hone : get_one values r = Ok (project mem r)).
  { specialize (Hval r (list_elem_of_here _ _)).
    destruct r as [c|f]; cbn in *; unfold dict_get; rewrite Hval; [reflexivity|].
    cbn. unfold field_get.
    specialize (Hbytes (REGISTER_ADDRESS f)).
    replace ((0 <=? mem (REGISTER_ADDRESS f)) && (mem (REGISTER_ADDRESS f) <=? 255))
      with true by (symmetry; apply andb_true_iff; split; apply Z.leb_le; lia).
    reflexivity. }
  rewrite Hone. cbn. rewrite IH; [reflexivity|].
  intros r' Hr'. apply Hval. now right.
Qed.

(** On a chip honouring the read contract, [get] returns the projection
    of the register contents for each request, in order. *)
Lemma get_contract (regs : S -> Z -> Z) (Hc : read_contract regs)
    (rs : list request) (d : device S) :
  Forall in_module rs -> forallb req_ok rs = true ->
  (get rs d).2 = Ok (scalar_or_tuple (map (project (regs (_spi d))) rs)).
Proof.
  intros Hmod Hok.
  rewrite (get_unfold rs d _ (get_needed_ok rs _ Hok)). fold (fetched rs).
  assert (Hrange : forall a, a ∈ set_iter (fetched rs) -> 0 <= a < 0x20).
  { intros a Ha. apply elem_of_set_iter, fetched_spec in Ha.
    destruct Ha as [[_ ->]|[_ (r & Hr & <-)]]; [vm_compute; split; congruence|].
    apply in_module_address. rewrite Forall_forall in Hmod. now apply Hmod. }
  destruct (get_fetch_contract regs Hc _ Hrange ∅ d) as (d' & values & Hf & _ & Hval).
  unfold bind at 1. rewrite Hf. unfold bind, lift, ret.
  rewrite (get_project_contract (regs (_spi d)) values rs).
  - reflexivity.
  - apply Hc.
  - intros r Hr. rewrite Hval. rewrite decide_True; [reflexivity|].
    destruct (decide (req_address r = ADDRESS REG_STATUS)) as [Heq|Hne].
    + right. split; [exact Heq | apply fetched_nonempty].
    + left. apply elem_of_set_iter, fetched_spec. right. split; [exact Hne|]. now exists r.
Qed.

(** C3.  Against unchanged register contents, [get] with one request
    returns a scalar, the register byte or [(byte >> start_bit) & ((1 <<
    width) - 1)]; with any other number of requests it returns a tuple of
    that length whose i-th element is what [get] returns for the i-th
    request alone, repeated requests included. *)
Theorem get_agrees_with_single_gets (regs : S -> Z -> Z) (Hc : read_contract regs)
    (rs : list request) (d : device S) :
  Forall in_module rs -> forallb req_ok rs = true ->
  (forall r, rs = [r] -> (get rs d).2 = Ok (PyInt (project (regs (_spi d)) r)))
  /\ (length rs <> 1%nat ->
      exists vs, (get rs d).2 = Ok (PyTuple vs)
                 /\ length vs = length rs
                 /\ forall (i : nat) (r : request), rs !! i = Some r ->
                      exists v, vs !! i = Some v
                                /\ v = project (regs (_spi d)) r
                                /\ (get [r] d).2 = Ok (PyInt v)).
Proof.
  intros Hmod Hok. split.
  - intros r ->. now rewrite (get_contract regs Hc [r] d Hmod Hok).
  - intros Hlen. exists (map (project (regs (_spi d))) rs).
    split; [|split].
    + rewrite (get_contract regs Hc rs d Hmod Hok).
      destruct rs as [|r1 [|r2 rs']]; try reflexivity. now destruct Hlen.
    + apply length_map.
    + intros i r Hi. exists (project (regs (_spi d)) r).
      split; [|split; [reflexivity|]].
      * now rewrite list_lookup_fmap, Hi.
      * assert (Hr : r ∈ rs) by (apply list_elem_of_lookup; now exists i).
        rewrite (get_contract regs Hc [r] d); [reflexivity| |].
        -- constructor; [|constructor]. rewrite Forall_forall in Hmod. now apply Hmod.
        -- cbn. rewrite andb_true_r. rewrite forallb_forall in Hok.
           apply Hok. now apply list_elem_of_In.
Qed.

End Reading.

Lemma get_no_requests_witness :
  get [] (new_device (∅ : gmap Z Z))
  = ({| _spi := ∅; _wait_info_cancellable := None; wait_infos := [];
        irq_callback := None; clock := 0;
        log := [Ev_xfer2 [0x07; 0xFF] (Ok [0; 0])] |},
     Ok (PyTuple [])).
Proof. apply (get_no_requests (new_device ∅) ∅ 0 0). reflexivity. Defined.

(** *** Bytes and masks *)

Lemma byte_land (x : Z) : Z.land x 0xFF = x <-> 0 <= x <= 255.
Proof.
  change 0xFF with (Z.ones 8). rewrite Z.land_ones by lia.
  change (2 ^ 8) with 256. change (Z.ones 8) with 255. split.
  - intros H. pose proof (Z.mod_pos_bound x 256). lia.
  - intros H. apply Z.mod_small. lia.
Qed.

Lemma is_byte_land (x : Z) : is_byte x = true <-> Z.land x 0xFF = x.
Proof. rewrite byte_land. unfold is_byte. rewrite andb_true_iff, !Z.leb_le. tauto. Qed.

Lemma within_trans (x m n : Z) : within x m -> within m n -> within x n.
Proof.
  unfold within. intros Hx Hm. rewrite <- Hx at 1.
  now rewrite <- Z.land_assoc, Hm.
Qed.

Lemma within_lor (x y m n : Z) :
  within x m -> within y n -> within (Z.lor x y) (Z.lor m n).
Proof.
  unfold within. intros Hx Hy. apply Z.bits_inj'. intros i _.
  bit_of Hx i. bit_of Hy i. rewrite Z.land_spec, !Z.lor_spec. by_bits.
Qed.

Lemma within_lnot (x m : Z) : within x m -> Z.land x (Z.lnot m) = 0.
Proof.
  unfold within. intros Hx. apply Z.bits_inj'. intros i Hi.
  bit_of Hx i. rewrite Z.land_spec, Z.lnot_spec, Z.bits_0 by exact Hi. by_bits.
Qed.

Lemma within_land_l (x y m : Z) : within x m -> within (Z.land x y) m.
Proof.
  unfold within. intros Hx. apply Z.bits_inj'. intros i _.
  bit_of Hx i. rewrite !Z.land_spec. by_bits.
Qed.

Lemma land_lor_disjoint (a m n : Z) :
  Z.land a n = 0 -> Z.land m n = 0 -> Z.land (Z.lor a m) n = 0.
Proof. intros Ha Hm. now rewrite Z.land_lor_distr_l, Ha, Hm. Qed.

(** Read-modify-write: the [mask] bits come from [value], the others from
    [old]. *)
Lemma merge_bits (value old mask : Z) :
  within value mask ->
  let written := Z.lor value (Z.land old (Z.lnot mask)) in
  Z.land written mask = value
  /\ Z.land written (Z.lnot mask) = Z.land old (Z.lnot mask).
Proof.
  unfold within. intros Hv. split; apply Z.bits_inj'; intros i Hi; bit_of Hv i;
    rewrite ?Z.land_spec, ?Z.lor_spec, ?Z.land_spec, ?Z.lnot_spec by exact Hi;
    by_bits.
Qed.

Lemma field_value_within (cls : field_class) (v : Z) :
  0 <= START_BIT cls -> 0 <= NUM_BITS cls -> 0 <= v <= get_max_value cls ->
  within (Z.shiftl v (START_BIT cls)) (_get_mask cls).
Proof.
  intros Hs Hn Hv. unfold within, _get_mask, _get_unshifted_mask.
  rewrite <- Z.shiftl_land. f_equal.
  rewrite get_max_value_pow in Hv.
  change (Z.shiftl 1 (NUM_BITS cls) - 1) with (Z.ones (NUM_BITS cls)).
  rewrite Z.land_ones by exact Hn. apply Z.mod_small. lia.
Qed.

(** *** Field sets *)

Lemma module_class_checks (c : field_class) :
  c ∈ module_fields ->
  0 <= START_BIT c /\ 1 <= NUM_BITS c /\ START_BIT c + NUM_BITS c <= 8
  /\ within (_get_mask c) 0xFF
  /\ _assert_valid_register_and_size (REGISTER_ADDRESS c) 1 = Ok tt.
Proof.
  assert (H : forallb class_checks module_fields = true) by (vm_compute; reflexivity).
  rewrite forallb_forall in H. intros Hc. apply list_elem_of_In in Hc.
  specialize (H c Hc). unfold class_checks in H.
  repeat (apply andb_true_iff in H as [H ?]).
  repeat split; try lia.
  - unfold within. lia.
  - destruct (_assert_valid_register_and_size (REGISTER_ADDRESS c) 1) as [[]| |];
      [reflexivity | discriminate | discriminate].
Qed.

Lemma module_pair_checks (c1 c2 : field_class) :
  c1 ∈ module_fields -> c2 ∈ module_fields ->
  REGISTER_ADDRESS c1 = REGISTER_ADDRESS c2 ->
  FIELD_NAME c1 <> FIELD_NAME c2 ->
  Z.land (_get_mask c1) (_get_mask c2) = 0.
Proof.
  assert (H : forallb (fun c1 => forallb (pair_checks c1) module_fields) module_fields
              = true) by (vm_compute; reflexivity).
  rewrite forallb_forall in H. intros H1 H2 Ha Hn.
  apply list_elem_of_In in H1, H2. specialize (H c1 H1).
  rewrite forallb_forall in H. specialize (H c2 H2). unfold pair_checks in H.
  apply orb_true_iff in H as [H|H]; [apply orb_true_iff in H as [H|H]|].
  - apply negb_true_iff, Z.eqb_neq in H. contradiction.
  - apply String.eqb_eq in H. contradiction.
  - now apply Z.eqb_eq in H.
Qed.

Lemma field_value_range (f : _RegisterField) :
  is_field_value f ->
  exists v, f_value f = Some v /\ 0 <= v <= get_max_value (field_cls f).
Proof.
  intros [_ (v & Hv)]. exists v. unfold _RegisterField__init__ in Hv.
  destruct (char_in "W" (RW (field_cls f))); cbn in Hv; [|discriminate].
  destruct ((0 <=? v) && (v <=? get_max_value (field_cls f))) eqn:Hr; cbn in Hv;
    [|discriminate].
  injection Hv as <-. cbn. split; [reflexivity|].
  apply andb_true_iff in Hr. lia.
Qed.

Lemma shifted_within (f : _RegisterField) :
  is_field_value f -> within (shifted f) (_get_mask (field_cls f)).
Proof.
  intros Hf. destruct (field_value_range f Hf) as (v & Hv & Hr).
  destruct Hf as [Hc _]. destruct (module_class_checks _ Hc) as (Hs & Hn & _).
  unfold shifted. rewrite Hv. cbn. apply field_value_within; lia.
Qed.

Lemma get_unshifted_value_ok (f : _RegisterField) :
  is_field_value f -> get_unshifted_value f = Ok (shifted f).
Proof.
  intros Hf. pose proof (shifted_within f Hf) as Hw.
  destruct (field_value_range f Hf) as (v & Hv & _).
  unfold get_unshifted_value, shifted in *. rewrite Hv in *. cbn in *.
  unfold within in Hw. rewrite Hw, Z.eqb_refl. reflexivity.
Qed.

Lemma fs_inv_nil : fs_inv [].
Proof.
  split; [constructor|]. split; [|constructor].
  intros f g Hf. now apply not_elem_of_nil in Hf.
Qed.

Lemma fs_inv_tail (f : _RegisterField) (l : list _RegisterField) :
  fs_inv (f :: l) -> fs_inv l.
Proof.
  intros (Hv & Ha & Hn). split; [now inversion Hv|]. split.
  - intros g h Hg Hh. apply Ha; now right.
  - now inversion Hn.
Qed.

Lemma fs_inv_head_disjoint (f : _RegisterField) (l : list _RegisterField) :
  fs_inv (f :: l) ->
  forall g, g ∈ l -> Z.land (_get_mask (field_cls f)) (_get_mask (field_cls g)) = 0.
Proof.
  intros (Hv & Ha & Hn) g Hg. rewrite Forall_forall in Hv.
  apply module_pair_checks.
  - apply Hv. now left.
  - apply Hv. now right.
  - apply Ha; [now left | now right].
  - intros Heq. cbn in Hn. inversion Hn as [|? ? Hnot _]; subst. apply Hnot.
    rewrite Heq. apply list_elem_of_fmap. now exists g.
Qed.

Lemma mask_union_within (l : list _RegisterField) :
  Forall is_field_value l -> within (mask_union l) 0xFF.
Proof.
  induction 1 as [|f l Hf _ IH]; [reflexivity|]. cbn.
  change 0xFF with (Z.lor 0xFF 0xFF). apply within_lor; [|exact IH].
  destruct Hf as [Hc _]. now destruct (module_class_checks _ Hc) as (_ & _ & _ & ? & _).
Qed.

Lemma value_within_mask (l : list _RegisterField) :
  Forall is_field_value l -> within (value_union l) (mask_union l).
Proof.
  induction 1 as [|f l Hf _ IH]; [reflexivity|]. cbn.
  apply within_lor; [now apply shifted_within | exact IH].
Qed.

Lemma get_mask_loop_ok (l : list _RegisterField) :
  fs_inv l -> forall acc,
  (forall g, g ∈ l -> Z.land acc (_get_mask (field_cls g)) = 0) ->
  get_mask_loop l acc = Ok (Z.lor acc (mask_union l)).
Proof.
  induction l as [|f l IH]; intros Hinv acc Hacc; cbn.
  - now rewrite Z.lor_0_r.
  - rewrite (Hacc f) by now left. cbn.
    rewrite IH.
    + now rewrite Z.lor_assoc.
    + now apply fs_inv_tail in Hinv.
    + intros g Hg. apply land_lor_disjoint; [apply Hacc; now right|].
      now apply (fs_inv_head_disjoint f l).
Qed.

Lemma get_mask_ok (s : _RegisterFieldSet) :
  fs_inv (rfs_fields s) -> get_mask s = Ok (mask_union (rfs_fields s)).
Proof.
  intros Hinv. unfold get_mask. rewrite get_mask_loop_ok; [|exact Hinv|reflexivity].
  rewrite Z.lor_0_l. cbn. destruct Hinv as (Hv & _).
  apply mask_union_within, byte_land in Hv.
  replace ((0 <=? mask_union (rfs_fields s)) && (mask_union (rfs_fields s) <=? 255))
    with true by (symmetry; apply andb_true_iff; lia).
  reflexivity.
Qed.

Lemma get_value_loop_ok (l : list _RegisterField) :
  Forall is_field_value l -> forall acc, within acc 0xFF ->
  get_value_loop l acc = Ok (Z.lor acc (value_union l)).
Proof.
  induction 1 as [|f l Hf Hl IH]; intros acc Hacc; cbn.
  - now rewrite Z.lor_0_r.
  - rewrite (get_unshifted_value_ok f Hf). cbn.
    pose proof (proj1 (byte_land acc) Hacc).
    replace ((0 <=? acc) && (acc <=? 255)) with true
      by (symmetry; apply andb_true_iff; lia).
    cbn. rewrite IH.
    + now rewrite Z.lor_assoc.
    + change 0xFF with (Z.lor 0xFF 0xFF). apply within_lor; [exact Hacc|].
      apply (within_trans _ (_get_mask (field_cls f))); [now apply shifted_within|].
      destruct Hf as [Hc _].
      now destruct (module_class_checks _ Hc) as (_ & _ & _ & ? & _).
Qed.

Lemma get_value_ok (s : _RegisterFieldSet) :
  fs_inv (rfs_fields s) -> get_value s = Ok (value_union (rfs_fields s)).
Proof.
  intros Hinv. unfold get_value.
  rewrite get_value_loop_ok; [|apply Hinv|reflexivity]. rewrite Z.lor_0_l. cbn.
  rewrite (get_mask_ok s Hinv). cbn.
  pose proof (value_within_mask _ (proj1 Hinv)) as Hw. unfold within in Hw.
  rewrite Hw, Z.eqb_refl. reflexivity.
Qed.

Lemma is_field_value_b_spec (f : _RegisterField) :
  is_field_value_b f = true -> is_field_value f.
Proof.
  unfold is_field_value_b, is_field_value. intros H.
  apply andb_true_iff in H as [Hc Hv]. apply bool_decide_eq_true in Hc.
  split; [exact Hc|]. destruct f as [cls [v|]]; cbn in *; [|discriminate].
  exists v. unfold _RegisterField__init__.
  apply andb_true_iff in Hv as [Hv Hmax]. apply andb_true_iff in Hv as [HW Hmin].
  rewrite HW, Hmin, Hmax. reflexivity.
Qed.

Lemma fs_inv_b_spec (l : list _RegisterField) : fs_inv_b l = true -> fs_inv l.
Proof.
  unfold fs_inv_b, fs_inv. intros H.
  apply andb_true_iff in H as [H Hn]. apply andb_true_iff in H as [Hv Ha].
  apply bool_decide_eq_true in Hn. split; [|split; [|exact Hn]].
  - apply Forall_forall. intros f Hf. apply is_field_value_b_spec.
    rewrite forallb_forall in Hv. apply Hv. now apply list_elem_of_In.
  - destruct l as [|h l]; [intros f g Hf; now apply not_elem_of_nil in Hf|].
    rewrite forallb_forall in Ha. intros f g Hf Hg.
    apply list_elem_of_In in Hf, Hg.
    pose proof (Ha f Hf) as H1. pose proof (Ha g Hg) as H2. lia.
Qed.

Lemma name_check (f : _RegisterField) (l : list _RegisterField) :
  forallb (fun g => negb (String.eqb (FIELD_NAME (field_cls f)) (FIELD_NAME (field_cls g)))) l
  = true
  <-> FIELD_NAME (field_cls f) ∉ map (fun g => FIELD_NAME (field_cls g)) l.
Proof.
  induction l as [|g l IH]; cbn.
  - split; [intros _ H; now apply not_elem_of_nil in H | reflexivity].
  - rewrite andb_true_iff, IH, not_elem_of_cons, negb_true_iff, String.eqb_neq.
    reflexivity.
Qed.

Lemma ior_field_other_register (s : _RegisterFieldSet) (f g : _RegisterField) :
  fs_inv (rfs_fields s) -> g ∈ rfs_fields s ->
  REGISTER_ADDRESS (field_cls f) <> REGISTER_ADDRESS (field_cls g) ->
  ior_field s f = Raise (AssertionError "are in different registers").
Proof.
  intros (_ & Ha & _) Hg Hne. unfold ior_field, get_register_name.
  destruct (rfs_fields s) as [|h l] eqn:Hl; [now apply not_elem_of_nil in Hg|].
  rewrite (Ha g h Hg) in Hne by now left.
  apply Z.eqb_neq in Hne. rewrite Hne. reflexivity.
Qed.

Lemma ior_field_same_register (s : _RegisterFieldSet) (f : _RegisterField) :
  (forall g, g ∈ rfs_fields s ->
     REGISTER_ADDRESS (field_cls f) = REGISTER_ADDRESS (field_cls g)) ->
  ior_field s f
  = if forallb (fun g => negb (String.eqb (FIELD_NAME (field_cls f))
                                          (FIELD_NAME (field_cls g))))
               (rfs_fields s)
    then Ok {| rfs_fields := rfs_fields s ++ [f] |}
    else Raise (AssertionError "already included").
Proof.
  intros Ha. unfold ior_field.
  destruct (rfs_fields s) as [|h l] eqn:Hl.
  - reflexivity.
  - rewrite (Ha h) by now left. rewrite Z.eqb_refl. cbn [assert_msg rbind].
    match goal with |- context [assert ?b _] => destruct b end; reflexivity.
Qed.

Lemma fs_inv_snoc (l : list _RegisterField) (f : _RegisterField) :
  fs_inv l -> is_field_value f ->
  (forall g, g ∈ l -> REGISTER_ADDRESS (field_cls f) = REGISTER_ADDRESS (field_cls g)) ->
  FIELD_NAME (field_cls f) ∉ map (fun g => FIELD_NAME (field_cls g)) l ->
  fs_inv (l ++ [f]).
Proof.
  intros (Hv & Ha & Hn) Hf Hfa Hfn. split; [|split].
  - apply Forall_app. split; [exact Hv | now constructor].
  - intros g h Hg Hh. apply elem_of_app in Hg, Hh.
    destruct Hg as [Hg|Hg], Hh as [Hh|Hh];
      try apply list_elem_of_singleton in Hg; try apply list_elem_of_singleton in Hh;
      subst; auto. symmetry. auto.
  - rewrite map_app. apply NoDup_app. split; [exact Hn|]. split.
    + intros x Hx Hx'. apply list_elem_of_singleton in Hx'. now subst.
    + apply NoDup_singleton.
Qed.

Lemma mask_union_overlap (l : list _RegisterField) (m : Z) :
  Z.land (mask_union l) m <> 0 ->
  exists g, g ∈ l /\ Z.land (_get_mask (field_cls g)) m <> 0.
Proof.
  induction l as [|g l IH]; cbn; intros H.
  - now rewrite Z.land_0_l in H.
  - rewrite Z.land_lor_distr_l in H.
    destruct (Z.eq_dec (Z.land (_get_mask (field_cls g)) m) 0) as [Hg|Hg].
    + rewrite Hg, Z.lor_0_l in H. destruct (IH H) as (h & Hh & Hm).
      exists h. split; [now right | exact Hm].
    + exists g. split; [now left | exact Hg].
Qed.

(** C5.  Inserting a field value into a field set fails with a conflict
    error, at the insertion, when it belongs to another register than the
    members, when its name is already present, and when its bits overlap
    the combined mask; a successful insertion keeps the invariant, and
    the combined value has no bit outside the combined mask. *)
Theorem field_set_insertion (s : _RegisterFieldSet) (f : _RegisterField) :
  fs_inv (rfs_fields s) -> is_field_value f ->
  (forall g, g ∈ rfs_fields s ->
     REGISTER_ADDRESS (field_cls f) <> REGISTER_ADDRESS (field_cls g) ->
     ior_field s f = Raise (AssertionError "are in different registers"))
  /\ (forall g, g ∈ rfs_fields s ->
        FIELD_NAME (field_cls f) = FIELD_NAME (field_cls g) ->
        exists e, ior_field s f = Raise e /\ ConflictError e)
  /\ (forall mask, get_mask s = Ok mask ->
        Z.land mask (_get_mask (field_cls f)) <> 0 ->
        exists e, ior_field s f = Raise e /\ ConflictError e)
  /\ (forall s', ior_field s f = Ok s' ->
        fs_inv (rfs_fields s')
        /\ exists mask value,
             get_mask s' = Ok mask /\ get_value s' = Ok value
             /\ Z.land value (Z.lnot mask) = 0).
Proof.
  intros Hinv Hf.
  assert (Hname : forall g, g ∈ rfs_fields s ->
            FIELD_NAME (field_cls f) = FIELD_NAME (field_cls g) ->
            exists e, ior_field s f = Raise e /\ ConflictError e).
  { intros g Hg Hn.
    destruct (Z.eq_dec (REGISTER_ADDRESS (field_cls f)) (REGISTER_ADDRESS (field_cls g)))
      as [Ha|Ha].
    - rewrite ior_field_same_register.
      + destruct (forallb _ (rfs_fields s)) eqn:Hall.
        * exfalso. apply name_check in Hall. apply Hall. rewrite Hn.
          apply list_elem_of_fmap. now exists g.
        * eexists. split; [reflexivity|]. right. now left.
      + intros h Hh. rewrite Ha. now apply (proj1 (proj2 Hinv)).
    - eexists. split; [now apply (ior_field_other_register s f g)|]. now left. }
  split; [|split; [exact Hname|split]].
  - intros g Hg Hne. now apply (ior_field_other_register s f g).
  - intros mask Hmask Hover. rewrite (get_mask_ok s Hinv) in Hmask.
    injection Hmask as <-.
    destruct (mask_union_overlap _ _ Hover) as (g & Hg & Hgf).
    destruct (Z.eq_dec (REGISTER_ADDRESS (field_cls f)) (REGISTER_ADDRESS (field_cls g)))
      as [Ha|Ha].
    + destruct (String.eqb_spec (FIELD_NAME (field_cls f)) (FIELD_NAME (field_cls g)))
        as [Hn|Hn]; [now apply (Hname g)|].
      exfalso. apply Hgf. rewrite Z.land_comm. apply module_pair_checks.
      * apply Hf.
      * destruct Hinv as (Hv & _). rewrite Forall_forall in Hv. now apply Hv.
      * exact Ha.
      * exact Hn.
    + eexists. split; [now apply (ior_field_other_register s f g)|]. now left.
  - intros s' Hs'.
    assert (Haddr : forall g, g ∈ rfs_fields s ->
              REGISTER_ADDRESS (field_cls f) = REGISTER_ADDRESS (field_cls g)).
    { intros g Hg.
      destruct (Z.eq_dec (REGISTER_ADDRESS (field_cls f)) (REGISTER_ADDRESS (field_cls g)))
        as [Ha|Ha]; [exact Ha|].
      rewrite (ior_field_other_register s f g Hinv Hg Ha) in Hs'. discriminate. }
    rewrite (ior_field_same_register s f Haddr) in Hs'.
    destruct (forallb _ (rfs_fields s)) eqn:Hall; [|discriminate].
    injection Hs' as <-. cbn [rfs_fields].
    assert (Hinv' : fs_inv (rfs_fields s ++ [f])).
    { apply fs_inv_snoc; try assumption. now apply name_check. }
    split; [exact Hinv'|].
    exists (mask_union (rfs_fields s ++ [f])), (value_union (rfs_fields s ++ [f])).
    split; [now apply get_mask_ok|]. split; [now apply get_value_ok|].
    apply within_lnot, value_within_mask, Hinv'.
Qed.

(** *** The simulated chip honours both contracts *)

Lemma sim_reg_byte (s : gmap Z Z) (a : Z) : 0 <= sim_reg s a <= 255.
Proof. unfold sim_reg. pose proof (Z.mod_pos_bound (default 0 (s !! a)) 256). lia. Qed.

Lemma sim_well_behaved : well_behaved (spi := sim_spi).
Proof.
  intros s msg. unfold xfer2, sim_spi, sim_xfer2.
  destruct msg as [|cmd payload]; [exists s, []; repeat split; constructor|].
  assert (Hz : Forall (fun b => 0 <= b <= 255) (map (fun _ : Z => 0) payload)).
  { apply Forall_forall. intros x Hx. apply list_elem_of_fmap in Hx as (? & -> & _). lia. }
  destruct ((0 <=? cmd) && (cmd <? 32)); [|destruct ((32 <=? cmd) && (cmd <? 64))];
    eexists; eexists; (split; [reflexivity|]); cbn [length];
    rewrite length_map; (split; [reflexivity|]); constructor;
    try apply sim_reg_byte; try exact Hz.
  apply Forall_forall. intros x Hx. apply list_elem_of_fmap in Hx as (? & -> & _).
  apply sim_reg_byte.
Qed.

Lemma sim_read_contract : read_contract (spi := sim_spi) sim_reg.
Proof.
  split; [|apply sim_reg_byte].
  intros s a Ha. exists s. split; [|reflexivity].
  unfold xfer2, sim_spi, sim_xfer2.
  replace ((0 <=? a) && (a <? 32)) with true
    by (symmetry; apply andb_true_iff; lia).
  reflexivity.
Qed.

Lemma get_reads_each_register_once_witness :
  let rs := [ReqField TX_FULL; ReqRegister REG_CONFIG; ReqField PWR_UP; ReqField TX_FULL] in
  let d := new_device (∅ : gmap Z Z) in
  exists (L : list Z) (new : list event),
    log (get rs d).1 = log d ++ new
    /\ Forall2 is_read_of L new
    /\ NoDup L
    /\ (forall a, a ∈ L <->
          (only_status rs /\ a = ADDRESS REG_STATUS)
          \/ (a <> ADDRESS REG_STATUS /\ exists r, r ∈ rs /\ req_address r = a))
    /\ (ADDRESS REG_STATUS ∉ L ->
        exists values : gmap Z Z,
          values !! ADDRESS REG_STATUS = last new ≫= reply_byte0
          /\ (get rs d).2
             = (result <- get_project rs values ;; Ok (scalar_or_tuple result))%result).
Proof.
  intros rs d. apply (get_reads_each_register_once sim_well_behaved rs d).
  reflexivity.
Defined.

Lemma module_field_elem (c : field_class) :
  bool_decide (c ∈ module_fields) = true -> c ∈ module_fields.
Proof. apply bool_decide_eq_true. Qed.

Lemma module_register_elem (c : register_class) :
  bool_decide (c ∈ module_registers) = true -> c ∈ module_registers.
Proof. apply bool_decide_eq_true. Qed.

Lemma get_agrees_with_single_gets_witness :
  let rs := [ReqField TX_FULL; ReqRegister REG_CONFIG; ReqField RX_P_NO; ReqField TX_FULL] in
  let d := new_device (<[0x07 := 0x0E]> (<[0x00 := 0x08]> ∅) : gmap Z Z) in
  (forall r, rs = [r] -> (get rs d).2 = Ok (PyInt (project (sim_reg (_spi d)) r)))
  /\ (length rs <> 1%nat ->
      exists vs, (get rs d).2 = Ok (PyTuple vs)
                 /\ length vs = length rs
                 /\ forall (i : nat) (r : request), rs !! i = Some r ->
                      exists v, vs !! i = Some v
                                /\ v = project (sim_reg (_spi d)) r
                                /\ (get [r] d).2 = Ok (PyInt v)).
Proof.
  intros rs d. apply (get_agrees_with_single_gets sim_reg sim_read_contract rs d).
  - repeat constructor; cbn;
      first [apply module_field_elem | apply module_register_elem]; vm_compute; reflexivity.
  - reflexivity.
Defined.

Lemma field_set_insertion_witness :
  let s := {| rfs_fields := [field_value PWR_UP 1] |} in
  let f := field_value PRIM_RX 1 in
  (forall g, g ∈ rfs_fields s ->
     REGISTER_ADDRESS (field_cls f) <> REGISTER_ADDRESS (field_cls g) ->
     ior_field s f = Raise (AssertionError "are in different registers"))
  /\ (forall g, g ∈ rfs_fields s ->
        FIELD_NAME (field_cls f) = FIELD_NAME (field_cls g) ->
        exists e, ior_field s f = Raise e /\ ConflictError e)
  /\ (forall mask, get_mask s = Ok mask ->
        Z.land mask (_get_mask (field_cls f)) <> 0 ->
        exists e, ior_field s f = Raise e /\ ConflictError e)
  /\ (forall s', ior_field s f = Ok s' ->
        fs_inv (rfs_fields s')
        /\ exists mask value,
             get_mask s' = Ok mask /\ get_value s' = Ok value
             /\ Z.land value (Z.lnot mask) = 0).
Proof.
  intros s f. apply (field_set_insertion s f).
  - apply fs_inv_b_spec. vm_compute. reflexivity.
  - apply is_field_value_b_spec. vm_compute. reflexivity.
Defined.

(** Concrete insertions: two fields of CONFIG combine; a second PWR_UP,
    and a field of another register, are refused. *)
Example ior_examples :
  ior_field {| rfs_fields := [field_value PWR_UP 1] |} (field_value PRIM_RX 1)
  = Ok {| rfs_fields := [field_value PWR_UP 1; field_value PRIM_RX 1] |}
  /\ get_mask {| rfs_fields := [field_value PWR_UP 1; field_value PRIM_RX 1] |} = Ok 3
  /\ get_value {| rfs_fields := [field_value PWR_UP 1; field_value PRIM_RX 1] |} = Ok 3
  /\ ior_field {| rfs_fields := [field_value PWR_UP 1] |} (field_value PWR_UP 0)
     = Raise (AssertionError "already included")
  /\ ior_field {| rfs_fields := [field_value PWR_UP 1] |} (field_value RF_CH 40)
     = Raise (AssertionError "are in different registers").
Proof. repeat split; reflexivity. Qed.

(** *** Writing registers and fields *)

Lemma get_mask_byte (s : _RegisterFieldSet) (m : Z) :
  get_mask s = Ok m -> 0 <= m <= 255.
Proof.
  unfold get_mask. destruct (get_mask_loop (rfs_fields s) 0) as [m'| |]; cbn;
    try discriminate.
  destruct ((0 <=? m') && (m' <=? 255)) eqn:Hb; cbn; [|discriminate].
  intros [= <-]. apply andb_true_iff in Hb. lia.
Qed.

Lemma get_value_within (s : _RegisterFieldSet) (m v : Z) :
  get_mask s = Ok m -> get_value s = Ok v -> within v m.
Proof.
  intros Hm. unfold get_value. rewrite Hm.
  destruct (get_value_loop (rfs_fields s) 0) as [v'| |]; cbn; try discriminate.
  destruct (Z.land v' m =? v') eqn:Hb; cbn; [|discriminate].
  intros [= <-]. now apply Z.eqb_eq in Hb.
Qed.

Lemma fs_inv_ready (s : _RegisterFieldSet) (f : _RegisterField) (l : list _RegisterField) :
  rfs_fields s = f :: l -> fs_inv (rfs_fields s) ->
  ready s (REGISTER_ADDRESS (field_cls f)) (mask_union (rfs_fields s))
          (value_union (rfs_fields s)).
Proof.
  intros Hl Hinv. split; [|split; [|split]].
  - unfold get_register_address. now rewrite Hl.
  - now apply get_mask_ok.
  - now apply get_value_ok.
  - destruct Hinv as (Hv & _). rewrite Hl in Hv. inversion Hv as [|? ? [Hc _] _]; subst.
    now destruct (module_class_checks _ Hc) as (_ & _ & _ & _ & ?).
Qed.

Section Writing.

Context {S : Type} {spi : Spi S} {order : IterOrder}.
Hypothesis Hwb : well_behaved.

Lemma xfer2_reply (msg : list Z) (d : device S) :
  exists d' reply,
    spi_xfer2 msg d = (d', Ok reply)
    /\ length reply = length msg
    /\ Forall (fun b => 0 <= b <= 255) reply
    /\ log d' = log d ++ [Ev_xfer2 msg (Ok reply)].
Proof.
  destruct (Hwb (_spi d) msg) as (s' & reply & Hx & Hlen & Hb).
  unfold spi_xfer2. rewrite Hx. cbn. eexists _, reply. repeat split; assumption.
Qed.

(** The commands that do reach the transport hand it one message, the
    command byte and its payload, and return byte 0 of the reply.
    [read_rx_payload] pads its message with zeros. *)
Lemma exchange_returns_status (msg : list Z) (d : device S) :
  msg <> [] ->
  exists d' status reply,
    (x <- spi_xfer2 msg ;; lift (index x 0))%dev d = (d', Ok status)
    /\ spi_xfer2 msg d = (d', Ok reply)
    /\ length reply = length msg
    /\ reply !! 0%nat = Some status
    /\ log d' = log d ++ [Ev_xfer2 msg (Ok reply)].
Proof.
  intros Hmsg. destruct (xfer2_reply msg d) as (d' & reply & Hx & Hlen & _ & Hlog).
  destruct reply as [|st reply]; [destruct msg; [contradiction|discriminate]|].
  exists d', st, (st :: reply). unfold bind. rewrite Hx. repeat split; assumption.
Qed.

Lemma commands_exchange_once (d : device S) :
  (exists d' status reply,
     flush_tx_fifo d = (d', Ok status) /\ reply !! 0%nat = Some status
     /\ log d' = log d ++ [Ev_xfer2 [0xE1] (Ok reply)])
  /\ (exists d' status reply,
        flush_rx_fifo d = (d', Ok status) /\ reply !! 0%nat = Some status
        /\ log d' = log d ++ [Ev_xfer2 [0xE2] (Ok reply)])
  /\ (forall command data n bytes,
        py_len data = Ok n -> 1 <= n <= 32 -> _to_bytes data = Ok bytes ->
        exists d' status reply,
          _write_payload command data d = (d', Ok status)
          /\ reply !! 0%nat = Some status
          /\ log d' = log d ++ [Ev_xfer2 (command :: bytes) (Ok reply)])
  /\ (forall num_bytes, 1 <= num_bytes <= 32 ->
        exists d' status reply,
          read_rx_payload num_bytes d = (d', Ok (status, tail reply))
          /\ reply !! 0%nat = Some status
          /\ log d' = log d
                      ++ [Ev_xfer2 (0x61 :: repeat 0 (Z.to_nat num_bytes)) (Ok reply)]).
Proof.
  split; [|split; [|split]].
  - destruct (exchange_returns_status [0xE1] d) as (d' & st & reply & Hr & _ & _ & H0 & Hlog);
      [discriminate|]. now exists d', st, reply.
  - destruct (exchange_returns_status [0xE2] d) as (d' & st & reply & Hr & _ & _ & H0 & Hlog);
      [discriminate|]. now exists d', st, reply.
  - intros command data n bytes Hn Hrange Hbytes.
    destruct (exchange_returns_status (command :: bytes) d)
      as (d' & st & reply & Hr & _ & _ & H0 & Hlog); [discriminate|].
    exists d', st, reply. split; [|now split].
    unfold _write_payload. unfold bind at 1. unfold lift at 1. rewrite Hn.
    unfold bind at 1. unfold lift at 1.
    replace ((1 <=? n) && (n <=? 32)) with true by (symmetry; apply andb_true_iff; lia).
    cbn [assert]. unfold bind at 1. unfold lift at 1. rewrite Hbytes. exact Hr.
  - intros num_bytes Hrange.
    destruct (exchange_returns_status (0x61 :: repeat 0 (Z.to_nat num_bytes)) d)
      as (d' & st & reply & _ & Hx & _ & H0 & Hlog); [discriminate|].
    exists d', st, reply. split; [|now split].
    unfold read_rx_payload. unfold bind at 1. unfold lift at 1.
    replace ((1 <=? num_bytes) && (num_bytes <=? 32)) with true
      by (symmetry; apply andb_true_iff; lia).
    cbn [assert]. unfold bind at 1. rewrite Hx.
    unfold bind, lift, index, ret. now rewrite H0.
Qed.

Lemma get_register_one (a : Z) (d : device S) :
  _assert_valid_register_and_size a 1 = Ok tt ->
  exists d' status old reply,
    get_register a 1 d = (d', Ok (status, RInt old))
    /\ 0 <= old <= 255
    /\ old_of a reply = Some old
    /\ log d' = log d ++ [Ev_xfer2 (read_msg a) (Ok reply)].
Proof.
  intros Hvalid. unfold get_register, old_of, read_msg.
  unfold bind at 1. unfold lift at 1. rewrite Hvalid.
  destruct (a =? ADDRESS REG_STATUS) eqn:Ha; cbn [negb].
  - destruct (xfer2_reply [_SPI_NOP] d) as (d' & reply & Hx & Hlen & Hb & Hlog).
    destruct reply as [|st [|? ?]]; try discriminate.
    unfold bind at 1. rewrite Hx. cbn.
    exists d', st, st, [st]. repeat split; try assumption; inversion Hb; subst; lia.
  - destruct (xfer2_reply (a :: repeat _SPI_NOP (Z.to_nat 1)) d)
      as (d' & reply & Hx & Hlen & Hb & Hlog).
    destruct reply as [|st [|old [|? ?]]]; try discriminate.
    unfold bind at 1. rewrite Hx. cbn.
    exists d', st, old, [st; old]. repeat split; try assumption;
      inversion Hb as [|? ? ? Hb']; subst; inversion Hb'; subst; lia.
Qed.

Lemma _set_register_bytes (a : Z) (value : pyvalue) (bytes : list Z) (d : device S) :
  _assert_valid_register_and_size a
    (match value with VList l => Z.of_nat (length l) | _ => 1 end) = Ok tt ->
  _to_bytes value = Ok bytes ->
  exists d' status reply,
    _set_register a value d = (d', Ok status)
    /\ log d' = log d ++ [Ev_xfer2 (Z.lor 0x20 a :: bytes) (Ok reply)].
Proof.
  intros Hvalid Hbytes. unfold _set_register.
  unfold bind at 1. unfold lift at 1.
  assert (Hsize : match value with
                  | VList l => Ok (Z.of_nat (length l))
                  | _ => Ok 1
                  end = Ok (match value with VList l => Z.of_nat (length l) | _ => 1 end))
    by (destruct value; reflexivity).
  rewrite Hsize. unfold bind at 1. unfold lift at 1. rewrite Hvalid.
  unfold bind at 1. unfold lift at 1. rewrite Hbytes.
  destruct (xfer2_reply (Z.lor 0x20 a :: bytes) d) as (d' & reply & Hx & Hlen & _ & Hlog).
  destruct reply as [|st reply]; [discriminate|].
  unfold bind at 1. rewrite Hx. cbn. exists d', st, (st :: reply). split; [reflexivity|exact Hlog].
Qed.

(** One round of [_set_fields]: the combined value is written as it is when
    the mask covers the register, else the register is read and the bits
    outside the mask are written back unchanged. *)
Lemma _set_fields_step_ready (s : _RegisterFieldSet) (a m v : Z) (d : device S) :
  ready s a m v ->
  exists d' status new,
    _set_fields_step (AFieldSet s) d = (d', Ok status)
    /\ log d' = log d ++ new
    /\ step_events a m v new.
Proof.
  intros (Ha & Hm & Hv & Hvalid).
  pose proof (get_mask_byte s m Hm) as Hmb.
  pose proof (get_value_within s m v Hm Hv) as Hw.
  assert (Hvb : Z.land v 0xFF = v).
  { apply (within_trans v m); [exact Hw | now apply byte_land]. }
  unfold _set_fields_step, step_events.
  unfold bind at 1. unfold lift at 1. rewrite Ha.
  unfold bind at 1. unfold lift at 1. rewrite Hm.
  unfold bind at 1. unfold lift at 1. rewrite Hv.
  destruct (decide (m = 0xFF)) as [->|Hne].
  - cbn [Z.eqb Pos.eqb negb]. unfold bind at 1. unfold ret at 1.
    destruct (_set_register_bytes a (VInt v) [v] d Hvalid) as (d' & st & reply & Hs & Hlog).
    { cbn. apply is_byte_land in Hvb. now rewrite Hvb. }
    exists d', st, [Ev_xfer2 [Z.lor 0x20 a; v] (Ok reply)].
    split; [exact Hs|]. split; [exact Hlog|]. now exists reply.
  - apply Z.eqb_neq in Hne. rewrite Hne. cbn [negb].
    destruct (get_register_one a d Hvalid) as (d1 & st1 & old & reply_r & Hg & Hold & Hof & Hlog1).
    unfold bind at 1. unfold bind at 1. rewrite Hg. cbn [snd]. unfold ret at 1.
    set (written := Z.lor v (Z.land old (Z.lnot m))).
    assert (Hwr : Z.land written 0xFF = written).
    { change 0xFF with (Z.lor 0xFF 0xFF). apply within_lor; [exact Hvb|].
      apply within_land_l. now apply byte_land. }
    destruct (_set_register_bytes a (VInt written) [written] d1 Hvalid)
      as (d' & st & reply_w & Hs & Hlog).
    { cbn. apply is_byte_land in Hwr. now rewrite Hwr. }
    exists d', st, [Ev_xfer2 (read_msg a) (Ok reply_r);
                    Ev_xfer2 [Z.lor 0x20 a; written] (Ok reply_w)].
    split; [exact Hs|]. split.
    + rewrite Hlog, Hlog1. now rewrite <- app_assoc.
    + exists reply_r, old, reply_w. split; [reflexivity | exact Hof].
Qed.

Lemma _set_fields_loop_ready (sets : list _RegisterFieldSet) :
  Forall (fun s => exists a m v, ready s a m v) sets ->
  forall (status : option Z) (d : device S),
  exists d' status' chunks,
    _set_fields_loop (map AFieldSet sets) status d = (d', Ok status')
    /\ log d' = log d ++ concat chunks
    /\ Forall2 (fun s evs => exists a m v, ready s a m v /\ step_events a m v evs)
               sets chunks
    /\ (sets = [] -> status' = status)
    /\ (sets <> [] -> status' <> None).
Proof.
  induction 1 as [|s sets (a & m & v & Hs) _ IH]; intros status d.
  - exists d, status, []. cbn. rewrite app_nil_r. repeat split; try constructor.
    intros H. now destruct H.
  - destruct (_set_fields_step_ready s a m v d Hs) as (d1 & st & new & Hstep & Hlog1 & Hev).
    destruct (IH (Some st) d1) as (d' & status' & chunks & Hloop & Hlog & Hall & Hnil & Hcons).
    exists d', status', (new :: chunks). cbn [map _set_fields_loop].
    unfold bind at 1. rewrite Hstep. split; [exact Hloop|]. split; [|split; [|split]].
    + rewrite Hlog, Hlog1. cbn. now rewrite <- app_assoc.
    + constructor; [now exists a, m, v | exact Hall].
    + discriminate.
    + intros _. destruct sets as [|s' sets'].
      * rewrite Hnil by reflexivity. discriminate.
      * apply Hcons. discriminate.
Qed.

End Writing.

Lemma is_Ok_unit (r : result unit) : is_Ok r = true -> r = Ok tt.
Proof. destruct r as [[]| |]; [reflexivity | discriminate | discriminate]. Qed.

Lemma register_value_writes (r : _Register) :
  is_register_value r ->
  _to_bytes (of_regvalue (r_value r)) = Ok (register_bytes r)
  /\ _assert_valid_register_and_size (ADDRESS (reg_cls r))
       (match of_regvalue (r_value r) with
        | VList l => Z.of_nat (length l)
        | _ => 1
        end) = Ok tt.
Proof.
  assert (H : forallb register_checks module_registers = true) by (vm_compute; reflexivity).
  rewrite forallb_forall in H. intros [Hc (v & Hv)].
  apply list_elem_of_In in Hc. specialize (H _ Hc). unfold register_checks in H.
  unfold _Register__init__, is_one_byte in *.
  destruct v as [z|l].
  - destruct ((MIN_SIZE (reg_cls r) =? MAX_SIZE (reg_cls r)) && (MAX_SIZE (reg_cls r) =? 1))
      eqn:Hone; cbn [andb] in Hv; [|discriminate].
    destruct (is_byte z) eqn:Hz; [|discriminate]. injection Hv as <-.
    cbn. rewrite Hz. split; [reflexivity | now apply is_Ok_unit].
  - destruct ((MIN_SIZE (reg_cls r) =? MAX_SIZE (reg_cls r)) && (MAX_SIZE (reg_cls r) =? 1))
      eqn:Hone; [discriminate|].
    match type of Hv with (if ?b then _ else _) = _ => destruct b eqn:Hb end;
      [|discriminate].
    injection Hv as <-. cbn.
    repeat (apply andb_true_iff in Hb as [Hb ?]).
    repeat (apply andb_true_iff in H as [H ?]).
    match goal with Hl : forallb is_byte l = true |- _ => rewrite Hl end.
    split; [reflexivity|].
    assert (Hlen : Z.of_nat (length l) = 3 \/ Z.of_nat (length l) = 4
                   \/ Z.of_nat (length l) = 5) by lia.
    destruct Hlen as [->|[->| ->]]; now apply is_Ok_unit.
Qed.

Section WritingRegisters.

Context {S : Type} {spi : Spi S} {order : IterOrder}.
Hypothesis Hwb : well_behaved.

Lemma _set_registers_loop_values (registers : list _Register) :
  Forall is_register_value registers ->
  forall (status : option Z) (d : device S),
  exists d' status' new,
    _set_registers_loop registers status d = (d', Ok status')
    /\ log d' = log d ++ new
    /\ Forall2 is_register_write registers new
    /\ (registers = [] -> status' = status)
    /\ (registers <> [] -> status' <> None).
Proof.
  induction 1 as [|r registers Hr _ IH]; intros status d.
  - exists d, status, []. cbn. rewrite app_nil_r. repeat split; try constructor.
    intros H. now destruct H.
  - destruct (register_value_writes r Hr) as [Hbytes Hvalid].
    destruct (_set_register_bytes Hwb _ _ _ d Hvalid Hbytes) as (d1 & st & reply & Hs & Hlog1).
    destruct (IH (Some st) d1) as (d' & status' & new & Hloop & Hlog & Hall & Hnil & Hcons).
    exists d', status', (Ev_xfer2 (Z.lor 0x20 (ADDRESS (reg_cls r)) :: register_bytes r)
                                  (Ok reply) :: new).
    cbn [_set_registers_loop]. unfold bind at 1. rewrite Hs.
    split; [exact Hloop|]. split; [|split; [|split]].
    + rewrite Hlog, Hlog1. now rewrite <- app_assoc.
    + constructor; [now exists reply | exact Hall].
    + discriminate.
    + intros _. destruct registers as [|r' registers'].
      * rewrite Hnil by reflexivity. discriminate.
      * apply Hcons. discriminate.
Qed.

Lemma _set_registers_values (registers : list _Register) (d : device S) :
  Forall is_register_value registers ->
  NoDup (map (fun r => ADDRESS (reg_cls r)) registers) ->
  exists d' status' new,
    _set_registers registers d = (d', Ok status')
    /\ log d' = log d ++ new
    /\ Forall2 is_register_write registers new
    /\ (registers = [] -> status' = None)
    /\ (registers <> [] -> status' <> None).
Proof.
  intros Hv Hnd. unfold _set_registers.
  unfold bind at 1. unfold lift at 1.
  rewrite bool_decide_true.
  - cbn [assert]. now apply _set_registers_loop_values.
  - rewrite size_list_to_set by exact Hnd. apply length_map.
Qed.

End WritingRegisters.

(** *** The validation phase of [set] *)

Lemma ior_field_error (s : _RegisterFieldSet) (f : _RegisterField) :
  match ior_field s f with
  | Ok s' => rfs_fields s' = rfs_fields s ++ [f]
  | Raise e => ConflictError e
  | Blocked => False
  end.
Proof.
  unfold ior_field, get_register_name.
  destruct (rfs_fields s) as [|h l] eqn:Hl; cbn.
  - reflexivity.
  - destruct (REGISTER_ADDRESS (field_cls f) =? REGISTER_ADDRESS (field_cls h)); cbn.
    + match goal with |- context [assert ?b _] => destruct b end; cbn;
        [reflexivity | right; now left].
    + now left.
Qed.

Lemma ior_fields_error (l : list _RegisterField) (s : _RegisterFieldSet) :
  match ior_fields s l with
  | Ok s' => rfs_fields s' = rfs_fields s ++ l
  | Raise e => ConflictError e
  | Blocked => False
  end.
Proof.
  revert s. induction l as [|f l IH]; intros s; cbn.
  - now rewrite app_nil_r.
  - pose proof (ior_field_error s f) as Hf.
    destruct (ior_field s f) as [s1|e|]; cbn; [|exact Hf|exact Hf].
    specialize (IH s1). destruct (ior_fields s1 l) as [s'|e|]; [|exact IH|exact IH].
    rewrite IH, Hf. now rewrite <- app_assoc.
Qed.

Lemma ior_field_inv (a : Z) (s s' : _RegisterFieldSet) (f : _RegisterField) :
  set_inv a s -> is_field_value f -> REGISTER_ADDRESS (field_cls f) = a ->
  ior_field s f = Ok s' -> set_inv a s'.
Proof.
  intros [Hinv Ha] Hf Hfa Hior.
  pose proof (field_set_insertion s f Hinv Hf) as (_ & _ & _ & Hok).
  destruct (Hok s' Hior) as [Hinv' _]. split; [exact Hinv'|].
  pose proof (ior_field_error s f) as He. rewrite Hior in He. rewrite He.
  intros g Hg. apply elem_of_app in Hg as [Hg|Hg]; [now apply Ha|].
  apply list_elem_of_singleton in Hg. now subst.
Qed.

Lemma ior_fields_inv (a : Z) (l : list _RegisterField) :
  Forall is_field_value l ->
  (forall g, g ∈ l -> REGISTER_ADDRESS (field_cls g) = a) ->
  forall s s', set_inv a s -> ior_fields s l = Ok s' -> set_inv a s'.
Proof.
  induction 1 as [|f l Hf _ IH]; intros Ha s s' Hs Hior; cbn in Hior.
  - now injection Hior as <-.
  - destruct (ior_field s f) as [s1|e|] eqn:H1; cbn in Hior; try discriminate.
    apply (IH (fun g Hg => Ha g (list_elem_of_further _ _ _ Hg)) s1 s'); [|exact Hior].
    apply (ior_field_inv a s s1 f); auto. apply Ha. now left.
Qed.

Lemma set_inv_empty (a : Z) : set_inv a (_RegisterFieldSet__init__ None).
Proof. split; [apply fs_inv_nil|]. intros g Hg. now apply not_elem_of_nil in Hg. Qed.

Lemma set_merge_inv (r : field_or_fieldset) (register_field : _RegisterField)
    (registers : gmap Z _Register) (sets sets' : gmap Z _RegisterFieldSet) :
  match r with
  | AField f => is_field_value f /\ register_field = f
  | AFieldSet s => fs_inv (rfs_fields s) /\ head (rfs_fields s) = Some register_field
  end ->
  sets_inv sets ->
  set_merge r register_field registers sets = Ok sets' ->
  sets_inv sets'
  /\ registers !! REGISTER_ADDRESS (field_cls register_field) = None.
Proof.
  intros Hr Hsets. unfold set_merge.
  set (a := REGISTER_ADDRESS (field_cls register_field)).
  destruct (registers !! a) eqn:Hreg; cbn [is_None assert rbind]; [discriminate|].
  set (rfs := default (_RegisterFieldSet__init__ None) (sets !! a)).
  assert (Hrfs : set_inv a rfs).
  { unfold rfs. destruct (sets !! a) as [s0|] eqn:Hs0; cbn.
    - now apply (Hsets a s0).
    - apply set_inv_empty. }
  destruct (__ior__ rfs r) as [rfs'|e|] eqn:Hior; cbn [rbind]; try discriminate.
  intros [= <-]. split; [|reflexivity].
  assert (Hnew : rfs_fields rfs' <> [] /\ set_inv a rfs').
  { destruct r as [f|s]; cbn in Hior.
    - destruct Hr as [Hf ->]. split.
      + pose proof (ior_field_error rfs f) as He. rewrite Hior in He. rewrite He.
        now destruct (rfs_fields rfs).
      + now apply (ior_field_inv a rfs rfs' f).
    - destruct Hr as [Hinv Hhead]. split.
      + pose proof (ior_fields_error (rfs_fields s) rfs) as He. rewrite Hior in He.
        rewrite He. destruct (rfs_fields s); [discriminate|]. now destruct (rfs_fields rfs).
      + refine (ior_fields_inv a (rfs_fields s) (proj1 Hinv) _ rfs rfs' Hrfs Hior).
        intros g Hg. destruct Hinv as (_ & Hsame & _).
        destruct (rfs_fields s) as [|h l] eqn:Hl; [discriminate|].
        injection Hhead as <-. apply Hsame; [exact Hg | now left]. }
  intros b s. rewrite lookup_insert. case_decide as Hb.
  - intros [= <-]. now subst b.
  - apply Hsets.
Qed.

Lemma set_registers_dict_inv (items : list item) :
  Forall is_item_value items ->
  forall registers registers',
    registers_inv registers ->
    set_registers_dict items registers = Ok registers' ->
    registers_inv registers'
    /\ (forall a, is_Some (registers !! a) -> is_Some (registers' !! a))
    /\ (forall r, IRegister r ∈ items ->
          is_Some (registers' !! ADDRESS (reg_cls r))
          /\ registers !! ADDRESS (reg_cls r) = None).
Proof.
  induction 1 as [|it items Hit _ IH]; intros registers registers' Hinv Hd; cbn in Hd.
  - injection Hd as <-. split; [exact Hinv|]. split; [auto|].
    intros r Hr. now apply not_elem_of_nil in Hr.
  - destruct it as [r|f|s].
    + destruct (registers !! ADDRESS (reg_cls r)) eqn:Hr; cbn in Hd; [discriminate|].
      assert (Hinv1 : registers_inv (<[ADDRESS (reg_cls r) := r]> registers)).
      { intros a r'. rewrite lookup_insert. case_decide as Ha.
        - intros [= <-]. split; [exact Hit | congruence].
        - apply Hinv. }
      destruct (IH _ _ Hinv1 Hd) as (Hinv' & Hmono & Hall).
      split; [exact Hinv'|]. split.
      * intros a Ha. apply Hmono. rewrite lookup_insert. case_decide; [eauto | exact Ha].
      * intros r' Hr'. apply elem_of_cons in Hr' as [[= ->]|Hr'].
        -- split; [|exact Hr]. apply Hmono. rewrite lookup_insert_eq. eauto.
        -- destruct (Hall r' Hr') as [Hsome Hnone]. split; [exact Hsome|].
           rewrite lookup_insert in Hnone. now case_decide.
    + destruct (IH _ _ Hinv Hd) as (Hinv' & Hmono & Hall).
      split; [exact Hinv'|]. split; [exact Hmono|].
      intros r' Hr'. apply elem_of_cons in Hr' as [?|Hr']; [discriminate | now apply Hall].
    + destruct (IH _ _ Hinv Hd) as (Hinv' & Hmono & Hall).
      split; [exact Hinv'|]. split; [exact Hmono|].
      intros r' Hr'. apply elem_of_cons in Hr' as [?|Hr']; [discriminate | now apply Hall].
Qed.

Lemma set_field_sets_dict_inv (registers : gmap Z _Register) (items : list item) :
  Forall is_item_value items ->
  forall sets sets',
    sets_inv sets ->
    set_field_sets_dict items registers sets = Ok sets' ->
    sets_inv sets'
    /\ forall it a, it ∈ items -> item_address it = Some a -> registers !! a = None.
Proof.
  induction 1 as [|it items Hit _ IH]; intros sets sets' Hinv Hd; cbn in Hd.
  - injection Hd as <-. split; [exact Hinv|]. intros it a H. now apply not_elem_of_nil in H.
  - destruct it as [r|f|s].
    + destruct (IH _ _ Hinv Hd) as [Hinv' Hall]. split; [exact Hinv'|].
      intros it a Hin Ha. apply elem_of_cons in Hin as [->|Hin]; [discriminate|].
      now apply (Hall it).
    + destruct (set_merge (AField f) f registers sets) as [sets1|e|] eqn:Hm; cbn in Hd;
        try discriminate.
      destruct (set_merge_inv (AField f) f _ _ _ (conj Hit eq_refl) Hinv Hm)
        as [Hinv1 Hnone].
      destruct (IH _ _ Hinv1 Hd) as [Hinv' Hall]. split; [exact Hinv'|].
      intros it a Hin Ha. apply elem_of_cons in Hin as [->|Hin]; [|now apply (Hall it)].
      cbn in Ha. now injection Ha as <-.
    + destruct Hit as [Hne Hfs]. unfold first_field in Hd.
      destruct (rfs_fields s) as [|h l] eqn:Hl; [now destruct Hne|]. cbn in Hd.
      destruct (set_merge (AFieldSet s) h registers sets) as [sets1|e|] eqn:Hm; cbn in Hd;
        try discriminate.
      assert (Hr : fs_inv (rfs_fields s) /\ head (rfs_fields s) = Some h)
        by (rewrite Hl; split; [exact Hfs | reflexivity]).
      destruct (set_merge_inv (AFieldSet s) h _ _ _ Hr Hinv Hm) as [Hinv1 Hnone].
      destruct (IH _ _ Hinv1 Hd) as [Hinv' Hall]. split; [exact Hinv'|].
      intros it a Hin Ha. apply elem_of_cons in Hin as [->|Hin]; [|now apply (Hall it)].
      cbn in Ha. rewrite Hl in Ha. cbn in Ha. now injection Ha as <-.
Qed.

(** Errors of the validation phase on well-formed arguments are conflicts,
    apart from the empty call. *)
Lemma set_registers_dict_error (items : list item) (registers : gmap Z _Register) :
  match set_registers_dict items registers with
  | Ok _ => True
  | Raise e => ConflictError e
  | Blocked => False
  end.
Proof.
  revert registers. induction items as [|[r|f|s] items IH]; intros registers; cbn;
    [exact I| |apply IH|apply IH].
  destruct (registers !! ADDRESS (reg_cls r)); cbn; [right; right; now left | apply IH].
Qed.

Lemma set_merge_error (r : field_or_fieldset) (register_field : _RegisterField)
    (registers : gmap Z _Register) (sets : gmap Z _RegisterFieldSet) :
  match set_merge r register_field registers sets with
  | Ok _ => True
  | Raise e => ConflictError e
  | Blocked => False
  end.
Proof.
  unfold set_merge.
  destruct (registers !! REGISTER_ADDRESS (field_cls register_field));
    cbn [is_None assert rbind]; [right; right; now right|].
  set (rfs := default _ _).
  destruct r as [f|s]; cbn.
  - pose proof (ior_field_error rfs f) as H. now destruct (ior_field rfs f).
  - pose proof (ior_fields_error (rfs_fields s) rfs) as H.
    now destruct (ior_fields rfs (rfs_fields s)).
Qed.

Lemma set_field_sets_dict_error (registers : gmap Z _Register) (items : list item) :
  Forall is_item_value items ->
  forall sets,
  match set_field_sets_dict items registers sets with
  | Ok _ => True
  | Raise e => ConflictError e
  | Blocked => False
  end.
Proof.
  induction 1 as [|it items Hit _ IH]; intros sets; cbn; [exact I|].
  destruct it as [r|f|s]; [apply IH| |].
  - pose proof (set_merge_error (AField f) f registers sets) as H.
    destruct (set_merge (AField f) f registers sets); cbn; [apply IH | exact H | exact H].
  - destruct Hit as [Hne _]. unfold first_field.
    destruct (rfs_fields s) as [|h l] eqn:Hl; [now destruct Hne|]. cbn.
    pose proof (set_merge_error (AFieldSet s) h registers sets) as H.
    destruct (set_merge (AFieldSet s) h registers sets); cbn; [apply IH | exact H | exact H].
Qed.

Lemma set_plan_error (items : list item) :
  Forall is_item_value items ->
  match set_plan items with
  | Ok (registers, sets) => registers_inv registers /\ sets_inv sets
  | Raise e => items = [] \/ ConflictError e
  | Blocked => False
  end.
Proof.
  intros Hitems. unfold set_plan.
  destruct items as [|it items]; [now left|].
  replace (1 <=? Z.of_nat (length (it :: items))) with true
    by (symmetry; apply Z.leb_le; cbn [length]; lia).
  cbn [assert rbind].
  pose proof (set_registers_dict_error (it :: items) ∅) as Hr.
  destruct (set_registers_dict (it :: items) ∅) as [registers|e|] eqn:Hd;
    [|now right|exact Hr]. cbn [rbind].
  pose proof (set_field_sets_dict_error registers (it :: items) Hitems ∅) as Hf.
  destruct (set_field_sets_dict (it :: items) registers ∅) as [sets|e|] eqn:Hs;
    [|now right|exact Hf]. cbn [rbind].
  split.
  - eapply set_registers_dict_inv; [exact Hitems| |exact Hd].
    intros a r H. now rewrite lookup_empty in H.
  - eapply set_field_sets_dict_inv; [exact Hitems| |exact Hs].
    intros a s H. now rewrite lookup_empty in H.
Qed.

Lemma set_registers_dict_fresh (items : list item) :
  forall registers regs,
    set_registers_dict items registers = Ok regs ->
    forall r, IRegister r ∈ items -> registers !! ADDRESS (reg_cls r) = None.
Proof.
  induction items as [|it items IH]; intros registers regs Hd r Hr;
    [now apply not_elem_of_nil in Hr|].
  apply elem_of_cons in Hr as [<-|Hr]; cbn in Hd.
  - now destruct (registers !! ADDRESS (reg_cls r)).
  - destruct it as [r0|f|s]; try now apply (IH registers regs).
    destruct (registers !! ADDRESS (reg_cls r0)); cbn in Hd; [discriminate|].
    pose proof (IH _ regs Hd r Hr) as Hnone.
    rewrite lookup_insert in Hnone. now case_decide.
Qed.

(** Two whole-register arguments of an accepted call name different
    registers. *)
Lemma set_registers_dict_distinct (items : list item) :
  forall registers regs,
    set_registers_dict items registers = Ok regs ->
    forall (i j : nat) r1 r2,
      i <> j -> items !! i = Some (IRegister r1) -> items !! j = Some (IRegister r2) ->
      ADDRESS (reg_cls r1) <> ADDRESS (reg_cls r2).
Proof.
  induction items as [|it items IH]; intros registers regs Hd i j r1 r2 Hij Hi Hj;
    [discriminate|].
  assert (Hhead : forall r r' (k : nat),
            it = IRegister r -> items !! k = Some (IRegister r') ->
            ADDRESS (reg_cls r) <> ADDRESS (reg_cls r')).
  { intros r r' k -> Hk Heq. cbn in Hd.
    destruct (registers !! ADDRESS (reg_cls r)); cbn in Hd; [discriminate|].
    assert (Hin : IRegister r' ∈ items) by (apply list_elem_of_lookup; now exists k).
    pose proof (set_registers_dict_fresh items _ regs Hd r' Hin) as Hnone.
    rewrite <- Heq, lookup_insert_eq in Hnone. discriminate. }
  destruct i as [|i], j as [|j]; cbn in Hi, Hj.
  - contradiction.
  - injection Hi as Hi. now apply (Hhead r1 r2 j).
  - injection Hj as Hj. intros Heq. now apply (Hhead r2 r1 i).
  - assert (Hd' : exists registers', set_registers_dict items registers' = Ok regs).
    { destruct it as [r0|f|s]; cbn in Hd; eauto.
      destruct (registers !! ADDRESS (reg_cls r0)); cbn in Hd; [discriminate | eauto]. }
    destruct Hd' as [registers' Hd'].
    apply (IH registers' regs Hd' i j); [congruence | assumption | assumption].
Qed.

(** *** [set] on the bus *)

Section Setting.

Context {S : Type} {spi : Spi S} {order : IterOrder}.

Lemma omap_lookup_Forall2 {A} (m : gmap Z A) (keys : list Z) :
  (forall k, k ∈ keys -> is_Some (m !! k)) ->
  Forall2 (fun k v => m !! k = Some v) keys (omap (fun k => m !! k) keys).
Proof.
  induction keys as [|k keys IH]; intros Hk; cbn; [constructor|].
  destruct (Hk k (list_elem_of_here _ _)) as [v Hv]. rewrite Hv.
  constructor; [exact Hv|]. apply IH. intros k' Hk'. apply Hk. now right.
Qed.

(** [d.values()]: the values at the keys of [d], each key once. *)
Lemma dict_values_keys {A} (m : gmap Z A) :
  exists keys, NoDup keys /\ Forall2 (fun k v => m !! k = Some v) keys (dict_values m).
Proof.
  exists (iter_order (elements (dom m))). split.
  - rewrite (iter_order_perm (elements (dom m))). apply NoDup_elements.
  - apply omap_lookup_Forall2. intros k Hk.
    rewrite (iter_order_perm (elements (dom m))) in Hk.
    now apply elem_of_elements, elem_of_dom in Hk.
Qed.

Lemma dict_values_registers (registers : gmap Z _Register) :
  registers_inv registers ->
  Forall is_register_value (dict_values registers)
  /\ NoDup (map (fun r => ADDRESS (reg_cls r)) (dict_values registers)).
Proof.
  intros Hinv. destruct (dict_values_keys registers) as (keys & Hnd & Hall).
  split.
  - apply Forall_forall. intros r Hr.
    destruct (proj1 (list_elem_of_lookup _ _) Hr) as [i Hi].
    destruct (Forall2_lookup_r _ _ _ _ _ Hall Hi) as (k & _ & Hk).
    now apply (Hinv k r).
  - replace (map (fun r => ADDRESS (reg_cls r)) (dict_values registers)) with keys;
      [exact Hnd|].
    clear Hnd. induction Hall as [|k r keys rs Hk _ IH]; [reflexivity|].
    cbn. rewrite <- IH. f_equal. symmetry. now apply (Hinv k r).
Qed.

Lemma dict_values_sets (sets : gmap Z _RegisterFieldSet) :
  sets_inv sets ->
  Forall (fun s => exists a m v, ready s a m v) (dict_values sets).
Proof.
  intros Hinv. destruct (dict_values_keys sets) as (keys & _ & Hall).
  apply Forall_forall. intros s Hs.
  destruct (proj1 (list_elem_of_lookup _ _) Hs) as [i Hi].
  destruct (Forall2_lookup_r _ _ _ _ _ Hall Hi) as (k & _ & Hk).
  destruct (Hinv k s Hk) as [Hne [Hfs _]].
  destruct (rfs_fields s) as [|f l] eqn:Hl; [now destruct Hne|].
  eexists _, _, _. apply (fs_inv_ready s f l Hl). now rewrite Hl.
Qed.

Lemma set_of_plan (items : list item) (d : device S) :
  set items d
  = match set_plan items with
    | Ok (registers, register_field_sets) =>
        (maybe_status_1 <- _set_registers (dict_values registers) ;;
         maybe_status_2 <- _set_fields (map AFieldSet (dict_values register_field_sets)) ;;
         match maybe_status_2 with
         | Some _ => ret maybe_status_2
         | None => ret maybe_status_1
         end)%dev d
    | Raise e => (d, Raise e)
    | Blocked => (d, Blocked)
    end.
Proof.
  unfold set, set_plan. unfold bind at 1. unfold lift at 1.
  destruct (assert (1 <=? Z.of_nat (length items)) "") as [[]|e|]; cbn [rbind];
    try reflexivity.
  unfold bind at 1. unfold lift at 1.
  destruct (set_registers_dict items ∅) as [registers|e|]; cbn [rbind]; try reflexivity.
  unfold bind at 1. unfold lift at 1.
  destruct (set_field_sets_dict items registers ∅) as [sets|e|]; cbn [rbind]; reflexivity.
Qed.

Lemma step_events_field_write (s : _RegisterFieldSet) (a m v : Z) (evs : list event) :
  ready s a m v -> step_events a m v evs -> field_write s evs.
Proof.
  intros Hr Hev. exists a, m, v. split; [exact Hr|]. unfold step_events in Hev.
  destruct (decide (m = 0xFF)) as [Hm|Hm]; split; try contradiction; intros _.
  - exact Hev.
  - destruct Hev as (reply_r & old & reply_w & -> & Hold).
    exists reply_r, old, reply_w, (Z.lor v (Z.land old (Z.lnot m))).
    destruct Hr as (_ & Hmask & Hval & _).
    destruct (merge_bits v old m (get_value_within s m v Hmask Hval)) as [H1 H2].
    repeat split; assumption.
Qed.

Hypothesis Hwb : well_behaved.

(** The bus phase of [set] on a validated plan. *)
Lemma set_bus_phase (items : list item) (d : device S)
    (registers : gmap Z _Register) (sets : gmap Z _RegisterFieldSet) :
  set_plan items = Ok (registers, sets) ->
  registers_inv registers -> sets_inv sets ->
  exists d' status reg_events chunks,
    set items d = (d', Ok status)
    /\ log d' = log d ++ reg_events ++ concat chunks
    /\ Forall2 is_register_write (dict_values registers) reg_events
    /\ Forall2 field_write (dict_values sets) chunks.
Proof.
  intros Hplan Hregs Hsets. rewrite set_of_plan, Hplan.
  destruct (dict_values_registers registers Hregs) as [Hvals Hnd].
  destruct (_set_registers_values Hwb (dict_values registers) d Hvals Hnd)
    as (d1 & st1 & reg_events & Hr & Hlog1 & Hall1 & _).
  destruct (_set_fields_loop_ready Hwb (dict_values sets) (dict_values_sets sets Hsets) None d1)
    as (d' & st2 & chunks & Hf & Hlog2 & Hall2 & _).
  unfold bind at 1. rewrite Hr. unfold bind at 1. unfold _set_fields. rewrite Hf.
  exists d', (match st2 with Some _ => st2 | None => st1 end), reg_events, chunks.
  split; [now destruct st2|]. split; [|split; [exact Hall1|]].
  - rewrite Hlog2, Hlog1. now rewrite <- app_assoc.
  - eapply Forall2_impl; [exact Hall2|].
    intros s evs (a & m & v & Hready & Hev). now apply (step_events_field_write s a m v).
Qed.

Lemma dict_values_empty {A} : dict_values (∅ : gmap Z A) = [].
Proof. unfold dict_values. now rewrite dom_empty_L, elements_empty, iter_order_nil. Qed.

Lemma dict_values_singleton {A} (a : Z) (x : A) :
  dict_values ({[a := x]} : gmap Z A) = [x].
Proof.
  unfold dict_values. rewrite dom_singleton_L, elements_singleton, iter_order_singleton.
  cbn. now rewrite lookup_singleton_eq.
Qed.

Lemma _set_registers_nil (d : device S) : _set_registers [] d = (d, Ok None).
Proof. reflexivity. Qed.

(** The mask and the value [_set_fields] computes are the combined mask
    and the combined value of the fields. *)
Lemma _get_mask_bits (c : field_class) : _get_mask c = field_bits c.
Proof.
  unfold _get_mask, _get_unshifted_mask, field_bits. now rewrite Z.shiftl_1_l.
Qed.

Lemma mask_union_combined (l : list _RegisterField) : mask_union l = combined_mask l.
Proof.
  unfold mask_union, combined_mask. induction l as [|f l IH]; cbn; [reflexivity|].
  now rewrite IH, _get_mask_bits.
Qed.

Lemma value_union_combined (l : list _RegisterField) : value_union l = combined_value l.
Proof. reflexivity. Qed.

(** The dictionaries of [set] hold what the arguments give. *)
Lemma set_plan_parts (items : list item)
    (registers : gmap Z _Register) (sets : gmap Z _RegisterFieldSet) :
  set_plan items = Ok (registers, sets) ->
  set_registers_dict items ∅ = Ok registers
  /\ set_field_sets_dict items registers ∅ = Ok sets.
Proof.
  unfold set_plan.
  destruct (assert (1 <=? Z.of_nat (length items)) "") as [[]| |]; cbn [rbind];
    try discriminate.
  destruct (set_registers_dict items ∅) as [regs| |]; cbn [rbind]; try discriminate.
  destruct (set_field_sets_dict items regs ∅) as [fsets| |] eqn:Hsets; cbn [rbind];
    try discriminate.
  intros [= <- <-]. now split.
Qed.

Lemma set_registers_dict_from (items : list item) :
  forall registers registers',
    set_registers_dict items registers = Ok registers' ->
    forall a r, registers' !! a = Some r ->
                registers !! a = Some r \/ IRegister r ∈ items.
Proof.
  induction items as [|[r0|f|s] items IH]; intros registers registers' H a r Hr; cbn in H.
  - injection H as <-. now left.
  - destruct (is_None (registers !! ADDRESS (reg_cls r0))); cbn in H; [|discriminate].
    destruct (IH _ _ H a r Hr) as [Hin|Hin]; [|right; now right].
    destruct (decide (ADDRESS (reg_cls r0) = a)) as [<-|Hne].
    + rewrite lookup_insert_eq in Hin. injection Hin as <-. right. now left.
    + rewrite lookup_insert_ne in Hin by exact Hne. now left.
  - destruct (IH _ _ H a r Hr) as [Hin|Hin]; [now left | right; now right].
  - destruct (IH _ _ H a r Hr) as [Hin|Hin]; [now left | right; now right].
Qed.

Lemma ior_fields_of (rfs rfs' : _RegisterFieldSet) (r : field_or_fieldset) :
  __ior__ rfs r = Ok rfs' -> rfs_fields rfs' = rfs_fields rfs ++ fields_of r.
Proof.
  destruct r as [f|s]; cbn; intros H.
  - pose proof (ior_field_error rfs f) as He. now rewrite H in He.
  - pose proof (ior_fields_error (rfs_fields s) rfs) as He. now rewrite H in He.
Qed.

Lemma set_merge_fields (r : field_or_fieldset) (register_field : _RegisterField)
    (registers : gmap Z _Register) (sets sets' : gmap Z _RegisterFieldSet) :
  set_merge r register_field registers sets = Ok sets' ->
  forall b,
    fields_at sets' b
    = fields_at sets b
      ++ (if decide (Some (REGISTER_ADDRESS (field_cls register_field)) = Some b)
          then fields_of r else [])
    /\ (is_Some (sets' !! b)
        <-> is_Some (sets !! b) \/ REGISTER_ADDRESS (field_cls register_field) = b).
Proof.
  unfold set_merge.
  destruct (is_None (registers !! _)); cbn [assert rbind]; [|discriminate].
  destruct (__ior__ _ r) as [rfs'| |] eqn:Hior; cbn [rbind]; try discriminate.
  intros [= <-] b. apply ior_fields_of in Hior. unfold fields_at.
  destruct (decide (REGISTER_ADDRESS (field_cls register_field) = b)) as [<-|Hne].
  - rewrite lookup_insert_eq, decide_True by reflexivity. split.
    + rewrite Hior. now destruct (sets !! _).
    + split; [now right | eauto].
  - rewrite lookup_insert_ne, decide_False by congruence.
    split; [now rewrite app_nil_r | tauto].
Qed.

Lemma set_field_sets_dict_fields (registers : gmap Z _Register) (items : list item) :
  forall sets sets',
    set_field_sets_dict items registers sets = Ok sets' ->
    forall b,
      fields_at sets' b = fields_at sets b ++ fields_for b items
      /\ (is_Some (sets' !! b)
          <-> is_Some (sets !! b) \/ exists it, it ∈ items /\ item_address it = Some b).
Proof.
  induction items as [|[r|f|s] items IH]; intros sets sets' H b; cbn in H.
  - injection H as <-. cbn. rewrite app_nil_r. split; [reflexivity|].
    split; [tauto|]. intros [?|(it & Hit & _)]; [assumption|].
    now apply elem_of_nil in Hit.
  - destruct (IH _ _ H b) as [Hf Hd]. split; [exact Hf|]. rewrite Hd.
    split; intros [?|(it & Hit & Ha)]; try tauto; right; exists it.
    + split; [now right | exact Ha].
    + apply elem_of_cons in Hit as [->|Hit]; [discriminate | now split].
  - destruct (set_merge (AField f) f registers sets) as [sets1| |] eqn:Hm; cbn in H;
      try discriminate.
    destruct (IH _ _ H b) as [Hf Hd]. destruct (set_merge_fields _ _ _ _ _ Hm b) as [Hf1 Hd1].
    split.
    + rewrite Hf, Hf1, <- app_assoc. reflexivity.
    + rewrite Hd, Hd1. split.
      * intros [[?|<-]|(it & Hit & Ha)]; [tauto| |].
        -- right. exists (IField f). split; [now left | reflexivity].
        -- right. exists it. split; [now right | exact Ha].
      * intros [?|(it & Hit & Ha)]; [tauto|].
        apply elem_of_cons in Hit as [->|Hit]; [|right; eauto].
        left. right. cbn in Ha. congruence.
  - destruct (first_field s) as [f| |] eqn:Hfirst; cbn in H; try discriminate.
    destruct (set_merge (AFieldSet s) f registers sets) as [sets1| |] eqn:Hm; cbn in H;
      try discriminate.
    assert (Haddr : item_address (IFieldSet s) = Some (REGISTER_ADDRESS (field_cls f))).
    { unfold first_field in Hfirst. cbn. destruct (rfs_fields s); [discriminate|].
      now injection Hfirst as <-. }
    destruct (IH _ _ H b) as [Hf Hd]. destruct (set_merge_fields _ _ _ _ _ Hm b) as [Hf1 Hd1].
    split.
    + rewrite Hf, Hf1, <- app_assoc. cbn [fields_for flat_map]. now rewrite Haddr.
    + rewrite Hd, Hd1. split.
      * intros [[?|<-]|(it & Hit & Ha)]; [tauto| |].
        -- right. exists (IFieldSet s). split; [now left | exact Haddr].
        -- right. exists it. split; [now right | exact Ha].
      * intros [?|(it & Hit & Ha)]; [tauto|].
        apply elem_of_cons in Hit as [->|Hit]; [|right; eauto].
        left. right. congruence.
Qed.

Lemma set_plan_fields (items : list item)
    (registers : gmap Z _Register) (sets : gmap Z _RegisterFieldSet) :
  set_plan items = Ok (registers, sets) ->
  (forall a r, registers !! a = Some r -> IRegister r ∈ items)
  /\ forall b,
       fields_at sets b = fields_for b items
       /\ (is_Some (sets !! b) <-> exists it, it ∈ items /\ item_address it = Some b).
Proof.
  intros Hplan. destruct (set_plan_parts _ _ _ Hplan) as [Hregs Hsets]. split.
  - intros a r Hr.
    destruct (set_registers_dict_from _ _ _ Hregs a r Hr) as [Hin|Hin]; [|exact Hin].
    now rewrite lookup_empty in Hin.
  - intros b. destruct (set_field_sets_dict_fields _ _ _ _ Hsets b) as [Hf Hd].
    unfold fields_at in Hf at 2. rewrite lookup_empty in Hf. split; [exact Hf|].
    rewrite Hd. rewrite lookup_empty. split; [|eauto].
    intros [[? ?]|?]; [discriminate | assumption].
Qed.

(** [d.values()] with its keys. *)
Lemma dict_values_dom {A} (m : gmap Z A) :
  let keys := iter_order (elements (dom m)) in
  NoDup keys
  /\ (forall a, a ∈ keys <-> is_Some (m !! a))
  /\ Forall2 (fun k v => m !! k = Some v) keys (dict_values m).
Proof.
  assert (Hkeys : forall a, a ∈ iter_order (elements (dom m)) <-> is_Some (m !! a)).
  { intros a. rewrite (iter_order_perm (elements (dom m))), elem_of_elements.
    apply elem_of_dom. }
  split; [|split].
  - rewrite (iter_order_perm (elements (dom m))). apply NoDup_elements.
  - exact Hkeys.
  - apply omap_lookup_Forall2. intros k Hk. now apply Hkeys.
Qed.

Lemma Forall2_compose {A B C} (P : A -> B -> Prop) (Q : B -> C -> Prop)
    (R : A -> C -> Prop) (l : list A) (k : list B) (m : list C) :
  Forall2 P l k -> Forall2 Q k m -> (forall x y z, P x y -> Q y z -> R x z) ->
  Forall2 R l m.
Proof.
  intros HP. revert m. induction HP as [|x y l k Hxy _ IH]; intros m HQ HR;
    inversion HQ; subst; constructor; eauto.
Qed.

Lemma Forall2_Forall_r {A B} (P : A -> B -> Prop) (Q : A -> Prop) (R : B -> Prop)
    (l : list A) (k : list B) :
  Forall2 P l k -> Forall Q l -> (forall x y, P x y -> Q x -> R y) -> Forall R k.
Proof.
  induction 1 as [|x y l k Hxy _ IH]; intros HQ HR; [constructor|].
  inversion HQ; subst. constructor; eauto.
Qed.

(** A round of [_set_fields] for the set filed under [k], in terms of the
    fields the arguments give for [k]. *)
Lemma field_write_read_modify_write (items : list item)
    (sets : gmap Z _RegisterFieldSet) (k : Z) (s : _RegisterFieldSet) (evs : list event) :
  sets_inv sets -> (forall b, fields_at sets b = fields_for b items) ->
  sets !! k = Some s -> field_write s evs ->
  read_modify_write k (fields_for k items) evs.
Proof.
  intros Hinv Hfields Hk (a & m & v & (Ha & Hm & Hv & _) & Hfull & Hpart).
  destruct (Hinv k s Hk) as [Hne [Hfs Haddr]].
  rewrite <- Hfields. unfold fields_at. rewrite Hk.
  rewrite (get_mask_ok s Hfs) in Hm. injection Hm as <-.
  rewrite (get_value_ok s Hfs) in Hv. injection Hv as <-.
  assert (a = k) as ->.
  { unfold get_register_address in Ha. destruct (rfs_fields s) as [|f l] eqn:Hl;
      [discriminate|]. injection Ha as <-. apply Haddr. now left. }
  pose proof (value_within_mask (rfs_fields s) (proj1 Hfs)) as Hwithin.
  rewrite mask_union_combined, value_union_combined in *.
  unfold read_modify_write. destruct (decide (combined_mask (rfs_fields s) = 0xFF)) as [He|He].
  - exact (Hfull He).
  - destruct (Hpart He) as (reply_r & old & reply_w & written & Hevs & Hold & Hwr & _).
    exists reply_r, old, reply_w, written. repeat split; try assumption.
    + intros i Hi Hbit. unfold within in Hwithin. bit_of Hwithin i.
      rewrite Hwr, Z.lor_spec, Z.land_spec, Z.lnot_spec by exact Hi.
      rewrite Hbit in *. rewrite andb_false_r in Hbit0. rewrite <- Hbit0.
      cbn. now rewrite andb_true_r.
    + intros i Hi Hbit.
      rewrite Hwr, Z.lor_spec, Z.land_spec, Z.lnot_spec by exact Hi.
      rewrite Hbit. cbn. now rewrite andb_false_r, orb_false_r.
Qed.

(** The example of the documentation, on any transport: the register
    SETUP_AW holds 0b10110000 and AW, bits 0 and 1, is written to 0b11. *)
Lemma set_AW_on_0xB0 (d : device S) (s' : S) (st : Z) :
  xfer2 (_spi d) [0x03; 0xFF] = (s', Ok [st; 0xB0]) ->
  exists d' status reply,
    set [IField (field_value AW 3)] d = (d', Ok (Some status))
    /\ log d' = log d ++ [Ev_xfer2 [0x03; 0xFF] (Ok [st; 0xB0]);
                          Ev_xfer2 [0x23; 0xB3] (Ok reply)].
Proof.
  intros Hx.
  set (s := {| rfs_fields := [field_value AW 3] |}).
  set (d1 := Device s' (_wait_info_cancellable d) (wait_infos d) (irq_callback d)
                    (clock d) (log d ++ [Ev_xfer2 [0x03; 0xFF] (Ok [st; 0xB0])])).
  assert (Hg : get_register 0x03 1 d = (d1, Ok (st, RInt 0xB0))).
  { unfold get_register. unfold bind at 1. unfold lift at 1.
    replace (_assert_valid_register_and_size 3 1) with (Ok tt) by (vm_compute; reflexivity).
    change (negb (3 =? ADDRESS REG_STATUS)) with true. cbn [negb].
    change (3 :: repeat _SPI_NOP (Z.to_nat 1)) with [0x03; 0xFF].
    unfold bind at 1. unfold spi_xfer2 at 1. rewrite Hx. reflexivity. }
  destruct (_set_register_bytes Hwb 0x03 (VInt 0xB3) [0xB3] d1)
    as (d' & status & reply & Hs & Hlog); [vm_compute; reflexivity | reflexivity |].
  assert (Hstep : _set_fields_step (AFieldSet s) d = (d', Ok status)).
  { unfold _set_fields_step.
    replace (get_register_address s) with (Ok (A := Z) 3) by reflexivity.
    replace (get_mask s) with (Ok (A := Z) 3) by (vm_compute; reflexivity).
    replace (get_value s) with (Ok (A := Z) 3) by (vm_compute; reflexivity).
    unfold bind at 1. unfold lift at 1.
    unfold bind at 1. unfold lift at 1.
    unfold bind at 1. unfold lift at 1.
    change (negb (3 =? 255)) with true. cbn [negb].
    unfold bind at 1. unfold bind at 1. rewrite Hg. cbn [snd]. unfold ret at 1.
    change (Z.lor 3 (Z.land 176 (Z.lnot 3))) with 0xB3. exact Hs. }
  exists d', status, reply. split.
  - rewrite set_of_plan.
    assert (Hplan : set_plan [IField (field_value AW 3)] = Ok (∅, {[0x03 := s]}))
      by (vm_compute; reflexivity).
    rewrite Hplan, dict_values_empty, dict_values_singleton.
    unfold bind at 1. rewrite _set_registers_nil.
    unfold bind at 1. unfold _set_fields. cbn [map _set_fields_loop].
    unfold bind at 1. now rewrite Hstep.
  - rewrite Hlog. unfold d1. cbn [log]. now rewrite <- app_assoc.
Qed.

(** C1.  Every field write of [set] whose combined mask is not 0xFF is a
    read of the register followed by a write of
    [value | (old & ~mask)], where the mask is the union of the bits of
    the fields given for the register and the value holds each field value
    at its place: every bit outside the mask keeps the value read, every
    bit under it takes the combined value.  In particular, a register
    holding 0b10110000 and AW (bits 0 and 1) written to 0b11 gives
    0b10110011. *)
Theorem set_partial_write_is_read_modify_write (items : list item) (d : device S) :
  Forall is_item_value items ->
  is_Ok (set_plan items) = true ->
  (exists d' status reg_events addresses chunks,
     set items d = (d', Ok status)
     /\ log d' = log d ++ reg_events ++ concat chunks
     /\ Forall (fun e => exists r, IRegister r ∈ items /\ is_register_write r e)
               reg_events
     /\ NoDup addresses
     /\ (forall a, a ∈ addresses <-> exists it, it ∈ items /\ item_address it = Some a)
     /\ Forall2 (fun a evs => read_modify_write a (fields_for a items) evs)
                addresses chunks)
  /\ (forall (s' : S) (st : Z),
        xfer2 (_spi d) [0x03; 0xFF] = (s', Ok [st; 0xB0]) ->
        exists d' status reply,
          set [IField (field_value AW 3)] d = (d', Ok (Some status))
          /\ log d' = log d ++ [Ev_xfer2 [0x03; 0xFF] (Ok [st; 0xB0]);
                                Ev_xfer2 [0x23; 0xB3] (Ok reply)]).
Proof.
  intros Hitems Hok. split; [|apply set_AW_on_0xB0].
  destruct (set_plan items) as [[registers sets]| |] eqn:Hplan; try discriminate.
  pose proof (set_plan_error items Hitems) as Hinv.
  rewrite Hplan in Hinv. destruct Hinv as [Hregs Hsets].
  destruct (set_plan_fields items registers sets Hplan) as [Hfrom Hfields].
  destruct (set_bus_phase items d registers sets Hplan Hregs Hsets)
    as (d' & status & reg_events & chunks & Hset & Hlog & Hrw & Hfw).
  destruct (dict_values_dom registers) as (_ & _ & Hrk).
  destruct (dict_values_dom sets) as (Hnd & Hkeys & Hsk).
  exists d', status, reg_events, (iter_order (elements (dom sets))), chunks.
  split; [exact Hset|]. split; [exact Hlog|]. split; [|split; [exact Hnd|split]].
  - apply (Forall2_Forall_r _ (fun r => IRegister r ∈ items) _ _ _ Hrw).
    + apply (Forall2_Forall_r _ (fun _ => True) _ _ _ Hrk).
      * apply Forall_forall. intros; exact I.
      * intros a r Hr _. now apply (Hfrom a r).
    + intros r e Hre Hr. now exists r.
  - intros a. rewrite Hkeys. apply Hfields.
  - apply (Forall2_compose _ _ _ _ _ _ Hsk Hfw). intros k s evs Hk Hw.
    apply (field_write_read_modify_write items sets k s evs Hsets); [|exact Hk|exact Hw].
    intros b. apply Hfields.
Qed.


End Setting.

(** C1 on a simulated chip whose SETUP_AW register holds 0b10110000:
    writing AW = 0b11 reads the register and writes 0b10110011. *)
Lemma set_partial_write_is_read_modify_write_witness :
  let items := [IField (field_value AW 3)] in
  let d := new_device (<[0x03 := 0xB0]> ∅ : gmap Z Z) in
  (exists d' status reg_events addresses chunks,
     set items d = (d', Ok status)
     /\ log d' = log d ++ reg_events ++ concat chunks
     /\ Forall (fun e => exists r, IRegister r ∈ items /\ is_register_write r e)
               reg_events
     /\ NoDup addresses
     /\ (forall a, a ∈ addresses <-> exists it, it ∈ items /\ item_address it = Some a)
     /\ Forall2 (fun a evs => read_modify_write a (fields_for a items) evs)
                addresses chunks)
  /\ (forall (s' : gmap Z Z) (st : Z),
        xfer2 (_spi d) [0x03; 0xFF] = (s', Ok [st; 0xB0]) ->
        exists d' status reply,
          set [IField (field_value AW 3)] d = (d', Ok (Some status))
          /\ log d' = log d ++ [Ev_xfer2 [0x03; 0xFF] (Ok [st; 0xB0]);
                                Ev_xfer2 [0x23; 0xB3] (Ok reply)]).
Proof.
  intros items d.
  apply (set_partial_write_is_read_modify_write sim_well_behaved items d).
  - repeat constructor. apply is_field_value_b_spec. vm_compute. reflexivity.
  - vm_compute. reflexivity.
Defined.

Example set_AW_example :
  log (set [IField (field_value AW 3)]
           (new_device (<[0x03 := 0xB0]> ∅ : gmap Z Z))).1
  = [Ev_xfer2 [0x03; 0xFF] (Ok [0; 0xB0]);        (* 0b10110000 *)
     Ev_xfer2 [0x23; 0xB3] (Ok [0; 0])].          (* 0b10110011 *)
Proof. vm_compute. reflexivity. Qed.

Lemma is_register_value_intro (cls : register_class) (v : regvalue) :
  bool_decide (cls ∈ module_registers) = true ->
  is_Ok (_Register__init__ cls (Some v)) = true ->
  is_register_value (register_value cls v).
Proof.
  intros Hc Hv. split; [now apply bool_decide_eq_true in Hc|]. exists v. cbn.
  unfold _Register__init__ in *. unfold register_value.
  destruct v as [z|l].
  - now destruct ((MIN_SIZE cls =? MAX_SIZE cls) && (MAX_SIZE cls =? 1) && is_byte z).
  - destruct ((MIN_SIZE cls =? MAX_SIZE cls) && (MAX_SIZE cls =? 1)); [discriminate|].
    match goal with |- (if ?b then _ else _) = _ => now destruct b end.
Qed.


(** Conflicting arguments are refused with the device untouched, in either
    order of the arguments. *)
Example set_conflict_examples :
  let d := new_device (∅ : gmap Z Z) in
  set [IRegister (register_value REG_RF_CH (RInt 5)); IField (field_value RF_CH 40)] d
  = (d, Raise (AssertionError "Register and RegisterField can't be written simultaneously"))
  /\ set [IField (field_value RF_CH 40); IRegister (register_value REG_RF_CH (RInt 5))] d
     = (d, Raise (AssertionError "Register and RegisterField can't be written simultaneously"))
  /\ set [IRegister (register_value REG_RF_CH (RInt 5));
          IRegister (register_value REG_RF_CH (RInt 6))] d
     = (d, Raise (AssertionError "Register specified twice"))
  /\ set [IField (field_value PWR_UP 1); IField (field_value PWR_UP 0)] d
     = (d, Raise (AssertionError "already included")).
Proof. repeat split; vm_compute; reflexivity. Qed.

(** The guarantee is for arguments that carry a value.  The constructors
    also accept no value at all; such an object passes validation and
    stops [set] on the bus phase, here after RF_CH has been written. *)
Remark set_without_value :
  _RegisterField__init__ PWR_UP None = Ok {| field_cls := PWR_UP; f_value := None |}
  /\ set [IRegister (register_value REG_RF_CH (RInt 5));
          IField {| field_cls := PWR_UP; f_value := None |}]
         (new_device (∅ : gmap Z Z))
     = ({| _spi := <[0x05 := 5]> ∅; _wait_info_cancellable := None; wait_infos := [];
           irq_callback := None; clock := 0;
           log := [Ev_xfer2 [0x25; 5] (Ok [0; 0])] |},
        Raise TypeError).
Proof. split; vm_compute; reflexivity. Qed.


(** *** The reset sequence *)

Lemma reset_ok_all : Forall reset_ok _REGISTERS.
Proof.
  unfold _REGISTERS.
  repeat (apply List.Forall_cons;
          [split;
           [vm_compute; reflexivity
           |first [left; split; vm_compute; reflexivity
                  |right; repeat split; vm_compute; reflexivity]]|]).
  apply List.Forall_nil.
Qed.

Lemma step_events_matches (a m v : Z) (evs : list event) :
  within v m -> step_events a m v evs -> Forall2 matches (steps_for a m v) evs.
Proof.
  intros Hw. unfold step_events, steps_for.
  destruct (decide (m = 0xFF)) as [->|Hm].
  - intros (reply & ->). cbn. repeat constructor. now exists reply.
  - apply Z.eqb_neq in Hm. rewrite Hm.
    intros (reply_r & old & reply_w & -> & _). repeat constructor.
    + now exists reply_r.
    + eexists _, reply_w. split; [reflexivity|]. now apply merge_bits.
Qed.

Section Reset.

Context {S : Type} {spi : Spi S} {order : IterOrder}.
Hypothesis Hwb : well_behaved.

#[local] Abbreviation runs := (runs (S := S)).

Lemma runs_bind {A B} (m : M S A) (k : A -> M S B) (s1 s2 : list step) :
  runs m s1 -> (forall x, runs (k x) s2) -> runs (bind m k) (s1 ++ s2).
Proof.
  intros Hm Hk d. destruct (Hm d) as (d1 & x & new1 & Hr1 & Hl1 & Hf1).
  destruct (Hk x d1) as (d' & y & new2 & Hr2 & Hl2 & Hf2).
  exists d', y, (new1 ++ new2). unfold bind. rewrite Hr1. split; [exact Hr2|].
  split; [rewrite Hl2, Hl1; now rewrite <- app_assoc | now apply Forall2_app].
Qed.

Lemma runs_ret {A} (x : A) : runs (ret x) [].
Proof. intros d. exists d, x, []. rewrite app_nil_r. repeat split. constructor. Qed.

Lemma runs_lift_bind {A B} (r : result A) (x : A) (k : A -> M S B) (s : list step) :
  r = Ok x -> runs (k x) s -> runs (bind (lift r) k) s.
Proof. intros -> Hk d. unfold bind, lift. apply Hk. Qed.

Lemma runs_chip_enable_low : runs chip_enable_low [SChipEnableLow].
Proof.
  intros d. eexists _, tt, [Ev_chip_enable_low]. unfold chip_enable_low, emit.
  split; [reflexivity|]. split; [reflexivity|]. now repeat constructor.
Qed.

Lemma runs_flush_tx_fifo : runs flush_tx_fifo [SExchange [0xE1]].
Proof.
  intros d. destruct (xfer2_reply Hwb [0xE1] d) as (d' & reply & Hx & Hlen & _ & Hlog).
  destruct reply as [|st reply]; [discriminate|].
  exists d', st, [Ev_xfer2 [0xE1] (Ok (st :: reply))]. unfold flush_tx_fifo, bind.
  rewrite Hx. split; [reflexivity|]. split; [exact Hlog|].
  repeat constructor. now eexists.
Qed.

Lemma runs_flush_rx_fifo : runs flush_rx_fifo [SExchange [0xE2]].
Proof.
  intros d. destruct (xfer2_reply Hwb [0xE2] d) as (d' & reply & Hx & Hlen & _ & Hlog).
  destruct reply as [|st reply]; [discriminate|].
  exists d', st, [Ev_xfer2 [0xE2] (Ok (st :: reply))]. unfold flush_rx_fifo, bind.
  rewrite Hx. split; [reflexivity|]. split; [exact Hlog|].
  repeat constructor. now eexists.
Qed.

Lemma runs_set_fieldset (s : _RegisterFieldSet) (a m v : Z) :
  set_plan [IFieldSet s] = Ok (∅, {[a := s]}) ->
  ready s a m v ->
  runs (set [IFieldSet s]) (steps_for a m v).
Proof.
  intros Hplan Hready d. rewrite set_of_plan, Hplan.
  rewrite dict_values_empty, dict_values_singleton.
  assert (Hs : Forall (fun s => exists a m v, ready s a m v) [s]).
  { constructor; [now exists a, m, v | constructor]. }
  destruct (_set_fields_loop_ready Hwb [s] Hs None d)
    as (d' & st & chunks & Hloop & Hlog & Hall & _).
  unfold bind at 1. rewrite _set_registers_nil.
  unfold bind at 1. unfold _set_fields. rewrite Hloop.
  inversion Hall as [|? evs ? rest (a' & m' & v' & Hready' & Hev) Hrest]; subst.
  inversion Hrest; subst. cbn in Hlog. rewrite app_nil_r in Hlog.
  exists d', (match st with Some _ => st | None => None end), evs.
  split; [now destruct st|]. split; [exact Hlog|].
  destruct Hready as (Ha & Hm & Hv & _), Hready' as (Ha' & Hm' & Hv' & _).
  rewrite Ha in Ha'. rewrite Hm in Hm'. rewrite Hv in Hv'.
  injection Ha' as <-. injection Hm' as <-. injection Hv' as <-.
  apply step_events_matches; [|exact Hev]. now apply (get_value_within s).
Qed.

Lemma runs_set_register (r : _Register) :
  set_plan [IRegister r] = Ok ({[ADDRESS (reg_cls r) := r]}, ∅) ->
  is_register_value r ->
  runs (set [IRegister r])
       [SExchange (Z.lor 0x20 (ADDRESS (reg_cls r)) :: register_bytes r)].
Proof.
  intros Hplan Hr d. rewrite set_of_plan, Hplan.
  rewrite dict_values_empty, dict_values_singleton.
  destruct (_set_registers_values Hwb [r] d) as (d' & st & new & Hs & Hlog & Hall & _).
  { constructor; [exact Hr | constructor]. }
  { cbn. apply NoDup_singleton. }
  unfold bind at 1. rewrite Hs. cbn.
  exists d', st, new. split; [reflexivity|]. split; [exact Hlog|].
  inversion Hall as [|? e ? rest (reply & ->) Hrest]; subst. inversion Hrest; subst.
  repeat constructor. now exists reply.
Qed.

Lemma runs_reset_registers (rs : list _RegisterInfo) :
  Forall reset_ok rs -> runs (reset_registers rs) (flat_map bulk_steps rs).
Proof.
  induction 1 as [|r rs (Hfields & Hr) _ IH]; [apply runs_ret|].
  cbn [reset_registers flat_map].
  apply (runs_lift_bind _ _ _ _ Hfields).
  apply runs_bind; [|intros _; exact IH].
  destruct Hr as [[Hnum ->]|(Hnum & Hplan & Hready & ->)]; rewrite Hnum; cbn [negb].
  - apply runs_ret.
  - rewrite <- (app_nil_r (steps_for _ _ _)).
    apply runs_bind; [now apply runs_set_fieldset | intros _; apply runs_ret].
Qed.

Lemma runs_set_register_value (cls : register_class) (v : regvalue) :
  bool_decide (cls ∈ module_registers) = true ->
  _Register__init__ cls (Some v) = Ok (register_value cls v) ->
  set_plan [IRegister (register_value cls v)]
  = Ok ({[ADDRESS cls := register_value cls v]}, ∅) ->
  runs (set_register_value cls v)
       [SExchange (Z.lor 0x20 (ADDRESS cls) :: register_bytes (register_value cls v))].
Proof.
  intros Hc Hinit Hplan. unfold set_register_value.
  apply (runs_lift_bind _ _ _ _ Hinit).
  rewrite <- (app_nil_r [SExchange _]).
  apply runs_bind; [|intros _; apply runs_ret].
  apply runs_set_register; [exact Hplan|].
  apply is_register_value_intro; [exact Hc | now rewrite Hinit].
Qed.

(** C7.  On a well-behaved transport [reset_to_default] completes and
    what it does is, in this order: CE low, FLUSH_TX, FLUSH_RX, for each
    register of the table in turn the write of its resettable fields
    (none when it has no such field), the write of 1 to RX_DR, TX_DS and
    MAX_RT, and the writes of the default addresses of pipes 0 to 5 and of
    the transmit address. *)
Theorem reset_to_default_order (d : device S) :
  exists d' new,
    reset_to_default d = (d', Ok tt)
    /\ log d' = log d ++ new
    /\ Forall2 matches reset_sequence new.
Proof.
  assert (Hruns : runs reset_to_default reset_sequence).
  { unfold reset_to_default, reset_sequence.
    change [SChipEnableLow; SExchange [0xE1]; SExchange [0xE2]]
      with ([SChipEnableLow] ++ [SExchange [0xE1]] ++ [SExchange [0xE2]]).
    rewrite <- !app_assoc.
    apply runs_bind; [apply runs_chip_enable_low | intros _].
    apply runs_bind; [apply runs_flush_tx_fifo | intros _].
    apply runs_bind; [apply runs_flush_rx_fifo | intros _].
    apply runs_bind; [apply runs_reset_registers, reset_ok_all | intros _].
    apply (runs_lift_bind _ (field_value RX_DR 1)); [reflexivity|].
    apply (runs_lift_bind _ (field_value TX_DS 1)); [reflexivity|].
    apply (runs_lift_bind _ {| rfs_fields := [field_value RX_DR 1; field_value TX_DS 1] |});
      [reflexivity|].
    apply (runs_lift_bind _ (field_value MAX_RT 1)); [reflexivity|].
    apply (runs_lift_bind _ clear_flags); [reflexivity|].
    apply runs_bind; [|intros _].
    { apply (runs_set_fieldset clear_flags 0x07 0x70 0x70).
      - vm_compute. reflexivity.
      - repeat split; vm_compute; reflexivity. }
    change [SExchange [0x2A; 0xE7; 0xE7; 0xE7; 0xE7; 0xE7];
            SExchange [0x2B; 0xC2; 0xC2; 0xC2; 0xC2; 0xC2];
            SExchange [0x2C; 0xC3]; SExchange [0x2D; 0xC4];
            SExchange [0x2E; 0xC5]; SExchange [0x2F; 0xC6];
            SExchange [0x30; 0xE7; 0xE7; 0xE7; 0xE7; 0xE7]]
      with ([SExchange [0x2A; 0xE7; 0xE7; 0xE7; 0xE7; 0xE7]]
            ++ [SExchange [0x2B; 0xC2; 0xC2; 0xC2; 0xC2; 0xC2]]
            ++ [SExchange [0x2C; 0xC3]] ++ [SExchange [0x2D; 0xC4]]
            ++ [SExchange [0x2E; 0xC5]] ++ [SExchange [0x2F; 0xC6]]
            ++ [SExchange [0x30; 0xE7; 0xE7; 0xE7; 0xE7; 0xE7]]).
    repeat (apply runs_bind;
            [apply runs_set_register_value; vm_compute; reflexivity | intros _]).
    apply runs_set_register_value; vm_compute; reflexivity. }
  destruct (Hruns d) as (d' & [] & new & Hr & Hlog & Hall).
  now exists d', new.
Qed.

End Reset.

Lemma reset_to_default_order_witness :
  let d := new_device (∅ : gmap Z Z) in
  exists d' new,
    reset_to_default d = (d', Ok tt)
    /\ log d' = log d ++ new
    /\ Forall2 matches reset_sequence new.
Proof. intros d. apply (reset_to_default_order sim_well_behaved d). Defined.

(** The exchanges of a reset on the simulated chip, all registers zero:
    CE low and the flushes come first, the write of 0x70 to STATUS (0x27)
    follows the loop over the table. *)
Example reset_on_simulated_chip :
  firstn 4 (log (reset_to_default (new_device (∅ : gmap Z Z))).1)
  = [Ev_chip_enable_low; Ev_xfer2 [0xE1] (Ok [0]); Ev_xfer2 [0xE2] (Ok [0]);
     Ev_xfer2 [0x00; 0xFF] (Ok [0; 0])]
  /\ skipn 37 (transactions (log (reset_to_default (new_device (∅ : gmap Z Z))).1))
     = [[0xFF]; [0x27; 0x70];
        [0x2A; 0xE7; 0xE7; 0xE7; 0xE7; 0xE7]; [0x2B; 0xC2; 0xC2; 0xC2; 0xC2; 0xC2];
        [0x2C; 0xC3]; [0x2D; 0xC4]; [0x2E; 0xC5]; [0x2F; 0xC6];
        [0x30; 0xE7; 0xE7; 0xE7; 0xE7; 0xE7]].
Proof. split; vm_compute; reflexivity. Qed.

(** *** Leaving the cancellable wait *)

Section Waiting.

Context {S : Type} {spi : Spi S} {order : IterOrder}.

(** When the wait returns, the callback is unregistered and no wait is
    recorded any more. *)
Lemma wait_returns_clean (cv : nat) (timeout : option Z) (script : list (wake (S := S)))
    (d d' : device S) :
  wait_for_irq_low_cancellable cv timeout script d = (d', Ok tt) ->
  irq_callback d' = None /\ _wait_info_cancellable d' = None.
Proof.
  unfold wait_for_irq_low_cancellable. unfold bind at 1.
  unfold bind at 1. unfold lift at 1.
  destruct (assert (is_None (_wait_info_cancellable d)) "") as [[]|e|]; try discriminate.
  unfold bind at 1. unfold new_wait_info at 1.
  unfold bind at 1. unfold set__wait_info_cancellable at 1. cbn [_spi wait_infos irq_callback clock log].
  unfold bind at 1.
  match goal with |- context [_internal_wait_for_irq_low ?w ?t ?s ?d0] =>
    destruct (_internal_wait_for_irq_low w t s d0) as [d1 [[]|e|]] eqn:Hint end;
    try discriminate.
  unfold set__wait_info_cancellable. intros [= <-]. cbn. split; [|reflexivity].
  revert Hint. unfold _internal_wait_for_irq_low.
  unfold bind at 1. unfold time_time at 1.
  unfold bind at 1. unfold set_falling_edge_irq at 1.
  unfold try_finally.
  match goal with |- context [wait_loop ?w ?t ?st ?s ?d0] =>
    destruct (wait_loop w t st s d0) as [d2 [[]|e|]] end; try discriminate.
  unfold bind, update_wait_info, remove_falling_edge_irq. cbn.
  intros [= <-]. reflexivity.
Qed.

End Waiting.

(** C8.  An error while polling: with a transport that raises, the wait
    propagates the error with the callback unregistered, but the wait
    stays recorded in [_wait_info_cancellable] (the assignment of [None]
    after [_internal_wait_for_irq_low] is not protected by a [finally]), so
    the next wait on the device fails its first assertion. *)
Theorem wait_error_leaves_wait_recorded {order : IterOrder}
    (cv : nat) (timeout : option Z) (script : list (wake (S := unit))) :
  let run := wait_for_irq_low_cancellable (spi := broken_spi) cv timeout script
               (new_device tt) in
  run.2 = Raise IOError
  /\ irq_callback run.1 = None
  /\ log run.1 = [Ev_set_falling_edge_irq;
                   Ev_xfer2 [0x00; 0xFF] (Raise IOError);
                   Ev_remove_falling_edge_irq]
  /\ _wait_info_cancellable run.1 = Some 0%nat
  /\ (wait_for_irq_low_cancellable (spi := broken_spi) cv timeout script run.1).2
     = Raise (AssertionError "")
  /\ (wait_for_irq_low (spi := broken_spi) cv timeout script run.1).2
     = Raise (AssertionError "").
Proof.
  set (reqs := [ReqField MASK_RX_DR; ReqField MASK_TX_DS; ReqField MASK_MAX_RT;
                ReqField RX_DR; ReqField TX_DS; ReqField MAX_RT]).
  assert (Hneed : set_iter (fetched reqs) = [0]).
  { unfold set_iter.
    replace (elements (fetched reqs)) with [0] by (vm_compute; reflexivity).
    apply iter_order_singleton. }
  assert (Hget : forall d : device unit,
            get (spi := broken_spi) reqs d
            = (Device (_spi d) (_wait_info_cancellable d) (wait_infos d) (irq_callback d)
                      (clock d) (log d ++ [Ev_xfer2 [0x00; 0xFF] (Raise IOError)]),
               Raise IOError)).
  { intros d. rewrite (get_unfold (spi := broken_spi) reqs d _ (get_needed_ok reqs _ eq_refl)).
    fold (fetched reqs). rewrite Hneed. destruct d as [[] ? ? ? ? ?]. reflexivity. }
  assert (Hloop : forall w st (d : device unit),
            wait_loop (spi := broken_spi) w timeout st script d
            = (Device (_spi d) (_wait_info_cancellable d) (wait_infos d) (irq_callback d)
                      (clock d) (log d ++ [Ev_xfer2 [0x00; 0xFF] (Raise IOError)]),
               Raise IOError)).
  { intros w st d. destruct script; cbn [wait_loop]; unfold bind at 1; unfold poll;
      unfold bind at 1; fold reqs; rewrite Hget; reflexivity. }
  intros run.
  assert (Hrun : run = (Device tt (Some 0%nat)
                               [{| condition_variable := cv; already_finished := true;
                                   cancelled := false |}]
                               None 0
                               [Ev_set_falling_edge_irq;
                                Ev_xfer2 [0x00; 0xFF] (Raise IOError);
                                Ev_remove_falling_edge_irq],
                        Raise IOError)).
  { unfold run, wait_for_irq_low_cancellable, _internal_wait_for_irq_low.
    cbn -[wait_loop]. unfold bind, try_finally. cbn -[wait_loop].
    rewrite Hloop. reflexivity. }
  rewrite Hrun. repeat split; reflexivity.
Qed.

(** ** Further properties *)

(** *** Writing a field and reading it back *)

Lemma extract_merged (v old s n : Z) :
  0 <= s -> 0 <= n -> 0 <= v < 2 ^ n ->
  Z.land (Z.shiftr (Z.lor (Z.shiftl v s)
                          (Z.land old (Z.lnot (Z.shiftl (Z.ones n) s)))) s)
         (Z.ones n) = v.
Proof.
  intros Hs Hn Hv.
  assert (Hvn : Z.land v (Z.ones n) = v).
  { rewrite Z.land_ones by exact Hn. apply Z.mod_small. lia. }
  apply Z.bits_inj'. intros i Hi. bit_of Hvn i.
  rewrite Z.land_spec, Z.shiftr_spec, Z.lor_spec, Z.land_spec, Z.lnot_spec,
    !Z.shiftl_spec by lia.
  replace (i + s - s) with i by lia.
  destruct (Z.lt_ge_cases i n) as [Hlt|Hge].
  - rewrite Z.ones_spec_low in * by lia.
    destruct (Z.testbit v i), (Z.testbit old (i + s)); reflexivity.
  - rewrite Z.ones_spec_high in * by lia.
    rewrite andb_false_r in *. now rewrite <- Hbit.
Qed.

Lemma merged_byte (x old mask : Z) :
  within x 0xFF -> 0 <= old <= 255 ->
  0 <= Z.lor x (Z.land old (Z.lnot mask)) <= 255.
Proof.
  intros Hx Hold. apply byte_land.
  change 0xFF with (Z.lor 0xFF 0xFF). apply within_lor; [exact Hx|].
  apply within_land_l. now apply byte_land.
Qed.

Lemma field_get_byte (cls : field_class) (x : Z) :
  0 <= x <= 255 ->
  field_get cls x = Ok (Z.land (Z.shiftr x (START_BIT cls)) (Z.ones (NUM_BITS cls))).
Proof.
  intros Hx. unfold field_get.
  replace ((0 <=? x) && (x <=? 255)) with true by (symmetry; apply andb_true_iff; lia).
  reflexivity.
Qed.

Lemma shifted_byte (f : _RegisterField) : is_field_value f -> within (shifted f) 0xFF.
Proof.
  intros Hf. apply (within_trans _ (_get_mask (field_cls f))); [now apply shifted_within|].
  destruct Hf as [Hc _]. now destruct (module_class_checks _ Hc) as (_ & _ & _ & ? & _).
Qed.

(** X1.  The byte [set] writes for a field, read through the field, gives
    the value written, whatever the register held before. *)
Theorem field_write_then_read (f : _RegisterField) (v old : Z) :
  is_field_value f -> f_value f = Some v -> 0 <= old <= 255 ->
  field_get (field_cls f)
            (Z.lor (shifted f) (Z.land old (Z.lnot (_get_mask (field_cls f)))))
  = Ok v.
Proof.
  intros Hf Hv Hold.
  rewrite field_get_byte by (apply merged_byte; [now apply shifted_byte | exact Hold]).
  destruct (field_value_range f Hf) as (v' & Hv' & Hr). rewrite Hv in Hv'.
  injection Hv' as <-. destruct Hf as [Hc _].
  destruct (module_class_checks _ Hc) as (Hs & Hn & _).
  unfold shifted, _get_mask, _get_unshifted_mask. rewrite Hv. cbn [default].
  change (Z.shiftl 1 (NUM_BITS (field_cls f)) - 1) with (Z.ones (NUM_BITS (field_cls f))).
  f_equal. apply extract_merged; try lia. rewrite get_max_value_pow in Hr. lia.
Qed.

Lemma field_write_then_read_witness :
  field_get AW (Z.lor (shifted (field_value AW 3))
                      (Z.land 0xB0 (Z.lnot (_get_mask AW)))) = Ok 3.
Proof.
  apply (field_write_then_read (field_value AW 3) 3 0xB0).
  - apply is_field_value_b_spec. vm_compute. reflexivity.
  - reflexivity.
  - lia.
Defined.

(** X2.  The byte [set] writes for a field leaves every other field of the
    register as it was. *)
Theorem field_write_keeps_other_fields (f : _RegisterField) (g : field_class) (old : Z) :
  is_field_value f -> g ∈ module_fields ->
  REGISTER_ADDRESS g = REGISTER_ADDRESS (field_cls f) ->
  FIELD_NAME g <> FIELD_NAME (field_cls f) ->
  0 <= old <= 255 ->
  field_get g (Z.lor (shifted f) (Z.land old (Z.lnot (_get_mask (field_cls f)))))
  = field_get g old.
Proof.
  intros Hf Hg Ha Hn Hold.
  rewrite !field_get_byte
    by (try apply merged_byte; try (now apply shifted_byte); exact Hold).
  f_equal.
  pose proof (module_pair_checks g (field_cls f) Hg (proj1 Hf) Ha Hn) as Hdis.
  pose proof (shifted_within f Hf) as Hsh. unfold within in Hsh.
  destruct (module_class_checks _ Hg) as (Hs & Hw & _).
  unfold _get_mask at 1 in Hdis. unfold _get_unshifted_mask in Hdis.
  change (Z.shiftl 1 (NUM_BITS g) - 1) with (Z.ones (NUM_BITS g)) in Hdis.
  apply Z.bits_inj'. intros i Hi.
  bit_of Hdis (i + START_BIT g). bit_of Hsh (i + START_BIT g).
  rewrite Z.shiftl_spec in Hbit by lia.
  replace (i + START_BIT g - START_BIT g) with i in Hbit by lia.
  rewrite Z.bits_0 in Hbit.
  rewrite !Z.land_spec, !Z.shiftr_spec, Z.lor_spec, Z.land_spec, Z.lnot_spec by lia.
  destruct (Z.lt_ge_cases i (NUM_BITS g)) as [Hlt|Hge].
  - rewrite Z.ones_spec_low in * by lia. cbn in Hbit.
    rewrite Hbit in *. rewrite andb_false_r in Hbit0. rewrite <- Hbit0.
    cbn. now rewrite andb_true_r.
  - rewrite Z.ones_spec_high by lia. now rewrite !andb_false_r.
Qed.

Lemma field_write_keeps_other_fields_witness :
  field_get PRIM_RX (Z.lor (shifted (field_value PWR_UP 1))
                           (Z.land 0x09 (Z.lnot (_get_mask PWR_UP))))
  = field_get PRIM_RX 0x09.
Proof.
  apply (field_write_keeps_other_fields (field_value PWR_UP 1) PRIM_RX 0x09).
  - apply is_field_value_b_spec. vm_compute. reflexivity.
  - apply module_field_elem. vm_compute. reflexivity.
  - reflexivity.
  - discriminate.
  - lia.
Defined.

(** *** The order of the fields of a set *)

Lemma mask_union_perm (l l' : list _RegisterField) :
  l ≡ₚ l' -> mask_union l = mask_union l'.
Proof.
  unfold mask_union.
  induction 1 as [|f l l' _ IH|f g l|l l' l'' _ IH1 _ IH2]; cbn.
  - reflexivity.
  - now rewrite IH.
  - rewrite !Z.lor_assoc. f_equal. apply Z.lor_comm.
  - now rewrite IH1.
Qed.

Lemma value_union_perm (l l' : list _RegisterField) :
  l ≡ₚ l' -> value_union l = value_union l'.
Proof.
  unfold value_union.
  induction 1 as [|f l l' _ IH|f g l|l l' l'' _ IH1 _ IH2]; cbn.
  - reflexivity.
  - now rewrite IH.
  - rewrite !Z.lor_assoc. f_equal. apply Z.lor_comm.
  - now rewrite IH1.
Qed.

Lemma fs_inv_perm (l l' : list _RegisterField) : l ≡ₚ l' -> fs_inv l -> fs_inv l'.
Proof.
  intros Hp (Hv & Ha & Hn). split; [|split].
  - now rewrite <- Hp.
  - intros f g Hf Hg. rewrite <- Hp in Hf, Hg. now apply Ha.
  - now rewrite <- Hp.
Qed.

(** X3.  The mask and the value of a field set do not depend on the order
    in which its fields were combined. *)
Theorem field_order_irrelevant (l l' : list _RegisterField) :
  l ≡ₚ l' -> fs_inv l ->
  fs_inv l'
  /\ get_mask {| rfs_fields := l' |} = get_mask {| rfs_fields := l |}
  /\ get_value {| rfs_fields := l' |} = get_value {| rfs_fields := l |}.
Proof.
  intros Hp Hinv. pose proof (fs_inv_perm l l' Hp Hinv) as Hinv'.
  split; [exact Hinv'|].
  rewrite !get_mask_ok, !get_value_ok by assumption. cbn [rfs_fields].
  now rewrite (mask_union_perm l l' Hp), (value_union_perm l l' Hp).
Qed.

Lemma field_order_irrelevant_witness :
  let l := [field_value PWR_UP 1; field_value PRIM_RX 1; field_value EN_CRC 0] in
  let l' := [field_value EN_CRC 0; field_value PWR_UP 1; field_value PRIM_RX 1] in
  fs_inv l'
  /\ get_mask {| rfs_fields := l' |} = get_mask {| rfs_fields := l |}
  /\ get_value {| rfs_fields := l' |} = get_value {| rfs_fields := l |}.
Proof.
  intros l l'. apply (field_order_irrelevant l l').
  - unfold l, l'. symmetry. apply (Permutation_cons_append [_; _]).
  - apply fs_inv_b_spec. vm_compute. reflexivity.
Defined.

(** *** Register values *)

Lemma module_long_registers (c : register_class) :
  c ∈ module_registers -> is_one_byte c = false -> MIN_SIZE c = 3 /\ MAX_SIZE c = 5.
Proof.
  assert (H : forallb long_register_checks module_registers = true)
    by (vm_compute; reflexivity).
  rewrite forallb_forall in H. intros Hc Hone. apply list_elem_of_In in Hc.
  specialize (H c Hc). unfold long_register_checks in H. rewrite Hone in H.
  cbn in H. apply andb_true_iff in H. lia.
Qed.

Lemma forallb_is_byte (l : list Z) :
  forallb is_byte l = true <-> Forall (fun b => 0 <= b <= 255) l.
Proof.
  rewrite forallb_forall, List.Forall_forall. unfold is_byte.
  split; intros H b Hb; specialize (H b Hb);
    [apply andb_true_iff in H | apply andb_true_iff]; lia.
Qed.

(** X4.  A register of the module takes an integer exactly when it has one
    byte and the integer is a byte, and a list exactly when it is an
    address register and the list has three to five bytes; a list given to
    a one-byte register is a [TypeError]. *)
Theorem register_value_accepted (cls : register_class) :
  cls ∈ module_registers ->
  (forall z, _Register__init__ cls (Some (RInt z)) = Ok (register_value cls (RInt z))
             <-> is_one_byte cls = true /\ 0 <= z <= 255)
  /\ (forall l, _Register__init__ cls (Some (RList l)) = Ok (register_value cls (RList l))
                <-> is_one_byte cls = false
                    /\ (3 <= length l <= 5)%nat
                    /\ Forall (fun b => 0 <= b <= 255) l)
  /\ (forall l, is_one_byte cls = true ->
                _Register__init__ cls (Some (RList l)) = Raise TypeError).
Proof.
  intros Hc. unfold _Register__init__, register_value. fold (is_one_byte cls).
  split; [|split].
  - intros z. unfold is_byte.
    destruct (is_one_byte cls); cbn [andb].
    + destruct ((0 <=? z) && (z <=? 255)) eqn:Hz.
      * apply andb_true_iff in Hz. split; [intros _; lia | reflexivity].
      * apply andb_false_iff in Hz. split; [discriminate | lia].
    + split; [discriminate | intros [? _]; discriminate].
  - intros l. destruct (is_one_byte cls) eqn:Hone.
    + split; [discriminate | intros [? _]; discriminate].
    + destruct (module_long_registers cls Hc Hone) as [-> ->].
      destruct (forallb is_byte l) eqn:Hb.
      * apply forallb_is_byte in Hb.
        destruct ((1 <? 3) && (3 <=? Z.of_nat (length l)) && (Z.of_nat (length l) <=? 5))
          eqn:Hl; cbn [andb].
        -- repeat (apply andb_true_iff in Hl as [Hl ?]).
           split; [intros _; repeat split; try assumption; lia | reflexivity].
        -- split; [discriminate|]. intros (_ & Hlen & _).
           exfalso. revert Hl. cbn [andb Z.ltb Z.compare Pos.compare Pos.compare_cont].
           intros Hl. apply andb_false_iff in Hl. lia.
      * rewrite andb_false_r. split; [discriminate|].
        intros (_ & _ & Hall). apply forallb_is_byte in Hall. congruence.
  - intros l ->. reflexivity.
Qed.

Lemma register_value_accepted_witness :
  (forall z, _Register__init__ REG_RF_CH (Some (RInt z))
             = Ok (register_value REG_RF_CH (RInt z))
             <-> is_one_byte REG_RF_CH = true /\ 0 <= z <= 255)
  /\ (forall l, _Register__init__ REG_RF_CH (Some (RList l))
                = Ok (register_value REG_RF_CH (RList l))
                <-> is_one_byte REG_RF_CH = false
                    /\ (3 <= length l <= 5)%nat
                    /\ Forall (fun b => 0 <= b <= 255) l)
  /\ (forall l, is_one_byte REG_RF_CH = true ->
                _Register__init__ REG_RF_CH (Some (RList l)) = Raise TypeError).
Proof.
  apply (register_value_accepted REG_RF_CH).
  apply module_register_elem. vm_compute. reflexivity.
Defined.

(** *** Addresses and sizes *)

Lemma valid_register_and_size_spec (a size : Z) :
  (valid_register_and_size a size -> _assert_valid_register_and_size a size = Ok tt)
  /\ (~ valid_register_and_size a size ->
      exists msg, _assert_valid_register_and_size a size = Raise (AssertionError msg)).
Proof.
  unfold valid_register_and_size, _assert_valid_register_and_size.
  destruct ((0 <=? a) && (a <=? 29)) eqn:H1; cbn [assert rbind].
  2: { apply andb_false_iff in H1. split; [lia | eauto]. }
  destruct ((24 <=? a) && (a <=? 27)) eqn:H2; cbn [assert rbind negb].
  { apply andb_true_iff in H2. split; [lia | eauto]. }
  destruct ((1 <=? size) && (size <=? 5)) eqn:H3; cbn [assert rbind].
  2: { apply andb_false_iff in H3. split; [lia | eauto]. }
  apply andb_true_iff in H1. apply andb_false_iff in H2. apply andb_true_iff in H3.
  match goal with |- context [assert ?b ""] => destruct b eqn:H4 end; cbn [assert].
  - split; [reflexivity|]. intros Hn. exfalso. apply Hn.
    apply orb_true_iff in H4 as [H4|H4].
    + repeat (apply andb_true_iff in H4 as [H4 ?]).
      apply orb_true_iff in H4. lia.
    + apply andb_true_iff in H4 as [H4 ?]. apply negb_true_iff in H4.
      apply orb_false_iff in H4 as [H4 ?]. apply andb_false_iff in H4. lia.
  - split; [|eauto]. intros (_ & _ & Hv). exfalso.
    apply orb_false_iff in H4 as [H4 H5].
    destruct Hv as [[Ha Hs]|(? & ? & ? & ->)].
    + replace (((10 <=? a) && (a <=? 11)) || (a =? 16)) with true in H4
        by (symmetry; apply orb_true_iff; lia).
      cbn in H4. apply andb_false_iff in H4. lia.
    + replace (((10 <=? a) && (a <=? 11)) || (a =? 16)) with false in H5
        by (symmetry; apply orb_false_iff; split; [apply andb_false_iff|]; lia).
      discriminate.
Qed.

Section Commands.

Context {S : Type} {spi : Spi S} {order : IterOrder}.

(** X5.  [get_register] makes one exchange for a valid address and size,
    a lone NOP for STATUS and the address followed by one NOP per byte
    otherwise, and returns the register as an integer or as a list of
    [size] bytes; for any other address or size it raises before the bus
    is used. *)
Theorem get_register_exchange (Hwb : well_behaved) (a size : Z) (d : device S) :
  (valid_register_and_size a size ->
   exists d' status value reply,
     get_register a size d = (d', Ok (status, value))
     /\ log d' = log d
                 ++ [Ev_xfer2 (if a =? 0x07 then [0xFF]
                               else a :: repeat 0xFF (Z.to_nat size)) (Ok reply)]
     /\ reply !! 0%nat = Some status
     /\ (a = 0x07 -> value = RInt status)
     /\ (a <> 0x07 -> size = 1 -> exists v, reply = [status; v] /\ value = RInt v)
     /\ (size <> 1 ->
         value = RList (tail reply) /\ Z.of_nat (length (tail reply)) = size
         /\ Forall (fun b => 0 <= b <= 255) (tail reply)))
  /\ (~ valid_register_and_size a size ->
      exists msg, get_register a size d = (d, Raise (AssertionError msg))).
Proof.
  destruct (valid_register_and_size_spec a size) as [Hok Hbad]. split.
  - intros Hv. specialize (Hok Hv). unfold get_register.
    unfold bind at 1. unfold lift at 1. rewrite Hok.
    change (ADDRESS REG_STATUS) with 0x07. change _SPI_NOP with 0xFF.
    destruct (a =? 7) eqn:Ha; cbn [negb].
    + apply Z.eqb_eq in Ha.
      destruct (xfer2_reply Hwb [0xFF] d) as (d' & reply & Hx & Hlen & Hb & Hlog).
      destruct reply as [|st [|? ?]]; try discriminate.
      unfold bind at 1. rewrite Hx. cbn.
      exists d', st, (RInt st), [st]. repeat split; try assumption; try tauto.
      all: intros; exfalso; unfold valid_register_and_size in Hv; lia.
    + apply Z.eqb_neq in Ha.
      destruct (xfer2_reply Hwb (a :: repeat 0xFF (Z.to_nat size)) d)
        as (d' & reply & Hx & Hlen & Hb & Hlog).
      cbn [length] in Hlen. rewrite repeat_length in Hlen.
      destruct reply as [|st data]; [discriminate|].
      cbn [length] in Hlen. injection Hlen as Hlen.
      unfold bind at 1. rewrite Hx. unfold bind at 1. cbn [lift index lookup].
      assert (Hsize : 1 <= size) by (unfold valid_register_and_size in Hv; lia).
      destruct (size =? 1) eqn:Hs.
      * apply Z.eqb_eq in Hs. subst size.
        destruct data as [|v [|? ?]]; try discriminate.
        cbn. exists d', st, (RInt v), [st; v].
        repeat split; try assumption; try tauto; try lia. eauto.
      * apply Z.eqb_neq in Hs. cbn.
        exists d', st, (RList data), (st :: data).
        repeat split; try assumption; try tauto; cbn [tail]; try lia.
        now inversion Hb.
  - intros Hv. destruct (Hbad Hv) as (msg & Hmsg). exists msg.
    unfold get_register. unfold bind at 1. unfold lift at 1. now rewrite Hmsg.
Qed.

Lemma _write_payload_once (Hwb : well_behaved) (command : Z) (data : pyvalue)
    (bytes : list Z) (d : device S) :
  py_len data = Ok (Z.of_nat (length bytes)) -> _to_bytes data = Ok bytes ->
  (1 <= length bytes <= 32)%nat ->
  exchanged_once (_write_payload command data d) d (command :: bytes).
Proof.
  intros Hn Hbytes Hrange.
  destruct (exchange_returns_status Hwb (command :: bytes) d)
    as (d' & st & reply & Hr & _ & _ & H0 & Hlog); [discriminate|].
  assert (Heq : _write_payload command data d
                = (x <- spi_xfer2 (command :: bytes) ;; lift (index x 0))%dev d).
  { unfold _write_payload. unfold bind at 1. unfold lift at 1. rewrite Hn.
    unfold bind at 1. unfold lift at 1.
    replace ((1 <=? Z.of_nat (length bytes)) && (Z.of_nat (length bytes) <=? 32))
      with true by (symmetry; apply andb_true_iff; lia).
    cbn [assert]. unfold bind at 1. unfold lift at 1. now rewrite Hbytes. }
  exists st, reply. rewrite Heq, Hr. now cbn.
Qed.

Lemma _write_payload_length (command : Z) (data : pyvalue) (n : Z) (d : device S) :
  py_len data = Ok n -> ~ (1 <= n <= 32) ->
  _write_payload command data d = (d, Raise (AssertionError "Invalid length of payload")).
Proof.
  intros Hn Hrange. unfold _write_payload. unfold bind at 1. unfold lift at 1. rewrite Hn.
  unfold bind at 1. unfold lift at 1.
  replace ((1 <=? n) && (n <=? 32)) with false
    by (symmetry; apply andb_false_iff; lia).
  reflexivity.
Qed.

Lemma _to_bytes_length (data : pyvalue) (bytes : list Z) :
  _to_bytes data = Ok bytes ->
  Forall (fun b => 0 <= b <= 255) bytes
  /\ ((exists z, data = VInt z) \/ py_len data = Ok (Z.of_nat (length bytes))).
Proof.
  destruct data as [|z|s|l]; cbn.
  - discriminate.
  - destruct (is_byte z) eqn:Hz; cbn; [|discriminate]. intros [= <-].
    split; [|eauto]. constructor; [|constructor].
    unfold is_byte in Hz. apply andb_true_iff in Hz. lia.
  - intros [= <-]. split.
    + apply List.Forall_forall. intros b Hb. apply in_map_iff in Hb as (c & <- & _).
      pose proof (nat_ascii_bounded c). lia.
    + right. rewrite length_map. f_equal. f_equal.
      clear. induction s as [|c s IH]; cbn; [reflexivity | now rewrite IH].
  - destruct (forallb is_byte l) eqn:Hl; cbn; [|discriminate]. intros [= <-].
    split; [now apply forallb_is_byte | now right].
Qed.

(** X6.  The three payload commands send the command byte followed by the
    payload in one exchange and return STATUS, when the payload is a string
    or a list of one to 32 bytes; the pipe of an acknowledge payload is
    in the low bits of the command.  Any other length, and a pipe outside
    0..5, are refused before the bus is used, and an integer payload is
    a [TypeError]. *)
Theorem write_payload_exchange (Hwb : well_behaved) (data : pyvalue) (bytes : list Z)
    (pipe : Z) (d : device S) :
  _to_bytes data = Ok bytes -> (forall z, data <> VInt z) ->
  Forall (fun b => 0 <= b <= 255) bytes
  /\ ((1 <= length bytes <= 32)%nat ->
      exchanged_once (write_tx_payload data d) d (0xA0 :: bytes)
      /\ exchanged_once (write_tx_payload_no_ack data d) d (0xB0 :: bytes)
      /\ (0 <= pipe <= 5 ->
          exchanged_once (write_ack_payload pipe data d) d (0xA8 + pipe :: bytes)))
  /\ (~ (1 <= length bytes <= 32)%nat ->
      write_tx_payload data d = (d, Raise (AssertionError "Invalid length of payload"))
      /\ write_tx_payload_no_ack data d
         = (d, Raise (AssertionError "Invalid length of payload"))
      /\ (0 <= pipe <= 5 ->
          write_ack_payload pipe data d
          = (d, Raise (AssertionError "Invalid length of payload"))))
  /\ (~ (0 <= pipe <= 5) ->
      write_ack_payload pipe data d = (d, Raise (AssertionError "Invalid pipe")))
  /\ (forall z, write_tx_payload (VInt z) d = (d, Raise TypeError)).
Proof.
  intros Hbytes Hint. destruct (_to_bytes_length data bytes Hbytes) as [Hall [[z ->]|Hlen]];
    [now destruct (Hint z)|].
  assert (Hack : 0 <= pipe <= 5 ->
                 write_ack_payload pipe data d = _write_payload (0xA8 + pipe) data d).
  { intros Hp. unfold write_ack_payload. unfold bind at 1. unfold lift at 1.
    replace ((0 <=? pipe) && (pipe <=? 5)) with true
      by (symmetry; apply andb_true_iff; lia).
    cbn [assert]. f_equal.
    assert (Hc : pipe = 0 \/ pipe = 1 \/ pipe = 2 \/ pipe = 3 \/ pipe = 4 \/ pipe = 5)
      by lia.
    destruct Hc as [->|[->|[->|[->|[->| ->]]]]]; reflexivity. }
  split; [exact Hall|]. split; [|split; [|split]].
  - intros Hrange. unfold write_tx_payload, write_tx_payload_no_ack.
    split; [|split].
    + now apply _write_payload_once.
    + now apply _write_payload_once.
    + intros Hp. rewrite (Hack Hp). now apply _write_payload_once.
  - intros Hrange. unfold write_tx_payload, write_tx_payload_no_ack.
    split; [|split].
    + apply (_write_payload_length _ _ _ _ Hlen). lia.
    + apply (_write_payload_length _ _ _ _ Hlen). lia.
    + intros Hp. rewrite (Hack Hp). apply (_write_payload_length _ _ _ _ Hlen). lia.
  - intros Hp. unfold write_ack_payload. unfold bind at 1. unfold lift at 1.
    replace ((0 <=? pipe) && (pipe <=? 5)) with false
      by (symmetry; apply andb_false_iff; lia).
    reflexivity.
  - intros z. reflexivity.
Qed.

(** X7.  [read_rx_payload] sends the command and one zero per byte asked
    for, and returns STATUS and exactly that many bytes; a size outside
    1..32 is refused before the bus is used. *)
Theorem read_rx_payload_size (Hwb : well_behaved) (num_bytes : Z) (d : device S) :
  (1 <= num_bytes <= 32 ->
   exists d' status data,
     read_rx_payload num_bytes d = (d', Ok (status, data))
     /\ Z.of_nat (length data) = num_bytes
     /\ Forall (fun b => 0 <= b <= 255) data
     /\ log d' = log d ++ [Ev_xfer2 (0x61 :: repeat 0 (Z.to_nat num_bytes))
                                    (Ok (status :: data))])
  /\ (~ (1 <= num_bytes <= 32) ->
      read_rx_payload num_bytes d = (d, Raise (AssertionError "Invalid num_bytes"))).
Proof.
  unfold read_rx_payload. split; intros Hrange.
  - destruct (xfer2_reply Hwb (0x61 :: repeat 0 (Z.to_nat num_bytes)) d)
      as (d' & reply & Hx & Hlen & Hb & Hlog).
    cbn [length] in Hlen. rewrite repeat_length in Hlen.
    destruct reply as [|st data]; [discriminate|].
    cbn [length] in Hlen. injection Hlen as Hlen.
    exists d', st, data. unfold bind at 1. unfold lift at 1.
    replace ((1 <=? num_bytes) && (num_bytes <=? 32)) with true
      by (symmetry; apply andb_true_iff; lia).
    cbn [assert]. unfold bind at 1. rewrite Hx. cbn.
    repeat split; try assumption; try lia. now inversion Hb.
  - unfold bind at 1. unfold lift at 1.
    replace ((1 <=? num_bytes) && (num_bytes <=? 32)) with false
      by (symmetry; apply andb_false_iff; lia).
    reflexivity.
Qed.

End Commands.

Lemma get_register_exchange_witness :
  let d := new_device (∅ : gmap Z Z) in
  valid_register_and_size 0x0A 5
  /\ exists d' status value reply,
       get_register 0x0A 5 d = (d', Ok (status, value))
       /\ log d' = log d ++ [Ev_xfer2 [0x0A; 0xFF; 0xFF; 0xFF; 0xFF; 0xFF] (Ok reply)]
       /\ reply !! 0%nat = Some status
       /\ (0x0A = 0x07 -> value = RInt status)
       /\ (0x0A <> 0x07 -> 5 = 1 -> exists v, reply = [status; v] /\ value = RInt v)
       /\ (5 <> 1 ->
           value = RList (tail reply) /\ Z.of_nat (length (tail reply)) = 5
           /\ Forall (fun b => 0 <= b <= 255) (tail reply)).
Proof.
  intros d.
  assert (Hv : valid_register_and_size 0x0A 5) by (unfold valid_register_and_size; lia).
  split; [exact Hv|].
  exact (proj1 (get_register_exchange sim_well_behaved 0x0A 5 d) Hv).
Defined.

Lemma write_payload_exchange_witness :
  let d := new_device (∅ : gmap Z Z) in
  let data := VStr "ping" in
  let bytes := [112; 105; 110; 103] in
  Forall (fun b => 0 <= b <= 255) bytes
  /\ ((1 <= length bytes <= 32)%nat ->
      exchanged_once (write_tx_payload data d) d (0xA0 :: bytes)
      /\ exchanged_once (write_tx_payload_no_ack data d) d (0xB0 :: bytes)
      /\ (0 <= 2 <= 5 ->
          exchanged_once (write_ack_payload 2 data d) d (0xA8 + 2 :: bytes)))
  /\ (~ (1 <= length bytes <= 32)%nat ->
      write_tx_payload data d = (d, Raise (AssertionError "Invalid length of payload"))
      /\ write_tx_payload_no_ack data d
         = (d, Raise (AssertionError "Invalid length of payload"))
      /\ (0 <= 2 <= 5 ->
          write_ack_payload 2 data d
          = (d, Raise (AssertionError "Invalid length of payload"))))
  /\ (~ (0 <= 2 <= 5) ->
      write_ack_payload 2 data d = (d, Raise (AssertionError "Invalid pipe")))
  /\ (forall z, write_tx_payload (VInt z) d = (d, Raise TypeError)).
Proof.
  intros d data bytes.
  apply (write_payload_exchange sim_well_behaved data bytes 2 d).
  - reflexivity.
  - discriminate.
Defined.

Lemma read_rx_payload_size_witness :
  let d := new_device (∅ : gmap Z Z) in
  (1 <= 3 <= 32 ->
   exists d' status data,
     read_rx_payload 3 d = (d', Ok (status, data))
     /\ Z.of_nat (length data) = 3
     /\ Forall (fun b => 0 <= b <= 255) data
     /\ log d' = log d ++ [Ev_xfer2 (0x61 :: repeat 0 (Z.to_nat 3))
                                    (Ok (status :: data))])
  /\ (~ (1 <= 3 <= 32) ->
      read_rx_payload 3 d = (d, Raise (AssertionError "Invalid num_bytes"))).
Proof.
  intros d. apply (read_rx_payload_size sim_well_behaved 3 d).
Defined.

(** *** What the bus commands leave alone *)

Section BusOnly.

Context {S : Type} {spi : Spi S} {order : IterOrder}.

Lemma bus_only_ret {A} (x : A) : bus_only (S := S) (ret x).
Proof. intros d. cbn. repeat split. exists []. now rewrite app_nil_r. Qed.

Lemma bus_only_raise {A} (e : exn) : bus_only (S := S) (A := A) (raise e).
Proof. intros d. cbn. repeat split. exists []. now rewrite app_nil_r. Qed.

Lemma bus_only_lift {A} (r : result A) : bus_only (S := S) (lift r).
Proof. intros d. cbn. repeat split. exists []. now rewrite app_nil_r. Qed.

Lemma bus_only_xfer2 (msg : list Z) : bus_only (spi_xfer2 msg).
Proof.
  intros d. cbn. repeat split. eexists. split; [reflexivity|].
  now constructor.
Qed.

Lemma bus_only_bind {A B} (m : M S A) (k : A -> M S B) :
  bus_only m -> (forall x, bus_only (k x)) -> bus_only (bind m k).
Proof.
  intros Hm Hk d. specialize (Hm d). unfold bind.
  destruct (m d) as [d1 [x| |]]; cbn [fst] in *; try exact Hm.
  destruct Hm as (H1 & H2 & H3 & H4 & new1 & Hl1 & Hn1).
  destruct (Hk x d1) as (K1 & K2 & K3 & K4 & new2 & Hl2 & Hn2).
  rewrite K1, K2, K3, K4. repeat split; try assumption.
  exists (new1 ++ new2). rewrite Hl2, Hl1, app_assoc. split; [reflexivity|].
  now apply Forall_app.
Qed.

Ltac bus_only_step :=
  first [ apply bus_only_ret | apply bus_only_raise | apply bus_only_lift
        | apply bus_only_xfer2
        | apply bus_only_bind; [|intros ?]
        | match goal with
          | |- bus_only (if ?b then _ else _) => destruct b
          | |- bus_only (match ?x with _ => _ end) => destruct x
          end ].

Lemma bus_only_get_fetch (addresses : list Z) :
  forall values, bus_only (get_fetch addresses values).
Proof.
  induction addresses as [|a L IH]; intros values; cbn [get_fetch].
  - apply bus_only_ret.
  - apply bus_only_bind; [apply bus_only_xfer2|]. intros data.
    destruct data as [|st [|rv [|? ?]]]; try apply bus_only_raise. apply IH.
Qed.

Lemma bus_only_get (rs : list request) : bus_only (get rs).
Proof.
  unfold get. apply bus_only_bind; [apply bus_only_lift|]. intros need.
  apply bus_only_bind; [apply bus_only_get_fetch|]. intros values.
  repeat bus_only_step.
Qed.

Lemma bus_only_get_register (a size : Z) : bus_only (get_register a size).
Proof. unfold get_register. repeat bus_only_step. Qed.

Lemma bus_only__set_register (a : Z) (value : pyvalue) : bus_only (_set_register a value).
Proof. unfold _set_register. repeat bus_only_step. Qed.

Lemma bus_only__set_registers_loop (registers : list _Register) :
  forall status, bus_only (_set_registers_loop registers status).
Proof.
  induction registers as [|r l IH]; intros status; cbn [_set_registers_loop].
  - apply bus_only_ret.
  - apply bus_only_bind; [apply bus_only__set_register|]. intros ?. apply IH.
Qed.

Lemma bus_only__set_fields_step (rfs : field_or_fieldset) : bus_only (_set_fields_step rfs).
Proof.
  unfold _set_fields_step.
  do 3 (apply bus_only_bind; [apply bus_only_lift|]; intros ?).
  apply bus_only_bind; [|intros ?; apply bus_only__set_register].
  match goal with |- bus_only (if ?b then _ else _) => destruct b end;
    [|apply bus_only_ret].
  apply bus_only_bind; [apply bus_only_get_register|]. intros so.
  destruct so.2; [apply bus_only_ret | apply bus_only_raise].
Qed.

Lemma bus_only__set_fields_loop (l : list field_or_fieldset) :
  forall status, bus_only (_set_fields_loop l status).
Proof.
  induction l as [|r l IH]; intros status; cbn [_set_fields_loop].
  - apply bus_only_ret.
  - apply bus_only_bind; [apply bus_only__set_fields_step|]. intros ?. apply IH.
Qed.

Lemma bus_only_set (items : list item) : bus_only (set items).
Proof.
  unfold set. do 3 (apply bus_only_bind; [apply bus_only_lift|]; intros ?).
  apply bus_only_bind.
  { unfold _set_registers. apply bus_only_bind; [apply bus_only_lift|]. intros ?.
    apply bus_only__set_registers_loop. }
  intros ?. apply bus_only_bind; [apply bus_only__set_fields_loop|]. intros [?|];
    apply bus_only_ret.
Qed.

Lemma bus_only__write_payload (command : Z) (data : pyvalue) :
  bus_only (_write_payload command data).
Proof. unfold _write_payload. repeat bus_only_step. Qed.

(** X8.  Reading, writing, the two flushes and the payload commands use the
    SPI object only, on any transport and whatever they return: they do
    nothing to the chip-enable pin or the interrupt callback, and leave
    the wait in progress and the clock as they were. *)
Theorem bus_commands_use_the_bus_only :
  (forall rs, bus_only (get rs))
  /\ (forall items, bus_only (set items))
  /\ (forall a size, bus_only (get_register a size))
  /\ bus_only flush_tx_fifo
  /\ bus_only flush_rx_fifo
  /\ (forall data, bus_only (write_tx_payload data))
  /\ (forall pipe data, bus_only (write_ack_payload pipe data))
  /\ (forall data, bus_only (write_tx_payload_no_ack data))
  /\ (forall num_bytes, bus_only (read_rx_payload num_bytes)).
Proof.
  repeat split_and; intros.
  - apply bus_only_get.
  - apply bus_only_set.
  - apply bus_only_get_register.
  - unfold flush_tx_fifo. repeat bus_only_step.
  - unfold flush_rx_fifo. repeat bus_only_step.
  - apply bus_only__write_payload.
  - unfold write_ack_payload. apply bus_only_bind; [apply bus_only_lift|].
    intros ?. apply bus_only__write_payload.
  - apply bus_only__write_payload.
  - unfold read_rx_payload. repeat bus_only_step.
Qed.

End BusOnly.

(** *** [get] on any well-behaved transport *)

Section ReadingBounds.

Context {S : Type} {spi : Spi S} {order : IterOrder}.

Lemma get_fetch_bytes (Hwb : well_behaved) (L : list Z) :
  forall (values : gmap Z Z) (d : device S),
  (forall b v, values !! b = Some v -> 0 <= v <= 255) ->
  exists d' values',
    get_fetch L values d = (d', Ok values')
    /\ (forall b v, values' !! b = Some v -> 0 <= v <= 255)
    /\ (forall b, b ∈ L \/ is_Some (values !! b) \/ (L <> [] /\ b = ADDRESS REG_STATUS) ->
                  is_Some (values' !! b)).
Proof.
  induction L as [|a L IH]; intros values d Hbytes.
  - exists d, values. cbn. split; [reflexivity|]. split; [exact Hbytes|].
    intros b [Hb|[Hb|[Hb _]]]; [now apply elem_of_nil in Hb | exact Hb | now destruct Hb].
  - destruct (well_behaved_read Hwb (_spi d) a) as (s' & st & rv & Hx & Hst & Hrv).
    cbn [get_fetch]. unfold bind at 1. unfold spi_xfer2 at 1. rewrite Hx. cbn [fst snd].
    match goal with |- context [get_fetch L ?v ?d1] =>
      destruct (IH v d1) as (d' & values' & Hf & Hb' & Hdom) end.
    { intros b v. destruct (decide (b = a)) as [->|Hne].
      - rewrite lookup_insert_eq. intros [= <-]. exact Hrv.
      - rewrite lookup_insert_ne by congruence.
        destruct (decide (b = ADDRESS REG_STATUS)) as [->|Hne'].
        + rewrite lookup_insert_eq. intros [= <-]. exact Hst.
        + rewrite lookup_insert_ne by congruence. apply Hbytes. }
    exists d', values'. split; [exact Hf|]. split; [exact Hb'|].
    intros b Hb. apply Hdom.
    destruct (decide (b = a)) as [->|Hne];
      [right; left; rewrite lookup_insert_eq; eauto|].
    destruct (decide (b = ADDRESS REG_STATUS)) as [->|Hne'];
      [right; left; rewrite lookup_insert_ne, lookup_insert_eq by congruence; eauto|].
    destruct Hb as [Hb|[Hb|[_ Hb]]]; [| |contradiction].
    + apply elem_of_cons in Hb as [Hb|Hb]; [contradiction | now left].
    + right. left. now rewrite !lookup_insert_ne by congruence.
Qed.

Lemma get_project_bounded (values : gmap Z Z) (rs : list request) :
  (forall b v, values !! b = Some v -> 0 <= v <= 255) ->
  Forall in_module rs ->
  (forall r, r ∈ rs -> is_Some (values !! req_address r)) ->
  exists vs, get_project rs values = Ok vs
             /\ Forall2 (fun r v => 0 <= v <= req_max r) rs vs.
Proof.
  intros Hbytes. induction 1 as [|r rs Hr Hmod IH]; intros Hdom.
  - exists []. split; [reflexivity | constructor].
  - destruct IH as (vs & Hvs & Hall); [intros r' Hr'; apply Hdom; now right|].
    destruct (Hdom r (list_elem_of_here _ _)) as (x & Hx).
    pose proof (Hbytes _ _ Hx) as Hbx.
    assert (Hone : exists v, get_one values r = Ok v /\ 0 <= v <= req_max r).
    { destruct r as [c|f]; cbn in *; unfold dict_get; rewrite Hx.
      - now exists x.
      - cbn. rewrite field_get_byte by exact Hbx. eexists. split; [reflexivity|].
        destruct (module_class_checks f Hr) as (_ & Hn & _).
        rewrite get_max_value_pow, Z.land_ones by lia.
        pose proof (Z.mod_pos_bound (Z.shiftr x (START_BIT f)) (2 ^ NUM_BITS f)).
        assert (0 < 2 ^ NUM_BITS f) by (apply Z.pow_pos_nonneg; lia). lia. }
    destruct Hone as (v & Hv & Hbound).
    exists (v :: vs). cbn [get_project]. rewrite Hv, Hvs. cbn.
    split; [reflexivity | now constructor].
Qed.

(** X9.  On a transport that answers every exchange, [get] of fields and
    one-byte registers of the module always returns, and each value lies
    between 0 and the maximum of its field, or is a byte for a register. *)
Theorem get_returns_bounded_values (Hwb : well_behaved)
    (rs : list request) (d : device S) :
  Forall in_module rs -> forallb req_ok rs = true ->
  exists vs, (get rs d).2 = Ok (scalar_or_tuple vs)
             /\ Forall2 (fun r v => 0 <= v <= req_max r) rs vs.
Proof.
  intros Hmod Hok.
  rewrite (get_unfold rs d _ (get_needed_ok rs _ Hok)). fold (fetched rs).
  destruct (get_fetch_bytes Hwb (set_iter (fetched rs)) ∅ d) as (d' & values & Hf & Hb & Hdom).
  { intros b v Hbv. now rewrite lookup_empty in Hbv. }
  destruct (get_project_bounded values rs Hb Hmod) as (vs & Hvs & Hall).
  { intros r Hr. apply Hdom.
    destruct (decide (req_address r = ADDRESS REG_STATUS)) as [Heq|Hne].
    - right. right. split; [apply fetched_nonempty | exact Heq].
    - left. apply elem_of_set_iter, fetched_spec. right. split; [exact Hne|]. now exists r. }
  exists vs. split; [|exact Hall].
  unfold bind at 1. rewrite Hf. unfold bind, lift, ret. now rewrite Hvs.
Qed.

End ReadingBounds.

Lemma get_returns_bounded_values_witness :
  let rs := [ReqField RF_CH; ReqRegister REG_CONFIG; ReqField AW] in
  let d := new_device (<[0x05 := 0x4C]> ∅ : gmap Z Z) in
  exists vs, (get rs d).2 = Ok (scalar_or_tuple vs)
             /\ Forall2 (fun r v => 0 <= v <= req_max r) rs vs.
Proof.
  intros rs d. apply (get_returns_bounded_values sim_well_behaved rs d).
  - repeat constructor; cbn; first [apply module_field_elem | apply module_register_elem];
      vm_compute; reflexivity.
  - reflexivity.
Defined.

(** *** Writing fields and reading them back *)

Lemma extract_union (V M old s n v : Z) :
  0 <= s -> 0 <= n -> 0 <= v < 2 ^ n ->
  Z.land V (Z.shiftl (Z.ones n) s) = Z.shiftl v s ->
  within (Z.shiftl (Z.ones n) s) M ->
  Z.land (Z.shiftr (Z.lor V (Z.land old (Z.lnot M))) s) (Z.ones n) = v.
Proof.
  intros Hs Hn Hv HV HM. unfold within in HM.
  assert (Hvn : Z.land v (Z.ones n) = v).
  { rewrite Z.land_ones by exact Hn. apply Z.mod_small. lia. }
  apply Z.bits_inj'. intros i Hi.
  bit_of Hvn i. bit_of HV (i + s). bit_of HM (i + s).
  rewrite !Z.shiftl_spec in * by lia.
  replace (i + s - s) with i in * by lia.
  rewrite Z.land_spec, Z.shiftr_spec, Z.lor_spec, Z.land_spec, Z.lnot_spec by lia.
  destruct (Z.lt_ge_cases i n) as [Hlt|Hge].
  - rewrite Z.ones_spec_low in * by lia. rewrite andb_true_r in *.
    cbn in Hbit1. rewrite Hbit1, Hbit0. cbn. now rewrite andb_false_r, orb_false_r.
  - rewrite Z.ones_spec_high in * by lia. rewrite andb_false_r in *. now rewrite <- Hbit.
Qed.

Lemma keep_union (V M old s n : Z) :
  0 <= s -> 0 <= n -> within V M -> Z.land M (Z.shiftl (Z.ones n) s) = 0 ->
  Z.land (Z.shiftr (Z.lor V (Z.land old (Z.lnot M))) s) (Z.ones n)
  = Z.land (Z.shiftr old s) (Z.ones n).
Proof.
  intros Hs Hn HV HM. unfold within in HV.
  apply Z.bits_inj'. intros i Hi.
  bit_of HV (i + s). bit_of HM (i + s).
  rewrite Z.shiftl_spec in Hbit0 by lia.
  replace (i + s - s) with i in * by lia. rewrite Z.bits_0 in Hbit0.
  rewrite !Z.land_spec, !Z.shiftr_spec, Z.lor_spec, Z.land_spec, Z.lnot_spec by lia.
  destruct (Z.lt_ge_cases i n) as [Hlt|Hge].
  - rewrite Z.ones_spec_low in * by lia. rewrite andb_true_r in *.
    rewrite Hbit0 in *. rewrite andb_false_r in Hbit. rewrite <- Hbit.
    cbn. now rewrite andb_true_r.
  - rewrite Z.ones_spec_high by lia. now rewrite !andb_false_r.
Qed.

Lemma mask_union_disjoint (l : list _RegisterField) (m : Z) :
  (forall g, g ∈ l -> Z.land (_get_mask (field_cls g)) m = 0) ->
  Z.land (mask_union l) m = 0.
Proof.
  unfold mask_union. induction l as [|g l IH]; intros H; cbn; [reflexivity|].
  rewrite Z.land_lor_distr_l, (H g) by now left. rewrite IH; [reflexivity|].
  intros g' Hg'. apply H. now right.
Qed.

Lemma within_disjoint (x m n : Z) : within x m -> Z.land m n = 0 -> Z.land x n = 0.
Proof.
  unfold within. intros Hx Hm. rewrite <- Hx, <- Z.land_assoc, Hm. apply Z.land_0_r.
Qed.

Lemma mask_union_covers (l : list _RegisterField) (f : _RegisterField) :
  f ∈ l -> within (_get_mask (field_cls f)) (mask_union l).
Proof.
  unfold mask_union, within. induction l as [|g l IH]; intros Hf.
  - now apply elem_of_nil in Hf.
  - cbn. apply elem_of_cons in Hf as [->|Hf].
    + apply Z.bits_inj'. intros i _. rewrite Z.land_spec, Z.lor_spec.
      destruct (Z.testbit (_get_mask (field_cls g)) i); reflexivity.
    + specialize (IH Hf). apply Z.bits_inj'. intros i _. bit_of IH i.
      rewrite Z.land_spec, Z.lor_spec.
      destruct (Z.testbit (_get_mask (field_cls f)) i); [|reflexivity].
      cbn in Hbit. rewrite Hbit. now rewrite orb_true_r.
Qed.

(** The combined value of a field set, under the mask of one of its
    fields, is the value of that field. *)
Lemma value_union_at (l : list _RegisterField) (f : _RegisterField) :
  fs_inv l -> f ∈ l -> Z.land (value_union l) (_get_mask (field_cls f)) = shifted f.
Proof.
  induction l as [|g l IH]; intros Hinv Hf; [now apply elem_of_nil in Hf|].
  pose proof (fs_inv_tail g l Hinv) as Hinv'.
  pose proof (fs_inv_head_disjoint g l Hinv) as Hdis.
  destruct Hinv as (Hv & Ha & Hn).
  change (value_union (g :: l)) with (Z.lor (shifted g) (value_union l)).
  rewrite Z.land_lor_distr_l.
  inversion Hv as [|? ? Hg Hl]; subst.
  cbn in Hn. apply NoDup_cons in Hn as [Hnotin _].
  apply elem_of_cons in Hf as [->|Hf].
  - rewrite (shifted_within g Hg).
    rewrite (within_disjoint _ (mask_union l)); [apply Z.lor_0_r| |].
    + now apply value_within_mask.
    + apply mask_union_disjoint. intros g' Hg'.
      rewrite Z.land_comm. now apply Hdis.
  - rewrite (within_disjoint _ (_get_mask (field_cls g))), IH; try assumption.
    + apply Z.lor_0_l.
    + now apply shifted_within.
    + now apply Hdis.
Qed.

Lemma ior_fields_ok (l : list _RegisterField) :
  forall t, fs_inv (rfs_fields t ++ l) ->
            ior_fields t l = Ok {| rfs_fields := rfs_fields t ++ l |}.
Proof.
  induction l as [|f l IH]; intros t Hinv.
  - cbn. rewrite app_nil_r. now destruct t.
  - cbn [ior_fields]. pose proof Hinv as (Hv & Ha & Hn).
    rewrite ior_field_same_register.
    + rewrite map_app in Hn. cbn [map] in Hn.
      apply NoDup_app in Hn as (_ & Hcross & _).
      assert (Hname : FIELD_NAME (field_cls f)
                      ∉ map (fun g => FIELD_NAME (field_cls g)) (rfs_fields t)).
      { intros Hin. apply (Hcross _ Hin). now left. }
      apply name_check in Hname. rewrite Hname. cbn [rbind].
      rewrite IH; cbn [rfs_fields]; rewrite <- app_assoc; [reflexivity|].
      exact Hinv.
    + intros g Hg. apply Ha; rewrite elem_of_app; [right; now left | now left].
Qed.

Lemma item_fields_inv (it : item) (a : Z) :
  is_item_value it -> item_address it = Some a ->
  exists f l, item_fields it = f :: l /\ fs_inv (item_fields it)
              /\ REGISTER_ADDRESS (field_cls f) = a.
Proof.
  destruct it as [r|f|s]; cbn; intros Hit Ha; [discriminate| |].
  - injection Ha as <-. exists f, []. split; [reflexivity|]. split; [|reflexivity].
    split; [|split].
    + now constructor.
    + intros f1 f2 H1 H2. apply list_elem_of_singleton in H1, H2. now subst.
    + cbn. apply NoDup_singleton.
  - destruct Hit as [Hne Hinv]. destruct (rfs_fields s) as [|f l]; [contradiction|].
    cbn in Ha. injection Ha as <-. now exists f, l.
Qed.

Lemma set_plan_single (it : item) (a : Z) :
  is_item_value it -> item_address it = Some a ->
  set_plan [it] = Ok (∅, {[a := {| rfs_fields := item_fields it |}]}).
Proof.
  intros Hit Ha. destruct (item_fields_inv it a Hit Ha) as (f & l & Hl & Hinv & Hf).
  unfold set_plan. cbn [length assert Z.leb Z.of_nat Z.compare rbind].
  destruct it as [r|f'|s]; [discriminate| |].
  - cbn in Ha, Hl. injection Ha as <-.
    cbn [set_registers_dict set_field_sets_dict rbind]. unfold set_merge.
    rewrite !lookup_empty. cbn [is_None assert rbind default __ior__].
    unfold ior_field. cbn. now rewrite insert_empty.
  - cbn in Hl. cbn [set_registers_dict set_field_sets_dict rbind].
    unfold first_field. rewrite Hl. cbn [rbind]. unfold set_merge.
    rewrite !lookup_empty. cbn [is_None assert rbind default __ior__].
    rewrite ior_fields_ok by (cbn; exact Hinv).
    cbn. rewrite Hf. now rewrite insert_empty.
Qed.

Lemma lor_command (a : Z) : 0 <= a < 0x20 -> Z.lor 0x20 a = 0x20 + a.
Proof.
  intros Ha. rewrite Z.add_nocarry_lxor, Z.lxor_lor; try reflexivity.
  all: replace a with (Z.land a (Z.ones 5))
         by (rewrite Z.land_ones by lia; apply Z.mod_small; cbn; lia);
       now rewrite (Z.land_comm a), Z.land_assoc.
Qed.

Section SetThenGet.

Context {S : Type} {spi : Spi S} {order : IterOrder}.
Variable regs : S -> Z -> Z.
Hypothesis Hr : read_contract regs.
Hypothesis Hw : write_contract regs.

Lemma valid_one_address (a : Z) :
  _assert_valid_register_and_size a 1 = Ok tt -> 0 <= a < 0x20.
Proof.
  intros Hv. destruct (valid_register_and_size_spec a 1) as [_ Hbad].
  assert (Hd : valid_register_and_size a 1 \/ ~ valid_register_and_size a 1)
    by (unfold valid_register_and_size; lia).
  destruct Hd as [Hd|Hd].
  - unfold valid_register_and_size in Hd. lia.
  - destruct (Hbad Hd) as (msg & Hmsg). congruence.
Qed.

Lemma _set_register_store (a v : Z) (d : device S) :
  _assert_valid_register_and_size a 1 = Ok tt -> a <> ADDRESS REG_STATUS ->
  0 <= v <= 255 ->
  exists d' status,
    _set_register a (VInt v) d = (d', Ok status)
    /\ regs (_spi d') a = v
    /\ forall b, b <> a -> b <> ADDRESS REG_STATUS -> regs (_spi d') b = regs (_spi d) b.
Proof.
  intros Hvalid Hne Hv.
  destruct (Hw (_spi d) a v (valid_one_address a Hvalid) Hne Hv)
    as (s' & reply & Hx & Hreply & Hstore & Hframe).
  destruct reply as [|st reply]; [contradiction|].
  unfold _set_register. unfold bind at 1. unfold lift at 1.
  unfold bind at 1. unfold lift at 1. rewrite Hvalid.
  unfold bind at 1. unfold lift at 1. cbn [_to_bytes].
  replace (is_byte v) with true by (symmetry; apply andb_true_iff; lia).
  cbn [assert rbind]. unfold bind at 1. unfold spi_xfer2 at 1. rewrite Hx.
  cbn. eexists _, st. split; [reflexivity|]. cbn. now split.
Qed.

Lemma get_register_contract (a : Z) (d : device S) :
  _assert_valid_register_and_size a 1 = Ok tt -> a <> ADDRESS REG_STATUS ->
  exists d', get_register a 1 d
             = (d', Ok (regs (_spi d) (ADDRESS REG_STATUS), RInt (regs (_spi d) a)))
             /\ forall b, regs (_spi d') b = regs (_spi d) b.
Proof.
  intros Hvalid Hne. destruct Hr as [Hread _].
  destruct (Hread (_spi d) a (valid_one_address a Hvalid)) as (s' & Hx & Hsame).
  unfold get_register. unfold bind at 1. unfold lift at 1. rewrite Hvalid.
  apply Z.eqb_neq in Hne. rewrite Hne. cbn [negb].
  unfold bind at 1. unfold spi_xfer2 at 1.
  change (a :: repeat _SPI_NOP (Z.to_nat 1)) with [a; _SPI_NOP].
  rewrite Hx. cbn. eexists. split; [reflexivity|]. exact Hsame.
Qed.

Lemma _set_fields_step_store (s : _RegisterFieldSet) (a m v : Z) (d : device S) :
  ready s a m v -> a <> ADDRESS REG_STATUS ->
  exists d' status,
    _set_fields_step (AFieldSet s) d = (d', Ok status)
    /\ regs (_spi d') a = Z.lor v (Z.land (regs (_spi d) a) (Z.lnot m))
    /\ forall b, b <> a -> b <> ADDRESS REG_STATUS -> regs (_spi d') b = regs (_spi d) b.
Proof.
  intros (Ha & Hm & Hv & Hvalid) Hne.
  pose proof (get_mask_byte s m Hm) as Hmb.
  pose proof (get_value_within s m v Hm Hv) as Hvm.
  assert (Hvb : within v 0xFF).
  { apply (within_trans v m); [exact Hvm | now apply byte_land]. }
  pose proof (proj2 Hr (_spi d) a) as Hold.
  unfold _set_fields_step.
  unfold bind at 1. unfold lift at 1. rewrite Ha.
  unfold bind at 1. unfold lift at 1. rewrite Hm.
  unfold bind at 1. unfold lift at 1. rewrite Hv.
  destruct (decide (m = 0xFF)) as [->|Hnm].
  - cbn [Z.eqb Pos.eqb negb]. unfold bind at 1. unfold ret at 1.
    destruct (_set_register_store a v d Hvalid Hne) as (d' & st & Hs & Hst & Hfr);
      [now apply byte_land|].
    exists d', st. split; [exact Hs|]. split; [|exact Hfr].
    rewrite Hst. replace (Z.land (regs (_spi d) a) (Z.lnot 255)) with 0;
      [now rewrite Z.lor_0_r|].
    symmetry. apply within_lnot. now apply byte_land.
  - apply Z.eqb_neq in Hnm. rewrite Hnm. cbn [negb].
    destruct (get_register_contract a d Hvalid Hne) as (d1 & Hg & Hsame).
    unfold bind at 1. unfold bind at 1. rewrite Hg. cbn [snd]. unfold ret at 1.
    destruct (_set_register_store a (Z.lor v (Z.land (regs (_spi d) a) (Z.lnot m))) d1
                Hvalid Hne) as (d' & st & Hs & Hst & Hfr);
      [now apply merged_byte|].
    exists d', st. split; [exact Hs|]. split; [exact Hst|].
    intros b Hb Hb'. now rewrite Hfr, Hsame.
Qed.

Lemma get_field_contract (g : field_class) (d : device S) :
  g ∈ module_fields ->
  (get [ReqField g] d).2
  = Ok (PyInt (Z.land (Z.shiftr (regs (_spi d) (REGISTER_ADDRESS g)) (START_BIT g))
                      (Z.ones (NUM_BITS g)))).
Proof.
  intros Hg. rewrite (get_contract regs Hr [ReqField g] d); [reflexivity| |reflexivity].
  apply List.Forall_cons; [exact Hg | apply List.Forall_nil].
Qed.

(** X10.  Writing a field, or a set of fields, of a register other than
    STATUS and reading back: on a chip that stores what is written, each
    field written reads as the value given, and every other field of the
    module, in the same register or another, reads as before. *)
Theorem set_then_get (it : item) (a : Z) (d : device S) :
  is_item_value it -> item_address it = Some a -> a <> ADDRESS REG_STATUS ->
  exists d' status,
    set [it] d = (d', Ok (Some status))
    /\ (forall f v, f ∈ item_fields it -> f_value f = Some v ->
          (get [ReqField (field_cls f)] d').2 = Ok (PyInt v))
    /\ (forall g, g ∈ module_fields -> REGISTER_ADDRESS g <> ADDRESS REG_STATUS ->
          (forall f, f ∈ item_fields it -> FIELD_NAME g <> FIELD_NAME (field_cls f)) ->
          (get [ReqField g] d').2 = (get [ReqField g] d).2).
Proof.
  intros Hit Ha Hne.
  destruct (item_fields_inv it a Hit Ha) as (f0 & l0 & Hl & Hinv & Hf0).
  set (s := {| rfs_fields := item_fields it |}).
  assert (Hready : ready s a (mask_union (item_fields it)) (value_union (item_fields it))).
  { rewrite <- Hf0. now apply (fs_inv_ready s f0 l0). }
  destruct (_set_fields_step_store s a _ _ d Hready Hne) as (d' & st & Hs & Hst & Hfr).
  exists d', st. split; [|split].
  - rewrite set_of_plan, (set_plan_single it a Hit Ha).
    rewrite dict_values_empty, dict_values_singleton.
    unfold bind at 1. rewrite _set_registers_nil.
    unfold bind at 1. unfold _set_fields. cbn [map _set_fields_loop].
    unfold bind at 1. fold s. now rewrite Hs.
  - intros f v Hf Hv.
    pose proof Hinv as (Hvals & Haddr & _).
    assert (Hfv : is_field_value f) by (rewrite Forall_forall in Hvals; now apply Hvals).
    assert (Hfa : REGISTER_ADDRESS (field_cls f) = a).
    { rewrite <- Hf0. apply Haddr; [exact Hf | rewrite Hl; now left]. }
    rewrite get_field_contract by apply Hfv. rewrite Hfa, Hst. do 2 f_equal.
    destruct (module_class_checks _ (proj1 Hfv)) as (Hsb & Hnb & _).
    destruct (field_value_range f Hfv) as (v' & Hv' & Hrange).
    assert (v' = v) as -> by congruence.
    pose proof (value_union_at _ f Hinv Hf) as Hat.
    pose proof (mask_union_covers _ f Hf) as Hcov.
    unfold shifted in Hat. rewrite Hv in Hat. cbn [default] in Hat.
    unfold _get_mask, _get_unshifted_mask in Hat, Hcov.
    change (Z.shiftl 1 (NUM_BITS (field_cls f)) - 1)
      with (Z.ones (NUM_BITS (field_cls f))) in Hat, Hcov.
    apply extract_union; try assumption; try lia.
    rewrite get_max_value_pow in Hrange. lia.
  - intros g Hg Hgs Hnames. rewrite !get_field_contract by exact Hg. do 2 f_equal.
    destruct (decide (REGISTER_ADDRESS g = a)) as [Hga|Hga]; [|now rewrite Hfr].
    rewrite Hga, Hst. destruct (module_class_checks _ Hg) as (Hsb & Hnb & _).
    pose proof Hinv as (Hvals & Haddr & _).
    apply keep_union; try lia.
    + now apply value_within_mask.
    + change (Z.ones (NUM_BITS g)) with (Z.shiftl 1 (NUM_BITS g) - 1).
      change (Z.shiftl (Z.shiftl 1 (NUM_BITS g) - 1) (START_BIT g)) with (_get_mask g).
      apply mask_union_disjoint. intros f Hf.
      assert (Hfv : is_field_value f) by (rewrite Forall_forall in Hvals; now apply Hvals).
      apply module_pair_checks; [apply Hfv | exact Hg | | ].
      * rewrite Hga, <- Hf0. apply Haddr; [exact Hf | rewrite Hl; now left].
      * intros Heq. now apply (Hnames f Hf).
Qed.

End SetThenGet.

Lemma sim_write_contract : write_contract (spi := sim_spi) sim_reg.
Proof.
  intros s a v Ha Hne Hv. rewrite (lor_command a Ha).
  unfold xfer2, sim_spi, sim_xfer2.
  replace ((0 <=? 32 + a) && (32 + a <? 32)) with false
    by (symmetry; apply andb_false_iff; lia).
  replace ((32 <=? 32 + a) && (32 + a <? 64)) with true
    by (symmetry; apply andb_true_iff; lia).
  eexists _, _. split; [reflexivity|]. split; [discriminate|].
  replace (32 + a - 32) with a by lia. unfold sim_reg. split.
  - rewrite lookup_insert_eq. cbn. apply Z.mod_small. lia.
  - intros b Hb _. now rewrite lookup_insert_ne by congruence.
Qed.

Lemma set_then_get_witness :
  let it := IFieldSet {| rfs_fields := [field_value PWR_UP 1; field_value PRIM_RX 1] |} in
  let d := new_device (<[0x00 := 0x08]> ∅ : gmap Z Z) in
  exists d' status,
    set [it] d = (d', Ok (Some status))
    /\ (forall f v, f ∈ item_fields it -> f_value f = Some v ->
          (get [ReqField (field_cls f)] d').2 = Ok (PyInt v))
    /\ (forall g, g ∈ module_fields -> REGISTER_ADDRESS g <> ADDRESS REG_STATUS ->
          (forall f, f ∈ item_fields it -> FIELD_NAME g <> FIELD_NAME (field_cls f)) ->
          (get [ReqField g] d').2 = (get [ReqField g] d).2).
Proof.
  intros it d.
  apply (set_then_get sim_reg sim_read_contract sim_write_contract it 0x00 d).
  - split; [discriminate|]. apply fs_inv_b_spec. vm_compute. reflexivity.
  - reflexivity.
  - discriminate.
Defined.

(** *** Writing a register and reading it back *)

Section SetRegisterThenGet.

Context {S : Type} {spi : Spi S} {order : IterOrder}.
Variable regs : S -> Z -> Z.
Hypothesis Hr : read_contract regs.
Hypothesis Hw : write_contract regs.

(** X11.  Writing a one-byte register other than STATUS and reading back:
    on a chip that stores what is written, the register reads as the byte
    given and every other one-byte register of the module, STATUS apart,
    reads as before. *)
Theorem set_register_then_get (r : _Register) (z : Z) (d : device S) :
  is_register_value r -> r_value r = Some (RInt z) ->
  ADDRESS (reg_cls r) <> ADDRESS REG_STATUS ->
  exists d' status,
    set [IRegister r] d = (d', Ok (Some status))
    /\ (get [ReqRegister (reg_cls r)] d').2 = Ok (PyInt z)
    /\ (forall c, c ∈ module_registers -> is_one_byte c = true ->
          ADDRESS c <> ADDRESS (reg_cls r) -> ADDRESS c <> ADDRESS REG_STATUS ->
          (get [ReqRegister c] d').2 = (get [ReqRegister c] d).2).
Proof.
  intros Hrv Hz Hne.
  destruct (register_value_writes r Hrv) as [Hbytes Hvalid].
  rewrite Hz in Hbytes, Hvalid. cbn in Hbytes, Hvalid.
  assert (Hzb : 0 <= z <= 255).
  { destruct (is_byte z) eqn:Hb; cbn in Hbytes; [|discriminate].
    unfold is_byte in Hb. apply andb_true_iff in Hb. lia. }
  assert (Hone : is_one_byte (reg_cls r) = true).
  { destruct Hrv as [_ (v & Hv)]. unfold _Register__init__ in Hv.
    fold (is_one_byte (reg_cls r)) in Hv.
    destruct v as [z'|l], (is_one_byte (reg_cls r)); try reflexivity; cbn in Hv;
      try discriminate.
    destruct (_ && _ && _ && _) in Hv; [|discriminate].
    injection Hv as Hv. rewrite <- Hv in Hz. discriminate. }
  destruct (_set_register_store regs Hw _ z d Hvalid Hne Hzb) as (d' & st & Hs & Hst & Hfr).
  exists d', st. split; [|split].
  - rewrite set_of_plan.
    assert (Hplan : set_plan [IRegister r] = Ok ({[ADDRESS (reg_cls r) := r]}, ∅)).
    { unfold set_plan. cbn. rewrite lookup_empty. cbn. now rewrite insert_empty. }
    rewrite Hplan, dict_values_empty, dict_values_singleton.
    unfold bind at 1. unfold _set_registers. unfold bind at 1. unfold lift at 1.
    rewrite bool_decide_eq_true_2.
    2: { cbn [map list_to_set length]. rewrite (right_id_L ∅ (∪)). apply size_singleton. }
    cbn [assert _set_registers_loop]. unfold bind at 1.
    rewrite Hz. cbn [of_regvalue]. rewrite Hs. reflexivity.
  - rewrite (get_contract regs Hr [ReqRegister (reg_cls r)] d').
    + cbn. now rewrite Hst.
    + apply List.Forall_cons; [apply Hrv | apply List.Forall_nil].
    + cbn. now rewrite Hone.
  - intros c Hc Hcone Hca Hcs.
    rewrite !(get_contract regs Hr [ReqRegister c]).
    + cbn. now rewrite Hfr.
    + apply List.Forall_cons; [exact Hc | apply List.Forall_nil].
    + cbn. now rewrite Hcone.
    + apply List.Forall_cons; [exact Hc | apply List.Forall_nil].
    + cbn. now rewrite Hcone.
Qed.

End SetRegisterThenGet.

Lemma set_register_then_get_witness :
  let r := register_value REG_RF_CH (RInt 76) in
  let d := new_device (∅ : gmap Z Z) in
  exists d' status,
    set [IRegister r] d = (d', Ok (Some status))
    /\ (get [ReqRegister (reg_cls r)] d').2 = Ok (PyInt 76)
    /\ (forall c, c ∈ module_registers -> is_one_byte c = true ->
          ADDRESS c <> ADDRESS (reg_cls r) -> ADDRESS c <> ADDRESS REG_STATUS ->
          (get [ReqRegister c] d').2 = (get [ReqRegister c] d).2).
Proof.
  intros r d.
  apply (set_register_then_get sim_reg sim_read_contract sim_write_contract r 76 d).
  - apply is_register_value_intro; vm_compute; reflexivity.
  - reflexivity.
  - discriminate.
Defined.

(** *** The value [set] returns *)

Section SetStatus.

Context {S : Type} {spi : Spi S} {order : IterOrder}.

Lemma bind_Ok {A B} (m : M S A) (k : A -> M S B) (d d' : device S) (y : B) :
  bind m k d = (d', Ok y) -> exists d1 x, m d = (d1, Ok x) /\ k x d1 = (d', Ok y).
Proof.
  unfold bind. destruct (m d) as [d1 [x|e|]]; intros H; [eauto|discriminate|discriminate].
Qed.

Lemma lift_Ok {A} (r : result A) (d d' : device S) (x : A) :
  lift r d = (d', Ok x) -> d' = d /\ r = Ok x.
Proof. unfold lift. intros [= <- ->]. now split. Qed.

Lemma _set_register_last (a : Z) (value : pyvalue) (d d' : device S) (st : Z) :
  _set_register a value d = (d', Ok st) -> last_status d' = Some st.
Proof.
  unfold _set_register. intros H.
  apply bind_Ok in H as (d1 & size & H1 & H). apply lift_Ok in H1 as [-> _].
  apply bind_Ok in H as (d1 & [] & H1 & H). apply lift_Ok in H1 as [-> _].
  apply bind_Ok in H as (d1 & bytes & H1 & H). apply lift_Ok in H1 as [-> _].
  apply bind_Ok in H as (d1 & data & H1 & H). apply lift_Ok in H as [-> H].
  unfold spi_xfer2 in H1. injection H1 as <- Hdata.
  unfold last_status. cbn [log]. rewrite last_snoc. cbn. rewrite Hdata.
  unfold index in H. destruct data as [|x data]; cbn in H; [discriminate|].
  now injection H as <-.
Qed.

Lemma _set_fields_step_last (rfs : field_or_fieldset) (d d' : device S) (st : Z) :
  _set_fields_step rfs d = (d', Ok st) -> last_status d' = Some st.
Proof.
  unfold _set_fields_step. intros H.
  do 4 (apply bind_Ok in H as (? & ? & _ & H)).
  now apply _set_register_last in H.
Qed.

Lemma _set_registers_loop_last (registers : list _Register) :
  forall (status status' : option Z) (d d' : device S),
    _set_registers_loop registers status d = (d', Ok status') ->
    (registers = [] /\ d' = d /\ status' = status)
    \/ (registers <> [] /\ exists st, status' = Some st /\ last_status d' = Some st).
Proof.
  induction registers as [|r l IH]; intros status status' d d' H; cbn in H.
  - left. unfold ret in H. injection H as <- <-. now repeat split.
  - right. split; [discriminate|].
    apply bind_Ok in H as (d1 & st1 & H1 & H). apply _set_register_last in H1.
    destruct (IH _ _ _ _ H) as [(_ & -> & ->)|(_ & st & -> & Hst)]; eauto.
Qed.

Lemma _set_fields_loop_last (l : list field_or_fieldset) :
  forall (status status' : option Z) (d d' : device S),
    _set_fields_loop l status d = (d', Ok status') ->
    (l = [] /\ d' = d /\ status' = status)
    \/ (l <> [] /\ exists st, status' = Some st /\ last_status d' = Some st).
Proof.
  induction l as [|r l IH]; intros status status' d d' H; cbn in H.
  - left. unfold ret in H. injection H as <- <-. now repeat split.
  - right. split; [discriminate|].
    apply bind_Ok in H as (d1 & st1 & H1 & H). apply _set_fields_step_last in H1.
    destruct (IH _ _ _ _ H) as [(_ & -> & ->)|(_ & st & -> & Hst)]; eauto.
Qed.

Lemma dict_values_nil {A} (m : gmap Z A) : dict_values m = [] -> m = ∅.
Proof.
  intros Hnil. apply map_empty. intros k.
  destruct (m !! k) as [v|] eqn:Hk; [|reflexivity]. exfalso.
  assert (Hin : v ∈ dict_values m).
  { unfold dict_values. apply list_elem_of_omap. exists k. split; [|exact Hk].
    rewrite iter_order_perm. apply elem_of_elements, elem_of_dom. eauto. }
  rewrite Hnil in Hin. now apply elem_of_nil in Hin.
Qed.

Lemma set_registers_dict_mono (items : list item) :
  forall registers registers',
    set_registers_dict items registers = Ok registers' ->
    forall a, is_Some (registers !! a) -> is_Some (registers' !! a).
Proof.
  induction items as [|[r|f|s] items IH]; intros registers registers' H a Ha; cbn in H.
  - now injection H as <-.
  - destruct (is_None (registers !! ADDRESS (reg_cls r))); cbn in H; [|discriminate].
    apply (IH _ _ H). rewrite lookup_insert_is_Some'. now right.
  - now apply (IH _ _ H).
  - now apply (IH _ _ H).
Qed.

Lemma set_merge_mono (r : field_or_fieldset) (register_field : _RegisterField)
    (registers : gmap Z _Register) (sets sets' : gmap Z _RegisterFieldSet) :
  set_merge r register_field registers sets = Ok sets' ->
  is_Some (sets' !! REGISTER_ADDRESS (field_cls register_field))
  /\ forall a, is_Some (sets !! a) -> is_Some (sets' !! a).
Proof.
  unfold set_merge. destruct (is_None (registers !! _)); cbn; [|discriminate].
  destruct (__ior__ _ r) as [rfs'|e|]; cbn; try discriminate.
  intros [= <-]. split.
  - rewrite lookup_insert_is_Some'. now left.
  - intros a Ha. rewrite lookup_insert_is_Some'. now right.
Qed.

Lemma set_field_sets_dict_mono (registers : gmap Z _Register) (items : list item) :
  forall sets sets',
    set_field_sets_dict items registers sets = Ok sets' ->
    forall a, is_Some (sets !! a) -> is_Some (sets' !! a).
Proof.
  induction items as [|[r|f|s] items IH]; intros sets sets' H a Ha; cbn in H.
  - now injection H as <-.
  - now apply (IH _ _ H).
  - destruct (set_merge (AField f) f registers sets) as [sets1| |] eqn:Hm; cbn in H;
      try discriminate.
    apply (IH _ _ H). now apply (set_merge_mono _ _ _ _ _ Hm).
  - destruct (first_field s) as [f| |]; cbn in H; try discriminate.
    destruct (set_merge (AFieldSet s) f registers sets) as [sets1| |] eqn:Hm; cbn in H;
      try discriminate.
    apply (IH _ _ H). now apply (set_merge_mono _ _ _ _ _ Hm).
Qed.

Lemma set_plan_nonempty (items : list item)
    (registers : gmap Z _Register) (sets : gmap Z _RegisterFieldSet) :
  set_plan items = Ok (registers, sets) -> registers <> ∅ \/ sets <> ∅.
Proof.
  unfold set_plan. destruct items as [|it items]; [discriminate|].
  replace (1 <=? Z.of_nat (length (it :: items))) with true
    by (symmetry; apply Z.leb_le; cbn [length]; lia).
  cbn [assert rbind].
  destruct (set_registers_dict (it :: items) ∅) as [regs| |] eqn:Hregs; cbn [rbind];
    try discriminate.
  destruct (set_field_sets_dict (it :: items) regs ∅) as [fsets| |] eqn:Hsets;
    cbn [rbind]; try discriminate.
  intros [= <- <-].
  assert (Hsome : forall {A} (m : gmap Z A) a, is_Some (m !! a) -> m <> ∅).
  { intros A m a [x Hx] ->. now rewrite lookup_empty in Hx. }
  destruct it as [r|f|s]; cbn in Hregs, Hsets.
  - left. destruct (is_None _) in Hregs; cbn in Hregs; [|discriminate].
    apply (Hsome _ _ (ADDRESS (reg_cls r))).
    apply (set_registers_dict_mono _ _ _ Hregs). rewrite lookup_insert_is_Some'. now left.
  - right. destruct (set_merge (AField f) f regs ∅) as [sets1| |] eqn:Hm; cbn in Hsets;
      try discriminate.
    apply (Hsome _ _ (REGISTER_ADDRESS (field_cls f))).
    apply (set_field_sets_dict_mono _ _ _ _ Hsets).
    exact (proj1 (set_merge_mono _ _ _ _ _ Hm)).
  - right. destruct (first_field s) as [f| |]; cbn in Hsets; try discriminate.
    destruct (set_merge (AFieldSet s) f regs ∅) as [sets1| |] eqn:Hm; cbn in Hsets;
      try discriminate.
    apply (Hsome _ _ (REGISTER_ADDRESS (field_cls f))).
    apply (set_field_sets_dict_mono _ _ _ _ Hsets).
    exact (proj1 (set_merge_mono _ _ _ _ _ Hm)).
Qed.

(** X12.  Whenever [set] returns, on any transport, it returns byte 0 of
    the reply of the last exchange it made, and it has made one: the
    STATUS register as the chip sent it last. *)
Theorem set_returns_last_status (items : list item) (d : device S) (status : option Z) :
  (set items d).2 = Ok status ->
  exists st, status = Some st /\ last_status (set items d).1 = Some st.
Proof.
  destruct (set items d) as [d' res] eqn:Hset. cbn [fst snd]. intros ->.
  rewrite set_of_plan in Hset.
  destruct (set_plan items) as [[registers sets]| |] eqn:Hplan; try discriminate.
  pose proof (set_plan_nonempty _ _ _ Hplan) as Hne.
  apply bind_Ok in Hset as (d1 & ms1 & H1 & Hset).
  apply bind_Ok in Hset as (d2 & ms2 & H2 & Hset).
  unfold _set_registers in H1. apply bind_Ok in H1 as (d0 & [] & H0 & H1).
  apply lift_Ok in H0 as [-> _].
  apply _set_registers_loop_last in H1. apply _set_fields_loop_last in H2.
  destruct H2 as [(Hnil & -> & ->)|(_ & st & -> & Hst)].
  - unfold ret in Hset. injection Hset as <- <-.
    destruct H1 as [(Hnil1 & -> & ->)|(_ & st & -> & Hst)]; [|eauto].
    exfalso. apply dict_values_nil in Hnil1.
    apply fmap_nil_inv, dict_values_nil in Hnil. tauto.
  - unfold ret in Hset. injection Hset as <- <-. eauto.
Qed.

End SetStatus.

Lemma set_returns_last_status_witness :
  let items := [IRegister (register_value REG_RF_CH (RInt 76));
                IField (field_value AW 3)] in
  let d := new_device (<[0x07 := 0x0E]> ∅ : gmap Z Z) in
  exists st, Some 0x0E = Some st /\ last_status (set items d).1 = Some st.
Proof.
  intros items d. apply (set_returns_last_status items d (Some 0x0E)).
  vm_compute. reflexivity.
Defined.

(** *** Waiting for the interrupt line *)

Section WaitingRounds.

Context {S : Type} {spi : Spi S} {order : IterOrder}.

Lemma truthy_bit (x k : Z) : 0 <= k -> truthy (Z.land (Z.shiftr x k) 1) = Z.testbit x k.
Proof.
  intros Hk. unfold truthy. change 1 with (Z.ones 1).
  rewrite Z.land_ones by lia. change (2 ^ 1) with 2.
  rewrite <- Z.bit0_mod, Z.shiftr_spec by lia. rewrite Z.add_0_l.
  now destruct (Z.testbit x k).
Qed.

Lemma poll_requests_fetched : set_iter (fetched poll_requests) = [0].
Proof.
  unfold set_iter.
  replace (elements (fetched poll_requests)) with [0] by (vm_compute; reflexivity).
  apply iter_order_singleton.
Qed.

(** The [get] of a round: one read of CONFIG, the six values taken from
    the two bytes of the reply. *)
Lemma poll_get (d : device S) (s' : S) (st cfg : Z) :
  xfer2 (_spi d) [0x00; 0xFF] = (s', Ok [st; cfg]) ->
  0 <= st <= 255 -> 0 <= cfg <= 255 ->
  get poll_requests d
  = (Device s' (_wait_info_cancellable d) (wait_infos d) (irq_callback d) (clock d)
            (log d ++ [Ev_xfer2 [0x00; 0xFF] (Ok [st; cfg])]),
     Ok (PyTuple [Z.land (Z.shiftr cfg 6) 1; Z.land (Z.shiftr cfg 5) 1;
                  Z.land (Z.shiftr cfg 4) 1; Z.land (Z.shiftr st 6) 1;
                  Z.land (Z.shiftr st 5) 1; Z.land (Z.shiftr st 4) 1])).
Proof.
  intros Hx Hst Hcfg.
  rewrite (get_unfold poll_requests d _ (get_needed_ok poll_requests _ eq_refl)).
  fold (fetched poll_requests). rewrite poll_requests_fetched.
  cbn [get_fetch]. unfold bind at 1. unfold bind at 1. unfold spi_xfer2 at 1.
  change _SPI_NOP with 0xFF. rewrite Hx. cbn [fst snd]. unfold ret at 1.
  unfold bind at 1. unfold lift at 1.
  rewrite (get_project_contract (fun a => if a =? 0 then cfg else st)).
  - reflexivity.
  - intros a. now destruct (a =? 0).
  - intros r Hr. unfold poll_requests in Hr.
    repeat (apply elem_of_cons in Hr as [->|Hr]); try (now apply elem_of_nil in Hr);
      reflexivity.
Qed.

(** One round of the loop, given the reply of its exchange. *)
Lemma poll_exchange (wi : nat) (timeout : option Z) (start_time : Z) (d : device S)
    (w : _WaitInfo) (s' : S) (st cfg : Z) :
  xfer2 (_spi d) [0x00; 0xFF] = (s', Ok [st; cfg]) ->
  0 <= st <= 255 -> 0 <= cfg <= 255 ->
  wait_infos d !! wi = Some w ->
  poll wi timeout start_time d
  = (Device s' (_wait_info_cancellable d) (wait_infos d) (irq_callback d) (clock d)
            (log d ++ [Ev_xfer2 [0x00; 0xFF] (Ok [st; cfg])]),
     Ok (irq_asserted st cfg
         || match timeout with
            | Some t => t <=? clock d - start_time
            | None => false
            end
         || cancelled w,
         clock d - start_time)).
Proof.
  intros Hx Hst Hcfg Hw. unfold poll. fold poll_requests.
  unfold bind at 1. rewrite (poll_get d s' st cfg Hx Hst Hcfg).
  unfold bind at 1. unfold time_time at 1. cbn [clock].
  unfold bind at 1. unfold get_wait_info at 1. cbn [wait_infos]. rewrite Hw.
  unfold ret. rewrite !truthy_bit by lia. reflexivity.
Qed.

(** A round changes nothing but the SPI object and the log, on any
    transport. *)
Lemma poll_frame_eq (wi : nat) (timeout : option Z) (start_time : Z)
    (d d1 : device S) (r : result (bool * Z)) :
  poll wi timeout start_time d = (d1, r) ->
  _wait_info_cancellable d1 = _wait_info_cancellable d
  /\ wait_infos d1 = wait_infos d
  /\ irq_callback d1 = irq_callback d
  /\ clock d1 = clock d.
Proof.
  unfold poll. fold poll_requests. unfold bind at 1.
  destruct (bus_only_get poll_requests d) as (H1 & H2 & H3 & H4 & _).
  destruct (get poll_requests d) as [d0 [x| |]]; cbn [fst] in *;
    try (intros [= <- <-]; tauto).
  destruct x as [z|l]; [cbn; intros [= <- <-]; tauto|].
  do 6 (destruct l as [|? l]; [cbn; intros [= <- <-]; tauto|]).
  destruct l as [|? l]; [|cbn; intros [= <- <-]; tauto].
  unfold bind, time_time, get_wait_info, ret.
  destruct (wait_infos d0 !! wi); cbn; intros [= <- <-]; tauto.
Qed.

Lemma poll_frame (wi : nat) (timeout : option Z) (start_time : Z) (d : device S) :
  _wait_info_cancellable (poll wi timeout start_time d).1 = _wait_info_cancellable d
  /\ wait_infos (poll wi timeout start_time d).1 = wait_infos d
  /\ irq_callback (poll wi timeout start_time d).1 = irq_callback d
  /\ clock (poll wi timeout start_time d).1 = clock d.
Proof.
  destruct (poll wi timeout start_time d) as [d1 r] eqn:Hp.
  exact (poll_frame_eq _ _ _ _ _ _ Hp).
Qed.

Lemma poll_total (Hwb : well_behaved) (wi : nat) (timeout : option Z) (start_time : Z)
    (d : device S) (w : _WaitInfo) :
  wait_infos d !! wi = Some w ->
  exists d1 b,
    poll wi timeout start_time d = (d1, Ok (b, clock d - start_time))
    /\ (cancelled w = true -> b = true)
    /\ (forall t, timeout = Some t -> t <= clock d - start_time -> b = true).
Proof.
  intros Hw.
  destruct (well_behaved_read Hwb (_spi d) 0) as (s' & st & cfg & Hx & Hst & Hcfg).
  eexists _, _. split; [apply (poll_exchange wi timeout start_time d w s' st cfg);
                        assumption|].
  split.
  - intros ->. apply orb_true_r.
  - intros t -> Ht. apply orb_true_iff. left. apply orb_true_iff. right.
    apply Z.leb_le. exact Ht.
Qed.

(** What sleeping does: time passes, and the wait object recorded as
    cancellable is marked when another thread cancels with its condition
    variable. *)
Lemma sleep_spec (w : wake (S := S)) (d : device S) :
  exists d',
    sleep w d = (d', Ok tt)
    /\ clock d' = clock d + w_elapsed w
    /\ _wait_info_cancellable d' = _wait_info_cancellable d
    /\ (wait_infos d' = wait_infos d
        \/ exists wc, wait_infos d' = alter mark_cancelled wc (wait_infos d))
    /\ (forall wc w0,
          w_cancel w = Some (condition_variable w0) ->
          _wait_info_cancellable d = Some wc ->
          wait_infos d !! wc = Some w0 ->
          wait_infos d' = alter mark_cancelled wc (wait_infos d)).
Proof.
  unfold sleep. destruct (w_cancel w) as [cv|] eqn:Hc.
  2: { eexists. split; [reflexivity|]. cbn. repeat split; [tauto|discriminate]. }
  unfold cancel_wait_for_irq. cbn [_wait_info_cancellable].
  destruct (_wait_info_cancellable d) as [wc|] eqn:Hwc.
  2: { eexists. split; [reflexivity|]. cbn. repeat split; [tauto|discriminate]. }
  unfold bind at 1. unfold get_wait_info at 1. cbn [wait_infos].
  destruct (wait_infos d !! wc) as [w0|] eqn:Hw0.
  2: { eexists. split; [reflexivity|]. cbn. repeat split; [tauto|].
       intros wc' w0' _ [= <-] Hw'. congruence. }
  unfold bind at 1. unfold lift at 1.
  destruct (decide (cv = condition_variable w0)) as [->|Hne].
  - rewrite bool_decide_eq_true_2 by reflexivity. cbn [assert].
    eexists. split; [reflexivity|]. cbn. repeat split.
    + right. now exists wc.
    + intros wc' w0' _ [= <-] Hw'. reflexivity.
  - rewrite bool_decide_eq_false_2 by exact Hne. cbn [assert].
    eexists. split; [reflexivity|]. cbn. repeat split; [tauto|].
    intros wc' w0' [= Hcv] [= <-] Hw'. congruence.
Qed.

Lemma sleep_keeps (w : wake (S := S)) (d : device S) (i : nat) (w0 : _WaitInfo) :
  wait_infos d !! i = Some w0 ->
  exists w1, wait_infos (sleep w d).1 !! i = Some w1
             /\ condition_variable w1 = condition_variable w0.
Proof.
  intros Hi. destruct (sleep_spec w d) as (d' & -> & _ & _ & Hinfos & _).
  cbn [fst]. destruct Hinfos as [->|(wc & ->)]; [eauto|].
  rewrite list_lookup_alter. destruct (decide (wc = i)) as [->|Hne]; [|eauto].
  rewrite Hi. cbn. eauto.
Qed.

Lemma wait_loop_break (wi : nat) (timeout : option Z) (start_time : Z)
    (script : list (wake (S := S))) (d d1 : device S) (e : Z) :
  poll wi timeout start_time d = (d1, Ok (true, e)) ->
  wait_loop wi timeout start_time script d = (d1, Ok tt).
Proof.
  intros Hp. destruct script; cbn [wait_loop]; unfold bind at 1; now rewrite Hp.
Qed.

Lemma wait_loop_sleep (wi : nat) (timeout : option Z) (start_time : Z)
    (w : wake (S := S)) (script : list (wake (S := S))) (d d1 : device S) (e : Z) :
  poll wi timeout start_time d = (d1, Ok (false, e)) ->
  wait_loop wi timeout start_time (w :: script) d
  = wait_loop wi timeout start_time script (sleep w d1).1.
Proof.
  intros Hp. cbn [wait_loop]. unfold bind at 1. rewrite Hp. cbn [fst].
  unfold bind at 1. destruct (sleep_spec w d1) as (d2 & -> & _). reflexivity.
Qed.

(** With a timeout the loop ends, whoever wakes the thread and however
    often. *)
Lemma wait_loop_timeout (Hwb : well_behaved) (wi : nat) (t start_time : Z)
    (script : list (wake (S := S))) :
  forall d, is_Some (wait_infos d !! wi) ->
  exists d', wait_loop wi (Some t) start_time script d = (d', Ok tt)
             /\ is_Some (wait_infos d' !! wi)
             /\ _wait_info_cancellable d' = _wait_info_cancellable d.
Proof.
  induction script as [|w script IH]; intros d [w0 Hw0].
  - destruct (poll_total Hwb wi (Some t) start_time d w0 Hw0) as (d1 & b & Hp & _ & _).
    destruct (poll_frame_eq _ _ _ _ _ _ Hp) as (F1 & F2 & _ & F4).
    destruct b.
    { exists d1. rewrite (wait_loop_break _ _ _ _ _ _ _ Hp), F1, F2. eauto. }
    cbn [wait_loop]. unfold bind at 1. rewrite Hp. cbn [fst snd].
    unfold bind at 1.
    match goal with |- context [sleep ?k d1] =>
      destruct (sleep_spec k d1) as (d2 & Hs & Hclock & Hc & _);
      destruct (sleep_keeps k d1 wi w0) as (w1 & Hw1 & _); [now rewrite F2|];
      rewrite Hs in *; cbn [fst] in Hw1
    end.
    cbn [w_elapsed] in Hclock.
    destruct (poll_total Hwb wi (Some t) start_time d2 w1 Hw1) as (d3 & b' & Hp' & _ & Hb').
    destruct (poll_frame_eq _ _ _ _ _ _ Hp') as (G1 & G2 & _).
    rewrite (Hb' t eq_refl) in Hp' by lia.
    unfold bind at 1. rewrite Hp'. cbn [fst]. exists d3. split; [reflexivity|].
    rewrite G1, G2, Hc, F1. eauto.
  - destruct (poll_total Hwb wi (Some t) start_time d w0 Hw0) as (d1 & b & Hp & _ & _).
    destruct (poll_frame_eq _ _ _ _ _ _ Hp) as (F1 & F2 & _).
    destruct b.
    { exists d1. rewrite (wait_loop_break _ _ _ _ _ _ _ Hp), F1, F2. eauto. }
    rewrite (wait_loop_sleep _ _ _ _ _ _ _ _ Hp).
    destruct (sleep_keeps w d1 wi w0) as (w1 & Hw1 & _); [now rewrite F2|].
    destruct (IH (sleep w d1).1) as (d' & Hl & Hsome & Hc); [eauto|].
    exists d'. split; [exact Hl|]. split; [exact Hsome|].
    rewrite Hc. destruct (sleep_spec w d1) as (d2 & -> & _ & Hc2 & _). cbn [fst].
    now rewrite Hc2.
Qed.

(** Once the loop has ended, the [finally] clause marks the wait object
    and unregisters the callback. *)
Lemma internal_wait_returns (wi : nat) (timeout : option Z)
    (script : list (wake (S := S))) (d d3 : device S) :
  wait_loop wi timeout (clock d) script (set_falling_edge_irq wi d).1 = (d3, Ok tt) ->
  exists d4,
    _internal_wait_for_irq_low wi timeout script d = (d4, Ok tt)
    /\ irq_callback d4 = None
    /\ _wait_info_cancellable d4 = _wait_info_cancellable d3
    /\ wait_infos d4 = alter mark_finished wi (wait_infos d3)
    /\ _spi d4 = _spi d3 /\ clock d4 = clock d3
    /\ log d4 = log d3 ++ [Ev_remove_falling_edge_irq].
Proof.
  intros Hl. unfold _internal_wait_for_irq_low.
  unfold bind at 1. unfold time_time at 1.
  unfold bind at 1. unfold set_falling_edge_irq at 1.
  unfold set_falling_edge_irq in Hl. cbn [fst] in Hl.
  unfold try_finally. rewrite Hl.
  unfold bind, update_wait_info, remove_falling_edge_irq. cbn.
  eexists. split; [reflexivity|]. cbn. now repeat split.
Qed.

Lemma finished_after (l : list _WaitInfo) (wi : nat) :
  is_Some (l !! wi) ->
  exists w, alter mark_finished wi l !! wi = Some w /\ already_finished w = true.
Proof.
  intros [w Hw]. rewrite list_lookup_alter_eq, Hw. cbn. eauto.
Qed.

(** X13.  A wait returns at once when an interrupt is already pending, or
    when its timeout is not positive: it registers the callback, makes one
    exchange reading CONFIG (STATUS comes as byte 0 of the reply),
    unregisters the callback and returns, without sleeping. *)
Theorem wait_returns_at_once (fresh : nat) (timeout : option Z)
    (script : list (wake (S := S))) (d : device S) (s' : S) (st cfg : Z) :
  xfer2 (_spi d) [0x00; 0xFF] = (s', Ok [st; cfg]) ->
  0 <= st <= 255 -> 0 <= cfg <= 255 ->
  _wait_info_cancellable d = None ->
  irq_asserted st cfg = true \/ (exists t, timeout = Some t /\ t <= 0) ->
  wait_for_irq_low fresh timeout script d
  = (Device s' None
            (wait_infos d ++ [{| condition_variable := fresh;
                                 already_finished := true;
                                 cancelled := false |}])
            None (clock d)
            (log d ++ [Ev_set_falling_edge_irq;
                       Ev_xfer2 [0x00; 0xFF] (Ok [st; cfg]);
                       Ev_remove_falling_edge_irq]),
     Ok tt).
Proof.
  intros Hx Hst Hcfg Hnone Hnow.
  unfold wait_for_irq_low. unfold bind at 1. unfold bind at 1. unfold lift at 1.
  rewrite Hnone. cbn [is_None assert]. unfold bind at 1. unfold new_wait_info at 1.
  rewrite Hnone.
  set (wi := length (wait_infos d)).
  set (d1 := Device (_spi d) None (wait_infos d ++ [_WaitInfo__init__ fresh])
                    (irq_callback d) (clock d) (log d)).
  assert (Hw : wait_infos (set_falling_edge_irq wi d1).1 !! wi
               = Some (_WaitInfo__init__ fresh)).
  { cbn. unfold wi. now rewrite list_lookup_middle. }
  pose proof (poll_exchange wi timeout (clock d1) (set_falling_edge_irq wi d1).1
                _ s' st cfg Hx Hst Hcfg Hw) as Hp.
  match type of Hp with _ = (_, Ok (?b, _)) =>
    assert (Hb : b = true) end.
  { cbn [clock set_falling_edge_irq fst d1 cancelled _WaitInfo__init__].
    destruct Hnow as [->|(t & -> & Ht)]; [reflexivity|].
    apply orb_true_iff. left. apply orb_true_iff. right. apply Z.leb_le. lia. }
  rewrite Hb in Hp.
  destruct (internal_wait_returns wi timeout script d1 _
              (wait_loop_break _ _ _ script _ _ _ Hp))
    as (d4 & -> & H1 & H2 & H3 & H4 & H5 & H6).
  f_equal. destruct d4 as [s4 c4 w4 i4 k4 l4]. cbn in H1, H2, H3, H4, H5, H6.
  subst. f_equal.
  - unfold wi. rewrite <- (Nat.add_0_r (length (wait_infos d))), alter_app_r. reflexivity.
  - now rewrite <- !app_assoc.
Qed.

(** X14.  With a timeout, on a transport that answers every exchange, both
    waits return, whatever wakes the thread in the meantime, with the
    callback unregistered, no cancellable wait recorded and the wait object
    marked as finished. *)
Theorem wait_with_timeout_returns (Hwb : well_behaved) (cv : nat) (t : Z)
    (script : list (wake (S := S))) (d : device S) :
  _wait_info_cancellable d = None ->
  returned_clean (wait_for_irq_low cv (Some t) script d) (length (wait_infos d))
  /\ returned_clean (wait_for_irq_low_cancellable cv (Some t) script d)
                    (length (wait_infos d)).
Proof.
  intros Hnone. set (wi := length (wait_infos d)). split.
  - unfold wait_for_irq_low. unfold bind at 1. unfold bind at 1. unfold lift at 1.
    rewrite Hnone. cbn [is_None assert]. unfold bind at 1. unfold new_wait_info at 1.
    fold wi.
    match goal with |- context [_internal_wait_for_irq_low wi _ _ ?d1] =>
      destruct (wait_loop_timeout Hwb wi t (clock d1) script (set_falling_edge_irq wi d1).1)
        as (d3 & Hl & Hsome & Hc);
      [cbn; unfold wi; rewrite list_lookup_middle by reflexivity; eauto|];
      destruct (internal_wait_returns wi (Some t) script d1 d3 Hl)
        as (d4 & -> & H1 & H2 & H3 & _)
    end.
    split; [reflexivity|]. cbn [fst]. split; [exact H1|]. split.
    + rewrite H2, Hc. cbn. exact Hnone.
    + unfold finished_at. rewrite H3. now apply finished_after.
  - unfold wait_for_irq_low_cancellable. unfold bind at 1. unfold bind at 1.
    unfold lift at 1. rewrite Hnone. cbn [is_None assert].
    unfold bind at 1. unfold new_wait_info at 1. fold wi.
    unfold bind at 1. unfold set__wait_info_cancellable at 1.
    cbn [_spi wait_infos irq_callback clock log].
    match goal with |- returned_clean (bind _ _ ?d1) _ =>
      destruct (wait_loop_timeout Hwb wi t (clock d1) script (set_falling_edge_irq wi d1).1)
        as (d3 & Hl & Hsome & Hc);
      [cbn; unfold wi; rewrite list_lookup_middle by reflexivity; eauto|];
      destruct (internal_wait_returns wi (Some t) script d1 d3 Hl)
        as (d4 & Hint & H1 & H2 & H3 & _)
    end.
    unfold bind at 1. rewrite Hint. unfold set__wait_info_cancellable.
    split; [reflexivity|]. cbn. split; [exact H1|]. split; [reflexivity|].
    unfold finished_at. cbn. rewrite H3. now apply finished_after.
Qed.

(** When the wait object is marked as cancelled, the next round ends the
    loop. *)
Lemma wait_loop_cancelled (Hwb : well_behaved) (wi : nat) (timeout : option Z)
    (start_time : Z) (script : list (wake (S := S))) (d : device S) (w : _WaitInfo) :
  wait_infos d !! wi = Some w -> cancelled w = true ->
  exists d', wait_loop wi timeout start_time script d = (d', Ok tt)
             /\ is_Some (wait_infos d' !! wi).
Proof.
  intros Hw Hc.
  destruct (poll_total Hwb wi timeout start_time d w Hw) as (d1 & b & Hp & Hb & _).
  rewrite (Hb Hc) in Hp.
  destruct (poll_frame_eq _ _ _ _ _ _ Hp) as (_ & F2 & _).
  exists d1. rewrite (wait_loop_break _ _ _ _ _ _ _ Hp), F2. eauto.
Qed.

Lemma wait_loop_cancel (Hwb : well_behaved) (wi cv : nat) (timeout : option Z)
    (start_time : Z) (w : wake (S := S)) (post : list (wake (S := S))) :
  w_cancel w = Some cv ->
  forall (pre : list (wake (S := S))) (d : device S) (w0 : _WaitInfo),
    _wait_info_cancellable d = Some wi ->
    wait_infos d !! wi = Some w0 -> condition_variable w0 = cv ->
    exists d', wait_loop wi timeout start_time (pre ++ w :: post) d = (d', Ok tt)
               /\ is_Some (wait_infos d' !! wi).
Proof.
  intros Hcancel. induction pre as [|w' pre IH]; intros d w0 Hwc Hw0 Hcv.
  - destruct (poll_total Hwb wi timeout start_time d w0 Hw0) as (d1 & b & Hp & _ & _).
    destruct (poll_frame_eq _ _ _ _ _ _ Hp) as (F1 & F2 & _).
    destruct b.
    { exists d1. cbn [app]. rewrite (wait_loop_break _ _ _ _ _ _ _ Hp), F2. eauto. }
    cbn [app]. rewrite (wait_loop_sleep _ _ _ _ _ _ _ _ Hp).
    destruct (sleep_spec w d1) as (d2 & Hs & _ & _ & _ & Hmark).
    rewrite Hs. cbn [fst].
    apply (wait_loop_cancelled Hwb wi timeout start_time post d2 (mark_cancelled w0)).
    + rewrite (Hmark wi w0); [|congruence|congruence|congruence].
      rewrite list_lookup_alter_eq, F2, Hw0. reflexivity.
    + reflexivity.
  - destruct (poll_total Hwb wi timeout start_time d w0 Hw0) as (d1 & b & Hp & _ & _).
    destruct (poll_frame_eq _ _ _ _ _ _ Hp) as (F1 & F2 & _).
    destruct b.
    { exists d1. rewrite (wait_loop_break _ _ _ _ _ _ _ Hp), F2. eauto. }
    cbn [app]. rewrite (wait_loop_sleep _ _ _ _ _ _ _ _ Hp).
    destruct (sleep_keeps w' d1 wi w0) as (w1 & Hw1 & Hcv1); [now rewrite F2|].
    apply (IH (sleep w' d1).1 w1); [|exact Hw1|congruence].
    destruct (sleep_spec w' d1) as (d2 & -> & _ & Hc2 & _). cbn [fst]. congruence.
Qed.

(** X15.  A cancellable wait is woken by [cancel_wait_for_irq]: when
    another thread cancels with the condition variable of the wait, at any
    point while the thread sleeps, the wait returns, with or without a
    timeout, with the callback unregistered, no cancellable wait recorded and
    the wait object marked as finished. *)
Theorem cancel_wakes_the_wait (Hwb : well_behaved) (cv : nat) (timeout : option Z)
    (pre post : list (wake (S := S))) (w : wake (S := S)) (d : device S) :
  _wait_info_cancellable d = None -> w_cancel w = Some cv ->
  returned_clean (wait_for_irq_low_cancellable cv timeout (pre ++ w :: post) d)
                 (length (wait_infos d)).
Proof.
  intros Hnone Hcancel. set (wi := length (wait_infos d)).
  unfold wait_for_irq_low_cancellable. unfold bind at 1. unfold bind at 1.
  unfold lift at 1. rewrite Hnone. cbn [is_None assert].
  unfold bind at 1. unfold new_wait_info at 1. fold wi.
  unfold bind at 1. unfold set__wait_info_cancellable at 1.
  cbn [_spi wait_infos irq_callback clock log].
  match goal with |- returned_clean (bind _ _ ?d1) _ =>
    destruct (wait_loop_cancel Hwb wi cv timeout (clock d1) w post Hcancel pre
                (set_falling_edge_irq wi d1).1 (_WaitInfo__init__ cv))
      as (d3 & Hl & Hsome);
    [reflexivity
    |cbn; unfold wi; now rewrite list_lookup_middle
    |reflexivity|];
    destruct (internal_wait_returns wi timeout (pre ++ w :: post) d1 d3 Hl)
      as (d4 & Hint & H1 & H2 & H3 & _)
  end.
  unfold bind at 1. rewrite Hint. unfold set__wait_info_cancellable.
  split; [reflexivity|]. cbn. split; [exact H1|]. split; [reflexivity|].
  unfold finished_at. cbn. rewrite H3. now apply finished_after.
Qed.

Lemma sleep_no_cancel (w : wake (S := S)) (d : device S) :
  _wait_info_cancellable d = None -> sleep w d = sleep (no_cancel w) d.
Proof.
  intros Hnone. unfold sleep, no_cancel. cbn [w_cancel w_elapsed w_chip].
  destruct (w_cancel w); [|reflexivity].
  unfold cancel_wait_for_irq. cbn [_wait_info_cancellable]. now rewrite Hnone.
Qed.

Lemma wait_loop_no_cancel (wi : nat) (timeout : option Z) (start_time : Z)
    (script : list (wake (S := S))) :
  forall d, _wait_info_cancellable d = None ->
            wait_loop wi timeout start_time script d
            = wait_loop wi timeout start_time (map no_cancel script) d.
Proof.
  induction script as [|w script IH]; intros d Hnone; [reflexivity|].
  cbn [map wait_loop]. unfold bind at 1 3.
  destruct (poll wi timeout start_time d) as [d1 [[b e]| |]] eqn:Hp; try reflexivity.
  destruct (poll_frame_eq _ _ _ _ _ _ Hp) as (F1 & _).
  cbn [fst]. destruct b; [reflexivity|].
  rewrite Hnone in F1. unfold bind. rewrite <- (sleep_no_cancel w d1 F1).
  destruct (sleep_spec w d1) as (d2 & -> & _ & Hc & _). apply IH. congruence.
Qed.

(** X16.  [wait_for_irq_low] cannot be cancelled: while no cancellable wait
    is recorded, [cancel_wait_for_irq] raises [CancelFailedException] and
    changes nothing, and the wait proceeds as if the other threads had not
    called it. *)
Theorem wait_for_irq_low_ignores_cancel (fresh cv : nat) (timeout : option Z)
    (script : list (wake (S := S))) (d : device S) :
  _wait_info_cancellable d = None ->
  cancel_wait_for_irq cv d = (d, Raise CancelFailedException)
  /\ wait_for_irq_low fresh timeout script d
     = wait_for_irq_low fresh timeout (map no_cancel script) d.
Proof.
  intros Hnone. split.
  - unfold cancel_wait_for_irq. now rewrite Hnone.
  - unfold wait_for_irq_low, _internal_wait_for_irq_low, bind, lift, new_wait_info,
      time_time, set_falling_edge_irq, try_finally.
    rewrite Hnone. cbn [is_None assert clock].
    rewrite wait_loop_no_cancel by reflexivity. reflexivity.
Qed.

End WaitingRounds.

Lemma wait_returns_at_once_witness :
  let d := new_device (<[0x07 := 0x40]> ∅ : gmap Z Z) in
  wait_for_irq_low 0 None [] d
  = (Device (<[0x07 := 0x40]> ∅ : gmap Z Z) None
            [{| condition_variable := 0%nat; already_finished := true;
                cancelled := false |}]
            None 0
            [Ev_set_falling_edge_irq;
             Ev_xfer2 [0x00; 0xFF] (Ok [0x40; 0]);
             Ev_remove_falling_edge_irq],
     Ok tt).
Proof.
  intros d.
  apply (wait_returns_at_once 0 None [] d (<[0x07 := 0x40]> ∅) 0x40 0).
  - reflexivity.
  - lia.
  - lia.
  - reflexivity.
  - left. reflexivity.
Defined.

Lemma wait_with_timeout_returns_witness :
  let d := new_device (∅ : gmap Z Z) in
  let script := [{| w_elapsed := 1; w_chip := fun s : gmap Z Z => s;
                    w_cancel := None |}] in
  returned_clean (wait_for_irq_low 0 (Some 5) script d) (length (wait_infos d))
  /\ returned_clean (wait_for_irq_low_cancellable 0 (Some 5) script d)
                    (length (wait_infos d)).
Proof.
  intros d script. apply (wait_with_timeout_returns sim_well_behaved 0 5 script d).
  reflexivity.
Defined.

Lemma cancel_wakes_the_wait_witness :
  let d := new_device (∅ : gmap Z Z) in
  let tick := {| w_elapsed := 1; w_chip := fun s : gmap Z Z => s; w_cancel := None |} in
  let stop := {| w_elapsed := 1; w_chip := fun s : gmap Z Z => s;
                 w_cancel := Some 7%nat |} in
  returned_clean (wait_for_irq_low_cancellable 7 None ([tick] ++ stop :: [tick]) d)
                 (length (wait_infos d)).
Proof.
  intros d tick stop.
  apply (cancel_wakes_the_wait sim_well_behaved 7 None [tick] [tick] stop d);
    reflexivity.
Defined.

Lemma wait_for_irq_low_ignores_cancel_witness :
  let d := new_device (∅ : gmap Z Z) in
  let stop := {| w_elapsed := 1; w_chip := fun s : gmap Z Z => s;
                 w_cancel := Some 7%nat |} in
  cancel_wait_for_irq 7 d = (d, Raise CancelFailedException)
  /\ wait_for_irq_low 0 (Some 3) [stop] d
     = wait_for_irq_low 0 (Some 3) (map no_cancel [stop]) d.
Proof.
  intros d stop. apply (wait_for_irq_low_ignores_cancel 0 7 (Some 3) [stop] d).
  reflexivity.
Defined.

(** *** Combining fields with [|] *)

Lemma compatible_snoc (t : list _RegisterField) (f : _RegisterField) :
  compatible t ->
  (match t with
   | [] => True
   | g :: _ => REGISTER_ADDRESS (field_cls f) = REGISTER_ADDRESS (field_cls g)
   end) ->
  FIELD_NAME (field_cls f) ∉ map (fun g => FIELD_NAME (field_cls g)) t ->
  compatible (t ++ [f]).
Proof.
  intros [Ha Hn] Hhead Hname. split.
  - assert (Hf : forall g, g ∈ t ->
                 REGISTER_ADDRESS (field_cls f) = REGISTER_ADDRESS (field_cls g)).
    { intros g Hg. destruct t as [|h t]; [now apply elem_of_nil in Hg|].
      rewrite Hhead. apply Ha; [now left | exact Hg]. }
    intros g1 g2 H1 H2. apply elem_of_app in H1, H2.
    destruct H1 as [H1|H1], H2 as [H2|H2].
    + now apply Ha.
    + apply list_elem_of_singleton in H2 as ->. symmetry. now apply Hf.
    + apply list_elem_of_singleton in H1 as ->. now apply Hf.
    + apply list_elem_of_singleton in H1 as ->.
      now apply list_elem_of_singleton in H2 as ->.
  - rewrite map_app. cbn [map]. apply NoDup_app. split; [exact Hn|]. split.
    + intros x Hx Hx'. apply list_elem_of_singleton in Hx' as ->. contradiction.
    + apply NoDup_singleton.
Qed.

Lemma compatible_prefix (t l : list _RegisterField) : compatible (t ++ l) -> compatible t.
Proof.
  intros [Ha Hn]. split.
  - intros f g Hf Hg. apply Ha; apply elem_of_app; now left.
  - rewrite map_app in Hn. now apply NoDup_app in Hn as (? & _).
Qed.

Lemma ior_fields_compatible (l : list _RegisterField) :
  forall t, compatible (rfs_fields t) ->
    (compatible (rfs_fields t ++ l) ->
     ior_fields t l = Ok {| rfs_fields := rfs_fields t ++ l |})
    /\ (~ compatible (rfs_fields t ++ l) ->
        exists msg, ior_fields t l = Raise (AssertionError msg)).
Proof.
  induction l as [|f l IH]; intros t Ht.
  - rewrite app_nil_r. split; [|contradiction]. intros _. now destruct t.
  - cbn [ior_fields]. unfold ior_field.
    replace (rfs_fields t ++ f :: l) with ((rfs_fields t ++ [f]) ++ l)
      by now rewrite <- app_assoc.
    destruct (match rfs_fields t with
              | [] => true
              | g :: _ => REGISTER_ADDRESS (field_cls f) =? REGISTER_ADDRESS (field_cls g)
              end) eqn:Hhead; cbn [assert_msg rbind].
    2: { split.
         - intros Hc. apply compatible_prefix in Hc as [Ha _]. exfalso.
           destruct (rfs_fields t) as [|g t'] eqn:Hl; [discriminate|].
           apply Z.eqb_neq in Hhead. apply Hhead.
           apply Ha; apply elem_of_app; [right; now left | left; now left].
         - intros _. unfold get_register_name.
           destruct (rfs_fields t); [discriminate|]. cbn. eauto. }
    destruct (forallb _ (rfs_fields t)) eqn:Hname; cbn [assert rbind].
    2: { split; [|eauto]. intros Hc. apply compatible_prefix in Hc as [_ Hn].
         exfalso. rewrite map_app in Hn. cbn [map] in Hn.
         apply NoDup_app in Hn as (_ & Hcross & _).
         assert (Hin : FIELD_NAME (field_cls f)
                       ∈ map (fun g => FIELD_NAME (field_cls g)) (rfs_fields t)).
         { destruct (decide (FIELD_NAME (field_cls f)
                             ∈ map (fun g => FIELD_NAME (field_cls g)) (rfs_fields t)))
             as [Hin|Hnot]; [exact Hin|].
           apply name_check in Hnot. congruence. }
         apply (Hcross _ Hin). now left. }
    apply name_check in Hname.
    apply (IH {| rfs_fields := rfs_fields t ++ [f] |}). cbn [rfs_fields].
    apply compatible_snoc; [exact Ht| |exact Hname].
    destruct (rfs_fields t); [exact I | now apply Z.eqb_eq in Hhead].
Qed.

(** X17.  [a | b] succeeds exactly when the fields of both sides are of
    one register and have different names, and then it holds the fields
    of [a] followed by those of [b]; otherwise it raises an assertion
    error. *)
Theorem or_succeeds_iff_compatible (s : _RegisterFieldSet) (other : field_or_fieldset) :
  compatible (rfs_fields s) ->
  (compatible (rfs_fields s ++ fields_of other) ->
   __or__ s other = Ok {| rfs_fields := rfs_fields s ++ fields_of other |})
  /\ (~ compatible (rfs_fields s ++ fields_of other) ->
      exists msg, __or__ s other = Raise (AssertionError msg)).
Proof.
  intros Hs. unfold __or__, __ior__. cbn [_RegisterFieldSet__init__].
  destruct other as [f|t]; cbn [fields_of].
  - destruct (ior_fields_compatible [f] {| rfs_fields := rfs_fields s |} Hs) as [H1 H2].
    cbn [ior_fields rfs_fields] in H1, H2.
    assert (Heq : forall r : result _RegisterFieldSet, (s' <- r ;; Ok s')%result = r)
      by (intros [?|?|]; reflexivity).
    rewrite Heq in H1, H2. now split.
  - apply (ior_fields_compatible (rfs_fields t) {| rfs_fields := rfs_fields s |} Hs).
Qed.

Lemma or_succeeds_iff_compatible_witness :
  let s := {| rfs_fields := [field_value PWR_UP 1; field_value PRIM_RX 1] |} in
  let other := AField (field_value EN_CRC 0) in
  (compatible (rfs_fields s ++ fields_of other) ->
   __or__ s other = Ok {| rfs_fields := rfs_fields s ++ fields_of other |})
  /\ (~ compatible (rfs_fields s ++ fields_of other) ->
      exists msg, __or__ s other = Raise (AssertionError msg)).
Proof.
  intros s other. apply (or_succeeds_iff_compatible s other).
  split.
  - intros f g Hf Hg. unfold s in Hf, Hg. cbn [rfs_fields] in Hf, Hg.
    repeat (apply elem_of_cons in Hf as [->|Hf]);
      repeat (apply elem_of_cons in Hg as [->|Hg]);
      try reflexivity; now apply elem_of_nil in Hf || apply elem_of_nil in Hg.
  - apply (bool_decide_eq_true_1 (NoDup _)). vm_compute. reflexivity.
Defined.

(** *** What the check of the table guarantees *)

Lemma _verify_range (l : list Z) :
  forall (acc : result (gset Z)) (bits' : gset Z),
    foldl (fun acc bit =>
             bs <- acc ;;
             assert (bool_decide (bit ∉ bs)) "Bit overlaps" ;;;
             Ok ({[bit]} ∪ bs))%result acc l = Ok bits' ->
    exists bits, acc = Ok bits
                 /\ bits' = list_to_set l ∪ bits
                 /\ (list_to_set l : gset Z) ## bits.
Proof.
  induction l as [|bit l IH]; intros acc bits' H; cbn in H.
  - exists bits'. split; [exact H|]. split; [|apply disjoint_empty_l].
    cbn. now rewrite (left_id_L ∅ (∪)).
  - apply IH in H as (bits1 & Hstep & -> & Hdis).
    destruct acc as [bits| |]; cbn in Hstep; try discriminate.
    case_bool_decide as Hbit; cbn in Hstep; [|discriminate].
    injection Hstep as <-. exists bits. split; [reflexivity|].
    cbn [list_to_set]. split.
    + rewrite (assoc_L (∪)). f_equal. apply (comm_L (∪)).
    + apply disjoint_union_l. split.
      * now apply disjoint_singleton_l.
      * apply disjoint_union_r in Hdis. tauto.
Qed.

Lemma _verify_bits_sound (fs : list _RegisterFieldInfo) :
  forall bits bits',
    _verify_bits fs bits = Ok bits' ->
    bits' = ⋃ (map info_bits fs) ∪ bits
    /\ Forall (fun f => info_bits f ## bits) fs
    /\ bits_disjoint fs.
Proof.
  induction fs as [|f fs IH]; intros bits bits' H; cbn [_verify_bits] in H.
  - injection H as <-. cbn. rewrite (left_id_L ∅ (∪)). split; [reflexivity|].
    split; [constructor|]. intros i j fi fj _ Hi. now rewrite lookup_nil in Hi.
  - match type of H with (rbind ?r _) = _ => destruct r as [bits1| |] eqn:Hr end;
      cbn [rbind] in H; try discriminate.
    apply _verify_range in Hr as (bits0 & [= <-] & -> & Hdis).
    fold (info_bits f) in *.
    apply IH in H as (-> & Hall & Hpair). split; [|split].
    + cbn [map union_list]. rewrite !(assoc_L (∪)). f_equal. apply (comm_L (∪)).
    + constructor; [exact Hdis|].
      eapply Forall_impl; [exact Hall|]. intros g Hg.
      apply disjoint_union_r in Hg. tauto.
    + intros [|i] [|j] fi fj Hij Hi Hj; cbn in Hi, Hj.
      * contradiction.
      * injection Hi as <-. rewrite Forall_forall in Hall.
        assert (Hg : info_bits fj ## info_bits f ∪ bits)
          by (apply Hall; now apply list_elem_of_lookup_2 in Hj).
        apply disjoint_union_r in Hg. symmetry. tauto.
      * injection Hj as <-. rewrite Forall_forall in Hall.
        assert (Hg : info_bits fi ## info_bits f ∪ bits)
          by (apply Hall; now apply list_elem_of_lookup_2 in Hi).
        apply disjoint_union_r in Hg. tauto.
      * apply (Hpair i j); [congruence | exact Hi | exact Hj].
Qed.

Lemma _verify_loop_sound (rs : list _RegisterInfo) :
  forall (register_addresses : gset Z) (register_names : gset string),
    _verify_loop rs register_addresses register_names = Ok tt ->
    NoDup (map ri_name rs)
    /\ (forall r, r ∈ rs -> ri_name r ∉ register_names)
    /\ NoDup (map address rs)
    /\ (forall r, r ∈ rs -> address r ∉ register_addresses)
    /\ Forall (fun r => bits_disjoint (fields r)
                        /\ (⋃ (map info_bits (fields r)) = list_to_set (range 0 8)
                            \/ ⋃ (map info_bits (fields r)) = ∅))
              rs.
Proof.
  induction rs as [|r rs IH]; intros addrs names H.
  - repeat split; try constructor; intros r Hr; now apply elem_of_nil in Hr.
  - cbn [_verify_loop] in H.
    case_bool_decide as Hname; cbn [assert rbind] in H; [|discriminate].
    case_bool_decide as Haddr; cbn [assert rbind] in H; [|discriminate].
    destruct (_verify_bits (fields r) ∅) as [bits| |] eqn:Hbits; cbn [rbind] in H;
      try discriminate.
    apply _verify_bits_sound in Hbits as (-> & _ & Hpair).
    rewrite (right_id_L ∅ (∪)) in H.
    match type of H with (rbind (assert ?b _) _) = _ => destruct b eqn:Hcover end;
      cbn [assert rbind] in H; [|discriminate].
    apply IH in H as (Hn & Hnames & Ha & Haddrs & Hall).
    split; [|split; [|split; [|split]]].
    + cbn [map]. apply NoDup_cons. split; [|exact Hn].
      intros Hin. apply list_elem_of_fmap in Hin as (r' & Heq & Hr').
      apply (Hnames r' Hr'). rewrite <- Heq. apply elem_of_union. left.
      now apply elem_of_singleton.
    + intros r' Hr'. apply elem_of_cons in Hr' as [->|Hr']; [exact Hname|].
      intros Hin. apply (Hnames r' Hr'). apply elem_of_union. now right.
    + cbn [map]. apply NoDup_cons. split; [|exact Ha].
      intros Hin. apply list_elem_of_fmap in Hin as (r' & Heq & Hr').
      apply (Haddrs r' Hr'). rewrite <- Heq. apply elem_of_union. left.
      now apply elem_of_singleton.
    + intros r' Hr'. apply elem_of_cons in Hr' as [->|Hr']; [exact Haddr|].
      intros Hin. apply (Haddrs r' Hr'). apply elem_of_union. now right.
    + constructor; [|exact Hall]. split; [exact Hpair|].
      apply orb_true_iff in Hcover as [Hc|Hc]; apply bool_decide_eq_true in Hc; tauto.
Qed.

(** X18.  The check made when the module is imported is sound, whatever
    the table: when it passes, no register name and no address occurs
    twice, and the fields of each register share no bit and together cover
    exactly bits 0 to 7, or the register has no field bits at all. *)
Theorem _verify_registers_sound (rs : list _RegisterInfo) :
  _verify_loop rs ∅ ∅ = Ok tt -> table_ok rs.
Proof.
  intros H. apply _verify_loop_sound in H as (Hn & _ & Ha & _ & Hall).
  now repeat split.
Qed.

Lemma _verify_registers_sound_witness : table_ok _REGISTERS.
Proof.
  apply (_verify_registers_sound _REGISTERS). vm_compute. reflexivity.
Defined.
